(** * Model download and lifecycle manager: a shallow embedding

    This development embeds the artifact-management core of the assistant
    (the [ModelManager] service and the Express routes in front of it) and
    proves properties of it.

    - [Path]: the fragment of Node's [path] module (POSIX flavour) that the
      service calls: [join], [normalize], [resolve] and [parse(...).name].
    - [Fs]: a flat file system keyed by absolute path, with the synchronous
      calls the service uses ([existsSync], [readdirSync], [statSync],
      [unlinkSync], [mkdirSync]) and the effect of a write stream.
    - [ModelManager]: the service, method by method.
    - [Float64], [ParseInt]: the number arithmetic behind the progress
      percentage and the reading of the [content-length] header.
    - [Download]: [downloadModel] as an event-driven state machine; the
      environment (network and disk) feeds it the events for which the code
      registers listeners, and the one for which it registers none, the
      end of a response that was cut short.
    - [Server]: the three model-management routes, each from its import of
      the service on and as a whole, with the import that evaluates the
      service at the first request.

    The file system changes only through the calls of the service itself;
    [console] output is not modelled.  *)

From Stdlib Require Import ZArith List Ascii String Bool Lia.
From Stdlib Require Import QArith Qround Qpower Lqa.
From Corelib Require SpecFloat.
From stdpp Require Import base option list gmap strings pretty.
Import ListNotations.

Local Open Scope Z_scope.
Local Open Scope string_scope.

(* ===================================================================== *)
(** ** JavaScript values that cross the HTTP boundary *)
(* ===================================================================== *)

(** A JavaScript [Error]: only its [message] is observed by the routes. *)
Record Error := mkError { message : string }.

(** Outcome of a synchronous call: a value or a thrown exception. *)
Inductive outcome (A : Type) :=
| Returns (a : A)
| Throws (e : Error).
Arguments Returns {A} a.
Arguments Throws {A} e.

(** [try { body } catch (error) { handler }] for bodies without state. *)
Definition try_catch {A} (body : outcome A) (handler : Error -> outcome A) : outcome A :=
  match body with
  | Returns a => Returns a
  | Throws e => handler e
  end.

(* ===================================================================== *)
(** ** Strings *)
(* ===================================================================== *)

Module Str.

(** [s.endsWith(suffix)] *)
Definition endsWith (s suffix : string) : bool :=
  let n := String.length s in
  let k := String.length suffix in
  if (k <=? n)%nat then String.eqb (substring (n - k) k s) suffix else false.

(** [s.slice(i)] for [0 <= i] *)
Definition drop (i : nat) (s : string) : string :=
  substring i (String.length s - i) s.

(** [s.slice(0, i)] *)
Definition take (i : nat) (s : string) : string := substring 0 i s.

(** [s.lastIndexOf(c)], [None] for [-1]; the accumulator [i] is the index
    of the head of [s] in the original string. *)
Fixpoint lastIndexOf_from (c : ascii) (s : string) (i : nat) : option nat :=
  match s with
  | EmptyString => None
  | String a s' =>
      match lastIndexOf_from c s' (S i) with
      | Some j => Some j
      | None => if Ascii.eqb a c then Some i else None
      end
  end.

Definition lastIndexOf (c : ascii) (s : string) : option nat :=
  lastIndexOf_from c s 0.

(** [s.split(c)]: the pieces between the occurrences of [c]. *)
Fixpoint split (c : ascii) (s : string) : list string :=
  match s with
  | EmptyString => [EmptyString]
  | String a s' =>
      if Ascii.eqb a c then EmptyString :: split c s'
      else match split c s' with
           | [] => [String a EmptyString]
           | seg :: rest => String a seg :: rest
           end
  end.

(** [segs.join(sep)] *)
Fixpoint join (sep : string) (segs : list string) : string :=
  match segs with
  | [] => EmptyString
  | [x] => x
  | x :: rest => x ++ sep ++ join sep rest
  end.

(** The last character of a string. *)
Fixpoint last_char (s : string) : option ascii :=
  match s with
  | EmptyString => None
  | String a EmptyString => Some a
  | String _ s' => last_char s'
  end.

Definition head_char (s : string) : option ascii :=
  match s with
  | EmptyString => None
  | String a _ => Some a
  end.

End Str.

(* ===================================================================== *)
(** ** Node's [path] module, POSIX flavour *)
(* ===================================================================== *)

Module Path.

Definition slash : ascii := "/"%char.
Definition dot : ascii := "."%char.

Definition is_slash (o : option ascii) : bool :=
  match o with Some a => Ascii.eqb a slash | None => false end.

(** One step of [normalizeString]: [acc] is the stack of segments kept so
    far, innermost first.  Empty segments and ["."] vanish; [".."] pops
    the previous segment unless there is none (or it is itself [".."]),
    in which case it is kept only when [allowAboveRoot]. *)
Definition normalize_step (allowAboveRoot : bool) (acc : list string) (seg : string)
  : list string :=
  if String.eqb seg "" then acc
  else if String.eqb seg "." then acc
  else if String.eqb seg ".." then
    match acc with
    | [] => if allowAboveRoot then [".."] else []
    | top :: below =>
        if String.eqb top ".." then ".." :: acc else below
    end
  else seg :: acc.

Definition normalize_segments (allowAboveRoot : bool) (segs : list string) : list string :=
  rev (fold_left (normalize_step allowAboveRoot) segs []).

(** [path.normalize(p)] *)
Definition normalize (p : string) : string :=
  if String.eqb p "" then "."
  else
    let isAbsolute := is_slash (Str.head_char p) in
    let trailingSeparator := is_slash (Str.last_char p) in
    let body := Str.join "/" (normalize_segments (negb isAbsolute) (Str.split slash p)) in
    if String.eqb body "" then
      if isAbsolute then "/" else if trailingSeparator then "./" else "."
    else
      let body := if trailingSeparator then body ++ "/" else body in
      if isAbsolute then "/" ++ body else body.

(** [path.join(a, b)]: the non-empty arguments glued with ["/"], then
    normalized; ["."] when both are empty. *)
Definition join (a b : string) : string :=
  if String.eqb a "" then
    if String.eqb b "" then "." else normalize b
  else if String.eqb b "" then normalize a
  else normalize (a ++ "/" ++ b).

(** [path.resolve(cwd, b)] for an absolute [cwd] (which is what
    [process.cwd()] returns): [b] wins when it is absolute; the result is
    normalized and carries no trailing separator. *)
Definition resolve (cwd b : string) : string :=
  let joined := if is_slash (Str.head_char b) then b
                else if String.eqb b "" then cwd else cwd ++ "/" ++ b in
  let body := Str.join "/" (normalize_segments false (Str.split slash joined)) in
  "/" ++ body.

(** Trailing separators do not belong to the last component. *)
Fixpoint strip_trailing_slashes (segs_rev : list string) : list string :=
  match segs_rev with
  | s :: rest => if String.eqb s "" then strip_trailing_slashes rest else segs_rev
  | [] => []
  end.

(** [path.parse(p).base]: the last component of [p]. *)
Definition basename (p : string) : string :=
  match strip_trailing_slashes (rev (Str.split slash p)) with
  | b :: _ => b
  | [] => ""
  end.

(** [path.parse(p).ext]: from the last dot of the base to its end; empty
    when the base has no dot, when its only dot is its first character,
    or when the base is [".."]. *)
Definition extname (p : string) : string :=
  let base := basename p in
  match Str.lastIndexOf dot base with
  | None => ""
  | Some O => ""
  | Some i => if String.eqb base ".." then "" else Str.drop i base
  end.

(** [path.parse(p).name]: the base without its extension. *)
Definition parse_name (p : string) : string :=
  let base := basename p in
  Str.take (String.length base - String.length (extname p)) base.

(** [path.dirname(p)] for a normalized absolute path with at least one
    component. *)
Definition dirname (p : string) : string :=
  match Str.lastIndexOf slash p with
  | None => "."
  | Some O => "/"
  | Some i => Str.take i p
  end.

End Path.




(* ===================================================================== *)
(** ** The file system *)
(* ===================================================================== *)

(** [outcome] is a monad: a thrown exception skips the rest of the block. *)
Global Instance outcome_ret : MRet outcome := fun _ a => Returns a.
Global Instance outcome_bind : MBind outcome := fun _ _ k c =>
  match c with
  | Returns a => k a
  | Throws e => Throws e
  end.

Module Fs.

(** A directory entry.  [locked] marks a file whose removal the system
    refuses (held by another process, protected by permissions);
    [readable] says whether the directory may be listed. *)
Inductive node :=
| File (size : Z) (locked : bool)
| Dir (size : Z) (readable : bool).

(** The file system: absolute normalized path to entry. *)
Abbreviation t := (gmap string node).

Definition ENOENT (p : string) : Error :=
  mkError ("ENOENT: no such file or directory, '" ++ p ++ "'").
Definition EACCES (p : string) : Error :=
  mkError ("EACCES: permission denied, '" ++ p ++ "'").
Definition ENOTDIR (p : string) : Error :=
  mkError ("ENOTDIR: not a directory, '" ++ p ++ "'").
Definition EISDIR (p : string) : Error :=
  mkError ("EISDIR: illegal operation on a directory, '" ++ p ++ "'").
Definition EPERM (p : string) : Error :=
  mkError ("EPERM: operation not permitted, '" ++ p ++ "'").

(** [fs.existsSync(p)]: never throws.  Paths are looked up as they are
    written, which is how the system reads a path without a trailing
    separator. *)
Definition existsSync (fs : t) (p : string) : bool :=
  match fs !! p with Some _ => true | None => false end.

(** The name under which [q] appears in a listing of [dir], if [q] is a
    direct child of [dir]. *)
Definition child_name (dir q : string) : option string :=
  let pre := if String.eqb dir "/" then "/" else dir ++ "/" in
  if String.prefix pre q then
    let rest := Str.drop (String.length pre) q in
    if String.eqb rest "" then None
    else match Str.lastIndexOf Path.slash rest with
         | None => Some rest
         | Some _ => None
         end
  else None.

(** [fs.readdirSync(p)]: the entry names of a readable directory. *)
Definition readdirSync (fs : t) (p : string) : outcome (list string) :=
  match fs !! p with
  | Some (Dir _ true) => Returns (omap (child_name p) (map fst (map_to_list fs)))
  | Some (Dir _ false) => Throws (EACCES p)
  | Some (File _ _) => Throws (ENOTDIR p)
  | None => Throws (ENOENT p)
  end.

(** [fs.statSync(p).size] *)
Definition statSync_size (fs : t) (p : string) : outcome Z :=
  match fs !! p with
  | Some (File sz _) => Returns sz
  | Some (Dir sz _) => Returns sz
  | None => Throws (ENOENT p)
  end.

(** [fs.unlinkSync(p)] *)
Definition unlinkSync (fs : t) (p : string) : t * outcome unit :=
  match fs !! p with
  | Some (File _ false) => (delete p fs, Returns tt)
  | Some (File _ true) => (fs, Throws (EPERM p))
  | Some (Dir _ _) => (fs, Throws (EISDIR p))
  | None => (fs, Throws (ENOENT p))
  end.

(** [fs.unlink(p, () => {})]: the callback drops the error, so only the
    effect on the file system remains. *)
Definition unlink_ignoring_error (fs : t) (p : string) : t :=
  fst (unlinkSync fs p).

(** Opening [fs.createWriteStream(p)] (flag ['w']): an existing file is
    truncated, a missing one is created when its directory exists;
    otherwise nothing changes and the stream will emit ['error']. *)
Definition open_for_write (fs : t) (p : string) : t :=
  match fs !! p with
  | Some (File _ l) => <[p := File 0 l]> fs
  | Some (Dir _ _) => fs
  | None =>
      match fs !! Path.dirname p with
      | Some (Dir _ _) => <[p := File 0 false]> fs
      | _ => fs
      end
  end.

(** A chunk of [n] bytes written through a stream opened on [p]: the file
    grows while it is still linked at [p]. *)
Definition write_chunk (fs : t) (p : string) (n : Z) : t :=
  match fs !! p with
  | Some (File sz l) => <[p := File (sz + n) l]> fs
  | _ => fs
  end.

(** [fs.mkdirSync(p, { recursive: true })] on the chain of ancestors
    [chain] of [p], outermost first and ending with [p] itself. *)
Fixpoint mkdir_chain (fs : t) (chain : list string) : t * outcome unit :=
  match chain with
  | [] => (fs, Returns tt)
  | d :: rest =>
      match fs !! d with
      | Some (File _ _) => (fs, Throws (ENOTDIR d))
      | Some (Dir _ _) => mkdir_chain fs rest
      | None => mkdir_chain (<[d := Dir 4096 true]> fs) rest
      end
  end.

(** The ancestors of an absolute path, outermost first, the path last. *)
Definition ancestors (p : string) : list string :=
  let segs := filter (fun s => s ≠ "") (Str.split Path.slash p) in
  map (fun k => "/" ++ Str.join "/" (take k segs)) (seq 1 (length segs)).

Definition mkdirSync_recursive (fs : t) (p : string) : t * outcome unit :=
  mkdir_chain fs (ancestors p).

End Fs.

(* ===================================================================== *)
(** ** The model manager *)
(* ===================================================================== *)

Module ModelInfo.
Record t := mk {
  name : string;
  filename : string;
  url : string;
  size : string;
  description : string
}.
End ModelInfo.

(** Recommended lightweight models for offline use. *)
Definition RECOMMENDED_MODELS : list ModelInfo.t := [
  ModelInfo.mk
    "Llama 3.2 1B Instruct"
    "llama-3.2-1b-instruct-q4_0.gguf"
    "https://huggingface.co/bartowski/Llama-3.2-1B-Instruct-GGUF/resolve/main/Llama-3.2-1B-Instruct-Q4_K_M.gguf"
    "~670MB"
    "Small, fast model good for basic conversations";
  ModelInfo.mk
    "Llama 3.2 3B Instruct"
    "llama-3.2-3b-instruct-q4_0.gguf"
    "https://huggingface.co/bartowski/Llama-3.2-3B-Instruct-GGUF/resolve/main/Llama-3.2-3B-Instruct-Q4_K_M.gguf"
    "~1.9GB"
    "Balanced model with better reasoning capabilities";
  ModelInfo.mk
    "Phi-3 Mini Instruct"
    "phi-3-mini-4k-instruct-q4.gguf"
    "https://huggingface.co/bartowski/Phi-3-mini-4k-instruct-GGUF/resolve/main/Phi-3-mini-4k-instruct-Q4_K_M.gguf"
    "~2.2GB"
    "Microsoft's efficient small language model"
].

(** The instance state of [class ModelManager]. *)
Record ModelManager := { modelsDir : string }.

(** [private ensureModelsDirectory()] *)
Definition ensureModelsDirectory (mm : ModelManager) (fs : Fs.t) : Fs.t * outcome unit :=
  if negb (Fs.existsSync fs (modelsDir mm)) then Fs.mkdirSync_recursive fs (modelsDir mm)
  else (fs, Returns tt).

(** [constructor()], with [process.cwd()] as [cwd]. *)
Definition new_ModelManager (cwd : string) (fs : Fs.t) : Fs.t * outcome ModelManager :=
  let this := {| modelsDir := Path.resolve cwd "models" |} in
  match ensureModelsDirectory this fs with
  | (fs', Returns _) => (fs', Returns this)
  | (fs', Throws e) => (fs', Throws e)
  end.

Definition getRecommendedModels (mm : ModelManager) : list ModelInfo.t :=
  RECOMMENDED_MODELS.

(** [getDownloadedModels()]: the [catch] logs and answers with [[]]. *)
Definition getDownloadedModels (mm : ModelManager) (fs : Fs.t) : outcome (list string) :=
  try_catch
    (files ← Fs.readdirSync fs (modelsDir mm);
     mret (map Path.parse_name (filter (fun file => Str.endsWith file ".gguf" = true) files)))
    (fun error => Returns []).

Definition getModelPath (mm : ModelManager) (filename : string) : string :=
  Path.join (modelsDir mm) filename.

(** [deleteModel(filename)]: the [catch] logs and answers with [false]. *)
Definition deleteModel (mm : ModelManager) (fs : Fs.t) (filename : string)
  : Fs.t * outcome bool :=
  let modelPath := getModelPath mm filename in
  if Fs.existsSync fs modelPath then
    match Fs.unlinkSync fs modelPath with
    | (fs', Returns _) => (fs', Returns true)
    | (fs', Throws error) => (fs', Returns false)
    end
  else (fs, Returns false).

(** [mb.toFixed(1)] for [mb = bytes / (1024 * 1024)].  Dividing by a power
    of two is exact in binary floating point, and [toFixed(1)] picks the
    integer [n] for which [n / 10] is closest to the exact value of [mb],
    the larger one on a tie: [n = floor (10 * bytes / 2^20 + 1/2)]. *)
Definition mb_toFixed1 (bytes : Z) : string :=
  let n := (20 * bytes + 1048576) / 2097152 in
  pretty (n / 10) ++ "." ++ pretty (n mod 10).

(** [getModelSize(filename)]: falls through to ["Unknown"] when the file is
    absent or [statSync] throws. *)
Definition getModelSize (mm : ModelManager) (fs : Fs.t) (filename : string) : outcome string :=
  let modelPath := getModelPath mm filename in
  match
    try_catch
      (if Fs.existsSync fs modelPath then
         bytes ← Fs.statSync_size fs modelPath;
         mret (Some (mb_toFixed1 bytes ++ "MB"))
       else mret None)
      (fun error => Returns None)
  with
  | Returns (Some label) => Returns label
  | Returns None => Returns "Unknown"
  | Throws e => Throws e
  end.

(* ===================================================================== *)
(** ** JavaScript numbers *)
(* ===================================================================== *)

(** A JavaScript number is an IEEE 754 binary64 value.  The byte counters
    of the downloader are integers far below [2^53], hence exact; the
    progress percentage goes through one division and one multiplication,
    each rounded to the nearest representable value.  Finite values are
    kept as rationals; the exponent range is not bounded, which is
    immaterial for quotients of byte counts. *)
Module Float64.

Local Open Scope Q_scope.

Definition pow2 (e : Z) : Q := 2 ^ e.

(** The exponent [e] with [2^e <= q < 2^(e+1)], for [0 < q]. *)
Definition binade (q : Q) : Z :=
  let c := (Z.log2 (Qnum q) - Z.log2 (Zpos (Qden q)))%Z in
  if Qle_bool (pow2 c) q then c else (c - 1)%Z.

(** Nearest integer, ties to even. *)
Definition round_half_even (x : Q) : Z :=
  let f := Qfloor x in
  match Qcompare (x - inject_Z f) (1 # 2) with
  | Lt => f
  | Gt => (f + 1)%Z
  | Eq => if Z.even f then f else (f + 1)%Z
  end.

(** Nearest value with a 53-bit significand, for [0 < q]. *)
Definition round_pos (q : Q) : Q :=
  let ulp := pow2 (binade q - 52) in
  inject_Z (round_half_even (q / ulp)) * ulp.

(** Round to nearest, ties to even. *)
Definition round (q : Q) : Q :=
  match Qcompare q 0 with
  | Eq => 0
  | Gt => round_pos q
  | Lt => - round_pos (- q)
  end.

(** [x / y] and [x * y] on numbers *)
Definition div (x y : Q) : Q := round (x / y).
Definition mul (x y : Q) : Q := round (x * y).

(** [Math.round(x)]: the nearest integer, the larger one on a tie. *)
Definition Math_round (x : Q) : Z := Qfloor (x + (1 # 2)).

(** The same percentage computed with the standard library's executable
    specification of binary64 arithmetic, as a cross-check. *)
Module Binary64.
Import SpecFloat.
Definition prec : Z := 53.
Definition emax : Z := 1024.
Definition of_Z (z : Z) : spec_float := binary_normalize prec emax z 0 false.
Definition to_Q (x : spec_float) : Q :=
  match x with
  | S754_finite s m e => (if s then - (1) else 1) * inject_Z (Zpos m) * pow2 e
  | _ => 0
  end.
Definition percent (downloadedBytes totalBytes : Z) : Z :=
  Math_round (to_Q (SFmul prec emax
                      (SFdiv prec emax (of_Z downloadedBytes) (of_Z totalBytes))
                      (of_Z 100))).
End Binary64.

End Float64.

(** [Math.round((downloadedBytes / totalBytes) * 100)] *)
Definition percent (downloadedBytes totalBytes : Z) : Z :=
  Float64.Math_round
    (Float64.mul (Float64.div (inject_Z downloadedBytes) (inject_Z totalBytes))
                 (inject_Z 100)).

(** [parseInt(s, 10)]: leading white space and one sign are skipped, then
    the longest run of decimal digits is read; [None] stands for [NaN].
    The result is the integer that the digits denote, which is the number
    that [parseInt] returns as long as it is below [2^53]. *)
Module ParseInt.

Definition is_whitespace (a : ascii) : bool :=
  let n := nat_of_ascii a in
  ((n =? 32) || ((9 <=? n) && (n <=? 13)))%nat.

Fixpoint trim_start (s : string) : string :=
  match s with
  | String a s' => if is_whitespace a then trim_start s' else s
  | EmptyString => EmptyString
  end.

Definition digit_value (a : ascii) : option Z :=
  let n := Z.of_nat (nat_of_ascii a) in
  if ((48 <=? n) && (n <=? 57))%Z then Some (n - 48) else None.

Fixpoint digits (s : string) (acc : option Z) : option Z :=
  match s with
  | String a s' =>
      match digit_value a with
      | Some d => digits s' (Some (10 * default 0 acc + d))
      | None => acc
      end
  | EmptyString => acc
  end.

Definition parseInt10 (s : string) : option Z :=
  match trim_start s with
  | String "-" s' => Z.opp <$> digits s' None
  | String "+" s' => digits s' None
  | s' => digits s' None
  end.

End ParseInt.

(* ===================================================================== *)
(** ** [downloadModel] *)
(* ===================================================================== *)

Module Download.

(** The promise returned by [downloadModel]. *)
Inductive promise :=
| Pending
| Resolved (modelPath : string)
| Rejected (error : Error).

(** What the environment can deliver to a call of [downloadModel]: the
    events for which the call registers a listener, and the end of a
    response whose body was cut short, for which it registers none. *)
Inductive event :=
| Response (statusCode : Z) (contentLength : option string)
    (** the callback of [https.get] *)
| Data (length : Z)
    (** [response.on('data')], with [chunk.length] *)
| Finish
    (** [file.on('finish')] *)
| RequestError (error : Error)
    (** [request.on('error')] *)
| FileError (error : Error)
    (** [file.on('error')] *)
| Aborted.
    (** ['aborted'] and ['close'] of the response: the peer has closed the
        connection before the body was complete.  The response does not
        emit ['end'], so the pipe leaves the file open and ['finish'] does
        not follow. *)

(** The variables captured by the closures of one call, the file system
    they act on, and [listener], the state that [onProgress] writes to. *)
Record state (S : Type) := mkState {
  fs : Fs.t;
  listener : S;
  modelPath : string;
  downloadedBytes : Z;
  totalBytes : option Z;
  requested : list string;  (** URLs handed to [https.get] *)
  active : bool;            (** the request and file listeners exist *)
  responded : bool;         (** the one-shot response callback has run *)
  streaming : bool;         (** the ['data'] and ['finish'] listeners exist *)
  piped : bool;             (** [response.pipe(file)] is in place *)
  settled : promise
}.
Arguments mkState {S}.
Arguments fs {S}. Arguments listener {S}. Arguments modelPath {S}.
Arguments downloadedBytes {S}. Arguments totalBytes {S}.
Arguments requested {S}. Arguments active {S}. Arguments responded {S}.
Arguments streaming {S}. Arguments piped {S}. Arguments settled {S}.

Section WithCallback.
Context {S : Type}.
(** [onProgress?: (progress: number) => void] *)
Variable onProgress : option (Z -> S -> S).

(** [resolve] and [reject] only act on a pending promise. *)
Definition resolve (p : string) (st : state S) : state S :=
  match settled st with
  | Pending =>
      mkState (fs st) (listener st) (modelPath st) (downloadedBytes st) (totalBytes st)
        (requested st) (active st) (responded st) (streaming st) (piped st) (Resolved p)
  | _ => st
  end.

Definition reject (e : Error) (st : state S) : state S :=
  match settled st with
  | Pending =>
      mkState (fs st) (listener st) (modelPath st) (downloadedBytes st) (totalBytes st)
        (requested st) (active st) (responded st) (streaming st) (piped st) (Rejected e)
  | _ => st
  end.

(** The synchronous part of [downloadModel]: either the file is there
    and the path is returned, or the write stream is created and the
    request is sent.  The URL is one that [https.get] accepts, as the URLs
    of the catalog are. *)
Definition downloadModel (mm : ModelManager) (modelInfo : ModelInfo.t)
    (fs0 : Fs.t) (l : S) : state S :=
  let modelPath := getModelPath mm (ModelInfo.filename modelInfo) in
  if Fs.existsSync fs0 modelPath then
    mkState fs0 l modelPath 0 (Some 0) [] false false false false (Resolved modelPath)
  else
    mkState (Fs.open_for_write fs0 modelPath) l modelPath 0 (Some 0)
      [ModelInfo.url modelInfo] true false false false Pending.

(** The response callback. *)
Definition on_response (statusCode : Z) (contentLength : option string)
    (st : state S) : state S :=
  if negb (statusCode =? 200)%Z then
    reject (mkError ("Failed to download model: HTTP " ++ pretty statusCode))
      (mkState (fs st) (listener st) (modelPath st) (downloadedBytes st) (totalBytes st)
         (requested st) (active st) true (streaming st) (piped st) (settled st))
  else
    let header := match contentLength with
                  | Some h => if String.eqb h "" then "0" else h
                  | None => "0"
                  end in
    mkState (fs st) (listener st) (modelPath st) (downloadedBytes st)
      (ParseInt.parseInt10 header)
      (requested st) (active st) true true true (settled st).

(** The ['data'] listener, and the write that the pipe performs. *)
Definition on_data (len : Z) (st : state S) : state S :=
  let downloaded := downloadedBytes st + len in
  let l := match onProgress, totalBytes st with
           | Some callback, Some total =>
               if (0 <? total)%Z then callback (percent downloaded total) (listener st)
               else listener st
           | _, _ => listener st
           end in
  mkState (if piped st then Fs.write_chunk (fs st) (modelPath st) len else fs st)
    l (modelPath st) downloaded (totalBytes st)
    (requested st) (active st) (responded st) (streaming st) (piped st) (settled st).

(** The ['finish'] listener. *)
Definition on_finish (st : state S) : state S :=
  resolve (modelPath st)
    (mkState (fs st) (listener st) (modelPath st) (downloadedBytes st) (totalBytes st)
       (requested st) (active st) (responded st) (streaming st) false (settled st)).

(** The ['error'] listener of the request. *)
Definition on_request_error (e : Error) (st : state S) : state S :=
  reject e
    (mkState (Fs.unlink_ignoring_error (fs st) (modelPath st))
       (listener st) (modelPath st) (downloadedBytes st) (totalBytes st)
       (requested st) (active st) (responded st) (streaming st) (piped st) (settled st)).

(** The ['error'] listener of the file; the pipe detaches itself from a
    destination that failed. *)
Definition on_file_error (e : Error) (st : state S) : state S :=
  reject e
    (mkState (Fs.unlink_ignoring_error (fs st) (modelPath st))
       (listener st) (modelPath st) (downloadedBytes st) (totalBytes st)
       (requested st) (active st) (responded st) (streaming st) false (settled st)).

(** Dispatch of one event to the listeners that exist at that point. *)
Definition handle (st : state S) (ev : event) : state S :=
  match ev with
  | Response statusCode contentLength =>
      if active st && negb (responded st) then on_response statusCode contentLength st
      else st
  | Data len => if streaming st then on_data len st else st
  | Finish => if streaming st then on_finish st else st
  | RequestError e => if active st then on_request_error e st else st
  | FileError e => if active st then on_file_error e st else st
  | Aborted => st
  end.

Definition run (st : state S) (events : list event) : state S :=
  fold_left handle events st.

End WithCallback.

(** A caller that records every progress value it is given. *)
Definition record_progress : option (Z -> list Z -> list Z) :=
  Some (fun progress log => (log ++ [progress])%list).

End Download.

(* ===================================================================== *)
(** ** The model-management routes *)
(* ===================================================================== *)

Module Server.

(** A value found in a parsed JSON body ([JUndefined] for a missing
    field).  Only truthiness and strict equality with a string matter to
    the routes, so numbers are kept as integers and all arrays and
    objects as [JObject]. *)
Inductive jsval :=
| JUndefined
| JNull
| JBool (b : bool)
| JNumber (z : Z)
| JString (s : string)
| JObject.

(** [!v] is [negb (truthy v)]. *)
Definition truthy (v : jsval) : bool :=
  match v with
  | JUndefined | JNull => false
  | JBool b => b
  | JNumber z => negb (z =? 0)%Z
  | JString s => negb (String.eqb s "")
  | JObject => true
  end.

(** [m.filename === filename] *)
Definition strict_eq_string (s : string) (v : jsval) : bool :=
  match v with
  | JString s' => String.eqb s s'
  | _ => false
  end.

(** [req.body] of [POST /models/download] *)
Record download_request := { modelUrl : jsval; filename : jsval }.

(** One [data: ...] record of the event stream, by its JSON payload. *)
Inductive sse :=
| SseProgress (progress : Z)          (** [{ progress }] *)
| SseComplete (modelPath : string)    (** [{ complete: true, modelPath }] *)
| SseError (error : string).          (** [{ error: error.message }] *)

(** [res] once [writeHead(200, text/event-stream)] has been called:
    what was sent to the client, and whether [res.end()] was called. *)
Record ServerResponse := { sent : list sse; ended : bool }.

(** [res.write(...)]: nothing goes out on a response that has ended. *)
Definition write (ev : sse) (res : ServerResponse) : ServerResponse :=
  if ended res then res
  else {| sent := (sent res ++ [ev])%list; ended := false |}.

(** [res.end()] *)
Definition end_ (res : ServerResponse) : ServerResponse :=
  {| sent := sent res; ended := true |}.

(** JSON bodies of the plain replies. *)
Inductive json :=
| ErrorBody (error : string)
| MessageBody (message : string)
| ModelsBody (recommended : list ModelInfo.t) (downloaded : list (string * string)).

Inductive reply :=
| Json (status : Z) (body : json)
| EventStream (res : ServerResponse).

(** [app.get('/models')] from its import on: [mm] is the singleton that
    the import has handed out. *)
Definition get_models (mm : ModelManager) (fs : Fs.t) : reply :=
  match
    (let models := getRecommendedModels mm in
     downloaded ← getDownloadedModels mm fs;
     entries ← mapM (fun filename =>
                       size ← getModelSize mm fs filename;
                       mret (filename, size)) downloaded;
     mret (Json 200 (ModelsBody models entries)))
  with
  | Returns r => r
  | Throws error => Json 500 (ErrorBody "Failed to get model info")
  end.

(** The progress callback handed to [downloadModel]. *)
Definition send_progress : option (Z -> ServerResponse -> ServerResponse) :=
  Some (fun progress res => write (SseProgress progress) res).

(** The [.then(...)] and [.catch(...)] reactions. *)
Definition on_fulfilled (modelPath : string) (res : ServerResponse) : ServerResponse :=
  end_ (write (SseComplete modelPath) res).

Definition on_rejected (error : Error) (res : ServerResponse) : ServerResponse :=
  end_ (write (SseError (message error)) res).

Definition with_listener (st : Download.state ServerResponse) (res : ServerResponse)
  : Download.state ServerResponse :=
  Download.mkState (Download.fs st) res (Download.modelPath st)
    (Download.downloadedBytes st) (Download.totalBytes st) (Download.requested st)
    (Download.active st) (Download.responded st) (Download.streaming st)
    (Download.piped st) (Download.settled st).

(** The reactions run as soon as the promise leaves [Pending], before the
    next event is dispatched. *)
Definition react (before : Download.promise) (st : Download.state ServerResponse)
  : Download.state ServerResponse :=
  match before, Download.settled st with
  | Download.Pending, Download.Resolved modelPath =>
      with_listener st (on_fulfilled modelPath (Download.listener st))
  | Download.Pending, Download.Rejected error =>
      with_listener st (on_rejected error (Download.listener st))
  | _, _ => st
  end.

Definition session_step (st : Download.state ServerResponse) (ev : Download.event)
  : Download.state ServerResponse :=
  react (Download.settled st) (Download.handle send_progress st ev).

(** The streaming phase: from [res.writeHead] on. *)
Definition session (mm : ModelManager) (model : ModelInfo.t) (fs : Fs.t)
    (events : list Download.event) : Download.state ServerResponse :=
  let res := {| sent := []; ended := false |} in
  fold_left session_step events
    (react Download.Pending (Download.downloadModel mm model fs res)).

(** What a request leaves behind: the reply, the file system, and the
    URLs that were fetched. *)
Record result := { response : reply; fs_after : Fs.t; fetched : list string }.

(** [app.post('/models/download')] on a server that has evaluated
    [modelManager.js] before, so that the import only hands out its
    singleton [mm]; [events] is what the environment delivers while the
    download runs. *)
Definition post_models_download (mm : ModelManager) (fs : Fs.t)
    (body : download_request) (events : list Download.event) : result :=
  if negb (truthy (modelUrl body)) || negb (truthy (filename body)) then
    {| response := Json 400 (ErrorBody "Model URL and filename are required");
       fs_after := fs; fetched := [] |}
  else
    match List.find (fun m => strict_eq_string (ModelInfo.filename m) (filename body))
                    (getRecommendedModels mm) with
    | None =>
        {| response := Json 404 (ErrorBody "Model not found in recommended list");
           fs_after := fs; fetched := [] |}
    | Some model =>
        let st := session mm model fs events in
        {| response := EventStream (Download.listener st);
           fs_after := Download.fs st;
           fetched := Download.requested st |}
    end.

(** [app.delete('/models/:filename')] from its import on. *)
Definition delete_model (mm : ModelManager) (fs : Fs.t) (filename : string)
  : Fs.t * reply :=
  match deleteModel mm fs filename with
  | (fs', Returns success) =>
      if success then (fs', Json 200 (MessageBody "Model deleted successfully"))
      else (fs', Json 404 (ErrorBody "Model not found"))
  | (fs', Throws error) => (fs', Json 500 (ErrorBody "Failed to delete model"))
  end.

(** The module [modelManager.js] as the server process has it.  Nothing
    that the server loads at start imports it, so it is evaluated by the
    first [import(...)] that a request reaches.  Evaluation runs
    [new ModelManager()]; what comes of it, the singleton or the exception,
    is what every later import yields. *)
Inductive module_state :=
| NotEvaluated
| Evaluated (modelManager : ModelManager)
| EvaluationFailed (error : Error).

(** [await import('../src/services/modelManager.js')], with
    [process.cwd()] as [cwd]. *)
Definition import_modelManager (cwd : string) (cache : module_state) (fs : Fs.t)
  : Fs.t * module_state * outcome ModelManager :=
  match cache with
  | Evaluated modelManager => (fs, cache, Returns modelManager)
  | EvaluationFailed error => (fs, cache, Throws error)
  | NotEvaluated =>
      match new_ModelManager cwd fs with
      | (fs', Returns modelManager) => (fs', Evaluated modelManager, Returns modelManager)
      | (fs', Throws error) => (fs', EvaluationFailed error, Throws error)
      end
  end.

(** What a request leaves behind on the server: its [result], and the
    module. *)
Record served := { outcome_of : result; module_after : module_state }.

(** [app.get('/models')], the whole handler. *)
Definition app_get_models (cwd : string) (cache : module_state) (fs : Fs.t) : served :=
  match import_modelManager cwd cache fs with
  | (fs', cache', Returns modelManager) =>
      {| outcome_of := {| response := get_models modelManager fs';
                          fs_after := fs'; fetched := [] |};
         module_after := cache' |}
  | (fs', cache', Throws error) =>
      {| outcome_of := {| response := Json 500 (ErrorBody "Failed to get model info");
                          fs_after := fs'; fetched := [] |};
         module_after := cache' |}
  end.

(** [app.post('/models/download')], the whole handler.  The import comes
    after the check of the body; when it fails no header has been sent
    yet, and the [catch] answers 500. *)
Definition app_post_models_download (cwd : string) (cache : module_state) (fs : Fs.t)
    (body : download_request) (events : list Download.event) : served :=
  if negb (truthy (modelUrl body)) || negb (truthy (filename body)) then
    {| outcome_of := {| response := Json 400 (ErrorBody "Model URL and filename are required");
                        fs_after := fs; fetched := [] |};
       module_after := cache |}
  else
    match import_modelManager cwd cache fs with
    | (fs', cache', Returns modelManager) =>
        match List.find (fun m => strict_eq_string (ModelInfo.filename m) (filename body))
                        (getRecommendedModels modelManager) with
        | None =>
            {| outcome_of := {| response := Json 404 (ErrorBody "Model not found in recommended list");
                                fs_after := fs'; fetched := [] |};
               module_after := cache' |}
        | Some model =>
            let st := session modelManager model fs' events in
            {| outcome_of := {| response := EventStream (Download.listener st);
                                fs_after := Download.fs st;
                                fetched := Download.requested st |};
               module_after := cache' |}
        end
    | (fs', cache', Throws error) =>
        {| outcome_of := {| response := Json 500 (ErrorBody "Failed to download model");
                            fs_after := fs'; fetched := [] |};
           module_after := cache' |}
    end.

(** [app.delete('/models/:filename')], the whole handler. *)
Definition app_delete_model (cwd : string) (cache : module_state) (fs : Fs.t)
    (filename : string) : served :=
  match import_modelManager cwd cache fs with
  | (fs', cache', Returns modelManager) =>
      {| outcome_of := {| response := snd (delete_model modelManager fs' filename);
                          fs_after := fst (delete_model modelManager fs' filename);
                          fetched := [] |};
         module_after := cache' |}
  | (fs', cache', Throws error) =>
      {| outcome_of := {| response := Json 500 (ErrorBody "Failed to delete model");
                          fs_after := fs'; fetched := [] |};
         module_after := cache' |}
  end.

End Server.

(* ===================================================================== *)
(** ** Vocabulary of the statements, and concrete scenarios *)
(* ===================================================================== *)

(** [p] names something strictly below the directory [dir]. *)
Definition within (dir p : string) : bool := String.prefix (dir ++ "/") p.

(** The partial sums of the chunk lengths: the value of [downloadedBytes]
    after each chunk, starting from [from]. *)
Fixpoint received (from : Z) (chunks : list Z) : list Z :=
  match chunks with
  | [] => []
  | n :: rest => (from + n) :: received (from + n) rest
  end.

(** Non-decreasing sequences. *)
Fixpoint nondecreasing (l : list Z) : Prop :=
  match l with
  | [] => True
  | x :: rest => match rest with [] => True | y :: _ => x <= y end /\ nondecreasing rest
  end.

(** The events of a download whose body arrives in [chunks] and is written
    out completely. *)
Definition complete_transfer (contentLength : option string) (chunks : list Z)
  : list Download.event :=
  (Download.Response 200 contentLength :: map Download.Data chunks ++ [Download.Finish])%list.

(** The file at the target path of a download, if any, is one of the
    download's own: a plain file that the system lets go. *)
Definition own_file {S : Type} (st : Download.state S) : Prop :=
  Download.fs st !! Download.modelPath st = None
  \/ exists sz, Download.fs st !! Download.modelPath st = Some (Fs.File sz false).

(** The shape of an event stream: progress records, then at most one
    closing record, which is there exactly when the promise has settled and
    is the last thing sent before the response ends. *)
Definition stream_shape (st : Download.state Server.ServerResponse) : Prop :=
  exists ps : list Z,
    match Download.settled st with
    | Download.Pending =>
        Server.sent (Download.listener st) = map Server.SseProgress ps
        /\ Server.ended (Download.listener st) = false
    | Download.Resolved p =>
        Server.sent (Download.listener st)
        = (map Server.SseProgress ps ++ [Server.SseComplete p])%list
        /\ Server.ended (Download.listener st) = true
        /\ p = Download.modelPath st
    | Download.Rejected e =>
        Server.sent (Download.listener st)
        = (map Server.SseProgress ps ++ [Server.SseError (message e)])%list
        /\ Server.ended (Download.listener st) = true
    end.

(** The chunk lengths delivered by a sequence of events, in order. *)
Definition data_lengths (events : list Download.event) : list Z :=
  omap (fun ev => match ev with Download.Data n => Some n | _ => None end) events.

(** The length of a body received in [chunks]. *)
Definition total_length (chunks : list Z) : Z := fold_right Z.add 0 chunks.

Definition is_progress (ev : Server.sse) : bool :=
  match ev with Server.SseProgress _ => true | _ => false end.

Definition is_terminal (ev : Server.sse) : bool := negb (is_progress ev).

Module Scenario.

(** The service started in [/app]. *)
Definition modelManager : ModelManager := {| modelsDir := "/app/models" |}.

(** An empty artifact directory. *)
Definition empty_store : Fs.t :=
  <["/app/models" := Fs.Dir 4096 true]> (<["/app" := Fs.Dir 4096 true]> ∅).

(** A 10-byte artifact and a stray text file in the directory. *)
Definition store_with_m : Fs.t :=
  <["/app/models/m.gguf" := Fs.File 10 false]>
    (<["/app/models/notes.txt" := Fs.File 3 false]> empty_store).


(** The artifact directory cannot be listed. *)
Definition unreadable_store : Fs.t :=
  <["/app/models/m.gguf" := Fs.File 10 false]>
    (<["/app/models" := Fs.Dir 4096 false]> (<["/app" := Fs.Dir 4096 true]> ∅)).

(** A file next to the artifact directory, not inside it. *)
Definition store_with_outside_file : Fs.t :=
  <["/app/x" := Fs.File 5 false]> empty_store.

(** A regular file has taken the place of the working directory [/app], so
    that no directory can be made below it. *)
Definition store_without_room : Fs.t := <["/app" := Fs.File 0 false]> ∅.

(** The first entry of the catalog. *)
Definition llama_1b : ModelInfo.t :=
  ModelInfo.mk
    "Llama 3.2 1B Instruct"
    "llama-3.2-1b-instruct-q4_0.gguf"
    "https://huggingface.co/bartowski/Llama-3.2-1B-Instruct-GGUF/resolve/main/Llama-3.2-1B-Instruct-Q4_K_M.gguf"
    "~670MB"
    "Small, fast model good for basic conversations".

Definition llama_1b_path : string := "/app/models/llama-3.2-1b-instruct-q4_0.gguf".

(** The artifact of the first catalog entry, fully downloaded. *)
Definition store_with_llama : Fs.t :=
  <[llama_1b_path := Fs.File 10 false]> empty_store.

End Scenario.

(* ===================================================================== *)
(** ** Further vocabulary *)
(* ===================================================================== *)

(** Two calls of [downloadModel] are in the same state as far as the
    download itself goes: they differ at most in what their callers have
    been told. *)
Definition same_download {S1 S2 : Type}
    (st1 : Download.state S1) (st2 : Download.state S2) : Prop :=
  Download.fs st1 = Download.fs st2
  /\ Download.modelPath st1 = Download.modelPath st2
  /\ Download.downloadedBytes st1 = Download.downloadedBytes st2
  /\ Download.totalBytes st1 = Download.totalBytes st2
  /\ Download.requested st1 = Download.requested st2
  /\ Download.active st1 = Download.active st2
  /\ Download.responded st1 = Download.responded st2
  /\ Download.streaming st1 = Download.streaming st2
  /\ Download.piped st1 = Download.piped st2
  /\ Download.settled st1 = Download.settled st2.

(** [s] has no occurrence of the character [c]. *)
Fixpoint free_of (c : ascii) (s : string) : bool :=
  match s with
  | EmptyString => true
  | String a s' => negb (Ascii.eqb a c) && free_of c s'
  end.

(** A path component as [normalize] keeps them: not empty, no separator. *)
Definition is_component (s : string) : Prop :=
  s <> "" /\ free_of Path.slash s = true.

(** A plain file name: one path component that is neither ["."] nor
    [".."]. *)
Definition is_plain_name (s : string) : Prop :=
  is_component s /\ s <> "." /\ s <> "..".

(* ===================================================================== *)
(** ** String operations of JavaScript *)
(* ===================================================================== *)

(** Strings are sequences of characters with codes below 256; the white
    space of [trim] in that range is TAB, LF, VT, FF, CR, SP and NBSP. *)
Module Js.

Definition nl : string := String (ascii_of_nat 10) EmptyString.
Definition dq : string := String (ascii_of_nat 34) EmptyString.

Definition is_whitespace (a : ascii) : bool :=
  let n := nat_of_ascii a in
  ((n =? 32) || ((9 <=? n) && (n <=? 13)) || (n =? 160))%nat.

Fixpoint trimStart (s : string) : string :=
  match s with
  | String a s' => if is_whitespace a then trimStart s' else s
  | EmptyString => EmptyString
  end.

Fixpoint trimEnd (s : string) : string :=
  match s with
  | String a s' =>
      match trimEnd s' with
      | EmptyString => if is_whitespace a then EmptyString else String a EmptyString
      | t => String a t
      end
  | EmptyString => EmptyString
  end.

(** [s.trim()] *)
Definition trim (s : string) : string := trimEnd (trimStart s).

(** [s.indexOf(marker)], [None] for [-1]: the first position at which
    [marker] starts. *)
Fixpoint indexOf (s marker : string) : option nat :=
  if String.prefix marker s then Some O
  else match s with
       | String _ s' => S <$> indexOf s' marker
       | EmptyString => None
       end.

(** [a || b] on strings: the empty string is falsy. *)
Definition or_else (a b : string) : string :=
  if String.eqb a "" then b else a.

End Js.

(** [marker] occurs somewhere in [s]. *)
Definition occurs (marker s : string) : Prop :=
  exists before after, s = before ++ marker ++ after.

(* ===================================================================== *)
(** ** The local inference service *)
(* ===================================================================== *)

Module LlamaService.

Definition SYSTEM_INSTRUCTION : string :=
  "You are the official AI assistant of Ranbidge Solutions Private Limited. " ++ Js.nl ++
  "Your responsibilities:" ++ Js.nl ++
  "- Answer customer queries about Ranbidge Solutions' services, pricing, products, and support." ++ Js.nl ++
  "- Maintain a professional and helpful tone." ++ Js.nl ++
  "- Keep answers short and clear (maximum 5 sentences)." ++ Js.nl ++
  "- Encourage users to contact support for complex issues." ++ Js.nl ++
  "- Never provide false information." ++ Js.nl ++
  "- If unsure, say: " ++ Js.dq ++ "Let me connect you with our support team." ++ Js.dq ++ Js.nl ++
  "- If the user says " ++ Js.dq ++ "Ranbuu" ++ Js.dq ++ ", acknowledge it as your wake command and greet them warmly as the Ranbidge Solutions assistant." ++ Js.nl ++
  "- When suggesting support, you can mention that they can chat on WhatsApp or make a call directly." ++ Js.nl ++
  Js.nl ++
  "CRITICAL: Always respond in plain text suitable for voice output. " ++ Js.nl ++
  "Do not use emojis, markdown formatting (no bold, no italics, no lists), or special characters. " ++ Js.nl ++
  "The output should be a single block of clean text.".

(** An element of [history]: [{ role, parts: [{ text }, ...] }]. *)
Record part := { text : string }.
Record turn := { role : string; parts : list part }.

(** The fields of the service object; [llama] says whether [this.llama]
    holds an engine, [config_modelPath] is [this.config.modelPath]. *)
Record t := {
  llama : bool;
  modelLoaded : bool;
  modelPath : string;
  config_modelPath : string
}.

(** [initializeLlama()] up to its [await]: the engine is created, and a
    load of the model is started when the model file exists.  The second
    component says whether a load is now pending.  [engine] is the outcome
    of [new LLM(LLamaCpp)]. *)
Definition initializeLlama_start (this : t) (fs : Fs.t) (engine : outcome unit)
  : t * bool :=
  match engine with
  | Throws error =>
      ({| llama := llama this; modelLoaded := false;
          modelPath := modelPath this; config_modelPath := config_modelPath this |},
       false)
  | Returns _ =>
      let this := {| llama := true; modelLoaded := modelLoaded this;
                     modelPath := modelPath this;
                     config_modelPath := config_modelPath this |} in
      if negb (Fs.existsSync fs (modelPath this)) then (this, false)
      else (this, true)
  end.

(** [initializeLlama()] after its [await]: [loaded] is the outcome of
    [this.llama.load(this.config)]. *)
Definition initializeLlama_finish (this : t) (loaded : outcome unit) : t :=
  {| llama := llama this;
     modelLoaded := match loaded with Returns _ => true | Throws _ => false end;
     modelPath := modelPath this; config_modelPath := config_modelPath this |}.

(** [path.resolve(process.cwd(), "models", "llama-model.gguf")]: the
    relative arguments are resolved one after the other. *)
Definition default_modelPath (cwd : string) : string :=
  Path.resolve (Path.resolve cwd "models") "llama-model.gguf".

(** [constructor()] *)
Definition new_LlamaService (cwd : string) (fs : Fs.t) (engine : outcome unit)
  : t * bool :=
  initializeLlama_start
    {| llama := false; modelLoaded := false;
       modelPath := default_modelPath cwd;
       config_modelPath := default_modelPath cwd |}
    fs engine.

Definition isModelLoaded (this : t) : bool := modelLoaded this.

Definition getModelPath (this : t) : string := modelPath this.

(** [setModelPath(modelPath)] *)
Definition setModelPath (this : t) (path : string) (fs : Fs.t) (engine : outcome unit)
  : t * bool :=
  initializeLlama_start
    {| llama := llama this; modelLoaded := false;
       modelPath := path; config_modelPath := path |}
    fs engine.

(** The body of [history.forEach]: reading [item.parts[0].text] throws a
    [TypeError] when [parts] is empty. *)
Definition add_turn (conversation : outcome string) (item : turn) : outcome string :=
  conversation ← conversation;
  if String.eqb (role item) "user" then
    match parts item with
    | p :: _ => Returns (conversation ++ "USER: " ++ text p ++ Js.nl)
    | [] => Throws (mkError "Cannot read properties of undefined (reading 'text')")
    end
  else if String.eqb (role item) "assistant" then
    match parts item with
    | p :: _ => Returns (conversation ++ "ASSISTANT: " ++ text p ++ Js.nl)
    | [] => Throws (mkError "Cannot read properties of undefined (reading 'text')")
    end
  else Returns conversation.

(** The prompt handed to the engine. *)
Definition build_conversation (message : string) (history : list turn) (language : string)
  : outcome string :=
  conversation ← fold_left add_turn history
                   (Returns (SYSTEM_INSTRUCTION ++ Js.nl ++ Js.nl
                             ++ "CRITICAL: You MUST respond in " ++ language ++ "."
                             ++ Js.nl ++ Js.nl));
  mret (conversation ++ "USER: " ++ message ++ Js.nl ++ "ASSISTANT:").

(** The argument of [createCompletion]. *)
Record completion_request := {
  nThreads : Z;
  nTokPredict : Z;
  topK : Z;
  topP : Q;
  temp : Q;
  repeatPenalty : Q;
  prompt : string
}.

(** What the engine does with a request: the chunks it hands to the
    callback ([None] for a chunk without token), and whether the promise of
    [createCompletion] is fulfilled or rejected. *)
Record generation := { chunks : list (option string); finished : outcome unit }.

(** The chunk callback: [if (chunk.token) response += chunk.token]. *)
Definition on_chunk (response : string) (token : option string) : string :=
  match token with
  | Some tok => if String.eqb tok "" then response else response ++ tok
  | None => response
  end.

Definition stopMarkers : list string := ["USER:"; "ASSISTANT:"; Js.nl ++ Js.nl].

(** One round of the loop over the stop markers. *)
Definition stop_at (response marker : string) : string :=
  match Js.indexOf response marker with
  | Some index => Js.trim (Str.take index response)
  | None => response
  end.

(** The [.then] reaction: trim, cut at the stop markers, and fall back to an
    apology when nothing is left. *)
Definition clean_response (response : string) : string :=
  Js.or_else (fold_left stop_at stopMarkers (Js.trim response))
    "I apologize, but I couldn't generate a response. Let me connect you with our support team.".

(** [chatWithAssistant(message, history, language)]; [Returns] is a
    fulfilled promise, [Throws] a rejected one. *)
Definition chatWithAssistant (this : t) (message : string) (history : list turn)
    (language : string) (engine : completion_request -> generation) : outcome string :=
  if negb (modelLoaded this) || negb (llama this) then
    Returns "I am currently initializing. Please wait a moment or ensure you have downloaded the required model file."
  else
    match build_conversation message history language with
    | Throws error =>
        Returns "I am experiencing technical difficulties. Let me connect you with our support team."
    | Returns conversation =>
        let g := engine {| nThreads := 4; nTokPredict := 512; topK := 40;
                           topP := 9 # 10; temp := 7 # 10; repeatPenalty := 11 # 10;
                           prompt := conversation |} in
        match finished g with
        | Returns _ => Returns (clean_response (fold_left on_chunk (chunks g) ""))
        | Throws error => Throws error
        end
    end.

End LlamaService.

(** A reply as the cleaning step means to leave it: not empty, without
    white space at either end, and without any of the stop markers. *)
Definition clean_reply (r : string) : Prop :=
  r <> ""
  /\ Js.trim r = r
  /\ Forall (fun marker => ~ occurs marker r) LlamaService.stopMarkers.

(* ===================================================================== *)
(** ** The chat and health routes *)
(* ===================================================================== *)

Module ChatServer.

(** [req.body] of [POST /chat]: [message] is a string or absent, and the
    two other fields have defaults. *)
Record chat_request := {
  message : option string;
  history : option (list LlamaService.turn);
  language : option string
}.

Inductive reply :=
| Ok (response : string)                        (** 200 [{ response }] *)
| BadRequest (error : string)                   (** 400 [{ error }] *)
| ServerError (error : string) (details : string). (** 500 [{ error, details }] *)

(** [app.post('/chat')] *)
Definition post_chat (service : LlamaService.t) (body : chat_request)
    (engine : LlamaService.completion_request -> LlamaService.generation) : reply :=
  match message body with
  | None => BadRequest "Message is required"
  | Some text =>
      if String.eqb text "" then BadRequest "Message is required"
      else
        match LlamaService.chatWithAssistant service text
                (default [] (history body)) (default "English" (language body)) engine with
        | Returns response => Ok response
        | Throws (mkError details) =>
            ServerError "Failed to process chat request" details
        end
  end.

(** [app.get('/health')] *)
Record health := { status : string; modelLoaded : bool; modelPath : string }.

Definition get_health (service : LlamaService.t) : health :=
  {| status := "ok";
     modelLoaded := LlamaService.isModelLoaded service;
     modelPath := LlamaService.getModelPath service |}.

End ChatServer.

(* ===================================================================== *)
(** ** The chat window *)
(* ===================================================================== *)

Module App.

Inductive role := user | assistant.

Record Message := { id : string; msg_role : role; text : string }.

(** The history that [handleSubmit] prepares for the API. *)
Definition history_of (messages : list Message) : list LlamaService.turn :=
  map (fun msg =>
         {| LlamaService.role := match msg_role msg with
                                 | user => "user"
                                 | assistant => "model"
                                 end;
            LlamaService.parts := [ {| LlamaService.text := text msg |} ] |})
      messages.

End App.

(* ===================================================================== *)
(** ** The hosted model *)
(* ===================================================================== *)

Module Gemini.

(** The argument of [ai.models.generateContent]. *)
Record request := {
  model : string;
  contents : list LlamaService.turn;
  systemInstruction : string;
  temperature : Q;
  topP : Q
}.

(** The outcome of one call: a response with its [text] ([None] when
    undefined), or an exception. *)
Inductive answer :=
| Generated (text : option string)
| Failed (error : Error).

Definition maxRetries : nat := 2.

(** What a call of [chatWithAssistant] amounts to: the promise it
    returns, the number of calls of the API, and the pauses in
    milliseconds, in order. *)
Record run := { reply : outcome string; calls : nat; pauses : list Z }.

(** The loop [for (attempt = 0; attempt <= maxRetries; attempt++)] with
    [remaining] iterations to go; [api attempt] is the outcome of the call
    made in iteration [attempt]. *)
Fixpoint attempts (api : nat -> answer) (attempt remaining : nat) (pauses : list Z) : run :=
  match remaining with
  | O =>
      {| reply := Returns "I am experiencing technical difficulties. Let me connect you with our support team.";
         calls := attempt; pauses := pauses |}
  | S remaining' =>
      match api attempt with
      | Generated text =>
          {| reply := Returns (Js.or_else (default "" text)
                                 "I apologize, but I am unable to process your request at this time. Let me connect you with our support team.");
             calls := S attempt; pauses := pauses |}
      | Failed error =>
          attempts api (S attempt) remaining'
            (if (attempt <? maxRetries)%nat
             then (pauses ++ [2 ^ Z.of_nat attempt * 1000])%list
             else pauses)
      end
  end.

Definition build_request (message : string) (history : list LlamaService.turn)
    (language : string) : request :=
  {| model := "gemini-3-flash-preview";
     contents := (history ++ [ {| LlamaService.role := "user";
                                  LlamaService.parts := [ {| LlamaService.text := message |} ] |} ])%list;
     systemInstruction := LlamaService.SYSTEM_INSTRUCTION ++ Js.nl
                          ++ "CRITICAL: You MUST respond in " ++ language ++ ".";
     temperature := 7 # 10;
     topP := 95 # 100 |}.

(** [chatWithAssistant(message, history, language)]; [client] is the
    outcome of [new GoogleGenAI(...)], and [api request attempt] the outcome
    of the call in iteration [attempt]. *)
Definition chatWithAssistant (message : string) (history : list LlamaService.turn)
    (language : string) (client : outcome unit) (api : request -> nat -> answer) : run :=
  match client with
  | Throws error => {| reply := Throws error; calls := 0; pauses := [] |}
  | Returns _ => attempts (api (build_request message history language)) 0 (S maxRetries) []
  end.

End Gemini.

(** The lines that the user's own messages contribute to a prompt. *)
Definition user_lines (messages : list App.Message) : string :=
  fold_right (fun msg rest =>
                match App.msg_role msg with
                | App.user => "USER: " ++ App.text msg ++ Js.nl ++ rest
                | App.assistant => rest
                end) "" messages.

(* ===================================================================== *)
(** * Properties *)
(* ===================================================================== *)

(** ** Paths and labels on examples *)
Example normalize_traversal : Path.join "/app/models" "../x" = "/app/x".
Proof. reflexivity. Qed.

Example normalize_examples :
  Path.normalize "/foo/bar//baz/asdf/quux/.." = "/foo/bar/baz/asdf"
  /\ Path.join "/foo" "bar/../../../x/" = "/x/"
  /\ Path.normalize "a/../../b" = "../b"
  /\ Path.join "/app/models" "" = "/app/models"
  /\ Path.resolve "/app" "models" = "/app/models".
Proof. repeat split; reflexivity. Qed.

Example parse_name_examples :
  Path.parse_name "m.gguf" = "m"
  /\ Path.parse_name "llama-3.2-1b-instruct-q4_0.gguf" = "llama-3.2-1b-instruct-q4_0"
  /\ Path.parse_name ".gguf" = ".gguf"
  /\ Path.parse_name "a.b.gguf" = "a.b"
  /\ Path.parse_name ".." = ".."
  /\ Path.parse_name "..gguf" = "."
  /\ Path.parse_name "/home/user/dir/file.txt" = "file".
Proof. repeat split; reflexivity. Qed.

Example mb_toFixed1_examples :
  mb_toFixed1 10 = "0.0" /\ mb_toFixed1 702545920 = "670.0"
  /\ mb_toFixed1 52429 = "0.1" /\ mb_toFixed1 52428 = "0.0".
Proof. repeat split; vm_compute; reflexivity. Qed.

(** The percentage agrees with the binary64 specification, also where
    exact arithmetic would round the other way ([29 / 200 * 100] is
    [14.499999999999998] in binary64). *)
Example percent_examples :
  percent 29 200 = 14 /\ Float64.Binary64.percent 29 200 = 14
  /\ percent 1 200 = 1 /\ Float64.Binary64.percent 1 200 = 1
  /\ percent 500 1000 = 50 /\ percent 1 3 = 33 /\ percent 2 3 = 67.
Proof. repeat split; vm_compute; reflexivity. Qed.

Example percent_matches_binary64 :
  forallb (fun t => forallb (fun d => percent d t =? Float64.Binary64.percent d t)%Z
                            (map Z.of_nat (seq 0 (Z.to_nat t + 1))))
          [1; 3; 7; 200; 345; 1000] = true.
Proof. vm_compute. reflexivity. Qed.

Example parseInt10_examples :
  ParseInt.parseInt10 "1000" = Some 1000 /\ ParseInt.parseInt10 "  42abc" = Some 42
  /\ ParseInt.parseInt10 "-7" = Some (-7) /\ ParseInt.parseInt10 "abc" = None
  /\ ParseInt.parseInt10 "0" = Some 0.
Proof. repeat split; reflexivity. Qed.

Example llama_1b_in_catalog :
  nth_error RECOMMENDED_MODELS 0 = Some Scenario.llama_1b
  /\ getModelPath Scenario.modelManager (ModelInfo.filename Scenario.llama_1b)
     = Scenario.llama_1b_path.
Proof. split; reflexivity. Qed.

Example constructor_creates_directory :
  new_ModelManager "/app" (<["/app" := Fs.Dir 4096 true]> ∅)
  = (Scenario.empty_store, Returns Scenario.modelManager).
Proof. vm_compute. reflexivity. Qed.

(* ===================================================================== *)
(** ** Rounding to the nearest number *)
(* ===================================================================== *)

Section Float64Facts.
Import Float64.
Local Open Scope Q_scope.

Lemma pow2_pos (e : Z) : 0 < pow2 e.
Proof. apply Qpower_0_lt. reflexivity. Qed.

Lemma pow2_add (a b : Z) : pow2 (a + b) == pow2 a * pow2 b.
Proof. apply Qpower_plus. discriminate. Qed.

Lemma pow2_le (a b : Z) : (a <= b)%Z -> pow2 a <= pow2 b.
Proof. intros H. apply Qpower_le_compat_l; [exact H|discriminate]. Qed.

Lemma pow2_lt (a b : Z) : (a < b)%Z -> pow2 a < pow2 b.
Proof. intros H. apply Qpower_lt_compat_l; [exact H|reflexivity]. Qed.

Lemma pow2_lt_inv (a b : Z) : pow2 a < pow2 b -> (a < b)%Z.
Proof. intros H. apply (Qpower_lt_compat_l_inv 2); [exact H|reflexivity]. Qed.

Lemma pow2_nonneg_Z (a : Z) : (0 <= a)%Z -> pow2 a == inject_Z (2 ^ a).
Proof. intros H. unfold pow2. now rewrite Zpower_Qpower. Qed.

Lemma pow2_succ (a : Z) : pow2 (a + 1) == 2 * pow2 a.
Proof. rewrite pow2_add. change (pow2 1) with 2. ring. Qed.


Lemma binade_spec (q : Q) :
  0 < q -> pow2 (binade q) <= q /\ q < pow2 (binade q + 1).
Proof.
  intros Hq. destruct q as [n m].
  assert (Hn : (0 < n)%Z) by (unfold Qlt in Hq; simpl in Hq; lia).
  unfold binade. cbn [Qnum Qden].
  set (a := Z.log2 n). set (b := Z.log2 (Z.pos m)). set (c := (a - b)%Z).
  pose proof (Z.log2_spec n Hn) as [Ha1 Ha2]. fold a in Ha1, Ha2.
  pose proof (Z.log2_spec (Z.pos m) eq_refl) as [Hb1 Hb2]. fold b in Hb1, Hb2.
  assert (Ha0 : (0 <= a)%Z) by apply Z.log2_nonneg.
  assert (Hb0 : (0 <= b)%Z) by apply Z.log2_nonneg.
  assert (HA1 : pow2 a <= inject_Z n).
  { rewrite pow2_nonneg_Z by exact Ha0. now rewrite <- Zle_Qle. }
  assert (HA2 : inject_Z n < 2 * pow2 a).
  { rewrite <- pow2_succ, pow2_nonneg_Z by lia. now rewrite <- Zlt_Qlt. }
  assert (HB1 : pow2 b <= inject_Z (Z.pos m)).
  { rewrite pow2_nonneg_Z by exact Hb0. now rewrite <- Zle_Qle. }
  assert (HB2 : inject_Z (Z.pos m) < 2 * pow2 b).
  { rewrite <- pow2_succ, pow2_nonneg_Z by lia. now rewrite <- Zlt_Qlt. }
  assert (Hc : pow2 c * pow2 b == pow2 a).
  { rewrite <- pow2_add. unfold c. now replace (a - b + b)%Z with a by ring. }
  assert (HqM : (n # m) * inject_Z (Z.pos m) == inject_Z n).
  { rewrite Qmake_Qdiv. field. discriminate. }
  pose proof (pow2_pos a) as Pa. pose proof (pow2_pos b) as Pb.
  pose proof (pow2_pos c) as Pc.
  assert (HM : 0 < inject_Z (Z.pos m)) by reflexivity.
  generalize dependent (inject_Z (Z.pos m)). generalize dependent (inject_Z n).
  intros N HA1 HA2 M HB1 HB2 HqM HM.
  destruct (Qle_bool (pow2 c) (n # m)) eqn:Hle.
  - apply Qle_bool_iff in Hle. split; [exact Hle|].
    rewrite pow2_succ. nra.
  - assert (Hlt : n # m < pow2 c).
    { apply Qnot_le_lt. intros H. apply Qle_bool_iff in H. congruence. }
    replace (c - 1 + 1)%Z with c by ring. split; [|exact Hlt].
    assert (Hh : pow2 c == 2 * pow2 (c - 1)).
    { rewrite <- pow2_succ. now replace (c - 1 + 1)%Z with c by ring. }
    pose proof (pow2_pos (c - 1)) as Pc1. nra.
Qed.

Lemma binade_unique (q : Q) (e : Z) :
  pow2 e <= q -> q < pow2 (e + 1) -> binade q = e.
Proof.
  intros H1 H2.
  assert (Hq : 0 < q) by (eapply Qlt_le_trans; [apply pow2_pos|exact H1]).
  destruct (binade_spec q Hq) as [G1 G2].
  assert (binade q < e + 1)%Z.
  { apply pow2_lt_inv. eapply Qle_lt_trans; eassumption. }
  assert (e < binade q + 1)%Z.
  { apply pow2_lt_inv. eapply Qle_lt_trans; eassumption. }
  lia.
Qed.

Lemma binade_mono (x y : Q) : 0 < x -> x <= y -> (binade x <= binade y)%Z.
Proof.
  intros Hx Hxy.
  assert (Hy : 0 < y) by (eapply Qlt_le_trans; eassumption).
  destruct (binade_spec x Hx) as [X1 X2]. destruct (binade_spec y Hy) as [Y1 Y2].
  assert (binade x < binade y + 1)%Z; [|lia].
  apply pow2_lt_inv. eapply Qle_lt_trans; [exact X1|].
  eapply Qle_lt_trans; eassumption.
Qed.

Lemma binade_comp (x y : Q) : 0 < x -> x == y -> binade x = binade y.
Proof.
  intros Hx Hxy. symmetry. destruct (binade_spec x Hx) as [X1 X2].
  apply binade_unique; lra.
Qed.

(** Rounding to the nearest integer. *)
Lemma round_half_even_comp (x y : Q) : x == y -> round_half_even x = round_half_even y.
Proof.
  intros H. unfold round_half_even.
  assert (Hf : Qfloor x = Qfloor y) by now apply Qfloor_comp.
  rewrite <- Hf.
  assert (Hc : Qcompare (x - inject_Z (Qfloor x)) (1 # 2)
               = Qcompare (y - inject_Z (Qfloor x)) (1 # 2)).
  { apply Qcompare_comp; [|reflexivity]. generalize (inject_Z (Qfloor x)). intros k. lra. }
  now rewrite Hc.
Qed.

Lemma round_half_even_Z (z : Z) : round_half_even (inject_Z z) = z.
Proof.
  unfold round_half_even. rewrite Qfloor_Z.
  destruct (Qcompare_spec (inject_Z z - inject_Z z) (1 # 2)) as [H|H|H]; [|reflexivity|].
  - exfalso. lra.
  - exfalso. lra.
Qed.

Lemma round_half_even_bounds (x : Q) :
  (Qfloor x <= round_half_even x <= Qfloor x + 1)%Z.
Proof.
  unfold round_half_even.
  destruct (Qcompare (x - inject_Z (Qfloor x)) (1 # 2)); [destruct (Z.even _)| |]; lia.
Qed.

Lemma round_half_even_mono (x y : Q) :
  x <= y -> (round_half_even x <= round_half_even y)%Z.
Proof.
  intros Hxy. pose proof (Qfloor_resp_le x y Hxy) as Hf.
  pose proof (round_half_even_bounds x) as Bx.
  pose proof (round_half_even_bounds y) as By.
  destruct (Z.eq_dec (Qfloor x) (Qfloor y)) as [Heq|Hne]; [|lia].
  unfold round_half_even in *. rewrite <- Heq in *.
  destruct (Qcompare_spec (x - inject_Z (Qfloor x)) (1 # 2)) as [Hx|Hx|Hx];
    destruct (Qcompare_spec (y - inject_Z (Qfloor x)) (1 # 2)) as [Hy|Hy|Hy];
    try destruct (Z.even (Qfloor x)); try lia; exfalso; lra.
Qed.

(** The scaled significand of a positive number lies in [[2^52, 2^53)]. *)
Lemma significand_range (q : Q) :
  0 < q ->
  inject_Z (2 ^ 52) <= q / pow2 (binade q - 52)
  /\ q / pow2 (binade q - 52) < inject_Z (2 ^ 53).
Proof.
  intros Hq. destruct (binade_spec q Hq) as [H1 H2].
  pose proof (pow2_pos (binade q - 52)) as Pu.
  assert (He : pow2 (binade q) == inject_Z (2 ^ 52) * pow2 (binade q - 52)).
  { rewrite <- (pow2_nonneg_Z 52) by lia. rewrite <- pow2_add.
    now replace (52 + (binade q - 52))%Z with (binade q) by ring. }
  assert (He1 : pow2 (binade q + 1) == inject_Z (2 ^ 53) * pow2 (binade q - 52)).
  { rewrite <- (pow2_nonneg_Z 53) by lia. rewrite <- pow2_add.
    now replace (53 + (binade q - 52))%Z with (binade q + 1)%Z by ring. }
  split.
  - apply Qle_shift_div_l; [exact Pu|]. lra.
  - apply Qlt_shift_div_r; [exact Pu|]. lra.
Qed.

Lemma round_pos_bounds (q : Q) :
  0 < q -> pow2 (binade q) <= round_pos q /\ round_pos q <= pow2 (binade q + 1).
Proof.
  intros Hq. destruct (significand_range q Hq) as [H1 H2].
  pose proof (pow2_pos (binade q - 52)) as Pu.
  assert (He : pow2 (binade q) == inject_Z (2 ^ 52) * pow2 (binade q - 52)).
  { rewrite <- (pow2_nonneg_Z 52) by lia. rewrite <- pow2_add.
    now replace (52 + (binade q - 52))%Z with (binade q) by ring. }
  assert (He1 : pow2 (binade q + 1) == inject_Z (2 ^ 53) * pow2 (binade q - 52)).
  { rewrite <- (pow2_nonneg_Z 53) by lia. rewrite <- pow2_add.
    now replace (53 + (binade q - 52))%Z with (binade q + 1)%Z by ring. }
  pose proof (round_half_even_mono _ _ H1) as L.
  pose proof (round_half_even_mono _ _ (Qlt_le_weak _ _ H2)) as U.
  rewrite round_half_even_Z in L, U.
  rewrite Zle_Qle in L, U.
  unfold round_pos.
  generalize dependent (inject_Z (round_half_even (q / pow2 (binade q - 52)))).
  intros r L U. split; nra.
Qed.

Lemma round_pos_mono (x y : Q) : 0 < x -> x <= y -> round_pos x <= round_pos y.
Proof.
  intros Hx Hxy.
  assert (Hy : 0 < y) by (eapply Qlt_le_trans; eassumption).
  pose proof (binade_mono x y Hx Hxy) as He.
  destruct (Z.eq_dec (binade x) (binade y)) as [Heq|Hne].
  - unfold round_pos. rewrite <- Heq.
    pose proof (pow2_pos (binade x - 52)) as Pu.
    assert (Hdiv : x / pow2 (binade x - 52) <= y / pow2 (binade x - 52)).
    { apply Qmult_le_compat_r; [exact Hxy|]. apply Qlt_le_weak, Qinv_lt_0_compat, Pu. }
    apply round_half_even_mono in Hdiv. rewrite Zle_Qle in Hdiv.
    apply Qmult_le_compat_r; [exact Hdiv|]. now apply Qlt_le_weak.
  - destruct (round_pos_bounds x Hx) as [_ Ux].
    destruct (round_pos_bounds y Hy) as [Ly _].
    eapply Qle_trans; [exact Ux|]. eapply Qle_trans; [|exact Ly].
    apply pow2_le. lia.
Qed.

Lemma round_pos_comp (x y : Q) : 0 < x -> x == y -> round_pos x == round_pos y.
Proof.
  intros Hx Hxy. unfold round_pos. rewrite <- (binade_comp x y Hx Hxy).
  rewrite (round_half_even_comp (y / pow2 (binade x - 52)) (x / pow2 (binade x - 52))).
  - reflexivity.
  - unfold Qdiv. apply Qmult_comp; [symmetry; exact Hxy|reflexivity].
Qed.

(** Integers below [2^53] are representable. *)
Lemma round_pos_Z (q : Q) (z : Z) :
  q == inject_Z z -> (0 < z < 2 ^ 53)%Z -> round_pos q == inject_Z z.
Proof.
  intros Hqz [Hz0 Hz1].
  assert (Hq1 : 1 <= q) by (rewrite Hqz; change 1 with (inject_Z 1); rewrite <- Zle_Qle; lia).
  assert (Hq : 0 < q) by lra.
  destruct (binade_spec q Hq) as [H1 H2].
  assert (He0 : (0 <= binade q)%Z).
  { assert (0 < binade q + 1)%Z; [|lia]. apply pow2_lt_inv.
    change (pow2 0) with 1. lra. }
  assert (He1 : (binade q < 53)%Z).
  { apply pow2_lt_inv. eapply Qle_lt_trans; [exact H1|].
    rewrite Hqz, (pow2_nonneg_Z 53) by lia. now rewrite <- Zlt_Qlt. }
  set (k := (52 - binade q)%Z).
  assert (Hk : (0 <= k)%Z) by (unfold k; lia).
  assert (Hu : pow2 (binade q - 52) * inject_Z (2 ^ k) == 1).
  { rewrite <- (pow2_nonneg_Z k) by exact Hk. rewrite <- pow2_add.
    unfold k. now replace (binade q - 52 + (52 - binade q))%Z with 0%Z by ring. }
  pose proof (pow2_pos (binade q - 52)) as Pu.
  assert (Hsig : q / pow2 (binade q - 52) == inject_Z (z * 2 ^ k)).
  { rewrite inject_Z_mult, <- Hqz.
    apply Qmult_inj_r with (z := pow2 (binade q - 52)); [lra|].
    field_simplify_eq; [|lra].
    generalize dependent (inject_Z (2 ^ k)). intros. nra. }
  unfold round_pos.
  rewrite (round_half_even_comp _ _ Hsig), round_half_even_Z.
  rewrite inject_Z_mult, <- Hqz.
  generalize dependent (inject_Z (2 ^ k)). intros. nra.
Qed.

Lemma round_nonneg (x : Q) : 0 <= x -> 0 <= round x.
Proof.
  intros Hx. unfold round.
  destruct (Qcompare_spec x 0) as [H|H|H]; [lra|lra|].
  destruct (round_pos_bounds x H) as [L _]. pose proof (pow2_pos (binade x)). lra.
Qed.

Lemma round_mono (x y : Q) : 0 <= x -> x <= y -> round x <= round y.
Proof.
  intros Hx Hxy. unfold round at 1.
  destruct (Qcompare_spec x 0) as [H|H|H]; [apply round_nonneg; lra|lra|].
  unfold round. destruct (Qcompare_spec y 0) as [G|G|G]; [lra|lra|].
  now apply round_pos_mono.
Qed.

Lemma round_Z (q : Q) (z : Z) :
  q == inject_Z z -> (0 < z < 2 ^ 53)%Z -> round q == inject_Z z.
Proof.
  intros Hqz Hz. unfold round.
  assert (Hq : 0 < q) by (rewrite Hqz; change 0 with (inject_Z 0); rewrite <- Zlt_Qlt; lia).
  destruct (Qcompare_spec q 0) as [H|H|H]; [lra|lra|].
  now apply round_pos_Z.
Qed.

Lemma Math_round_mono (x y : Q) : x <= y -> (Math_round x <= Math_round y)%Z.
Proof. intros H. apply Qfloor_resp_le. lra. Qed.

End Float64Facts.

Lemma percent_full (total : Z) : (0 < total)%Z -> percent total total = 100%Z.
Proof.
  intros Ht. unfold percent, Float64.mul, Float64.div.
  assert (H1 : (inject_Z total / inject_Z total == inject_Z 1)%Q).
  { change (inject_Z 1) with 1%Q. field.
    change 0%Q with (inject_Z 0). rewrite inject_Z_injective. lia. }
  pose proof (round_Z _ 1 H1 ltac:(lia)) as R1.
  assert (H2 : (Float64.round (inject_Z total / inject_Z total) * inject_Z 100
                == inject_Z 100)%Q).
  { rewrite R1. reflexivity. }
  pose proof (round_Z _ 100 H2 ltac:(lia)) as R2.
  unfold Float64.Math_round.
  assert (H3 : (Float64.round (Float64.round (inject_Z total / inject_Z total) * inject_Z 100)
                + (1 # 2) == 201 # 2)%Q).
  { rewrite R2. reflexivity. }
  rewrite (Qfloor_comp _ _ H3). reflexivity.
Qed.

Lemma percent_mono (d d' total : Z) :
  (0 <= d)%Z -> (d <= d')%Z -> (0 < total)%Z -> (percent d total <= percent d' total)%Z.
Proof.
  intros Hd Hdd Ht. unfold percent, Float64.mul, Float64.div.
  assert (HT : (0 < inject_Z total)%Q).
  { change 0%Q with (inject_Z 0). now rewrite <- Zlt_Qlt. }
  assert (HD : (0 <= inject_Z d)%Q).
  { change 0%Q with (inject_Z 0). now rewrite <- Zle_Qle. }
  assert (HDD : (inject_Z d <= inject_Z d')%Q) by now rewrite <- Zle_Qle.
  assert (Hq0 : (0 <= inject_Z d / inject_Z total)%Q).
  { apply Qle_shift_div_l; [exact HT|]. lra. }
  assert (Hq : (inject_Z d / inject_Z total <= inject_Z d' / inject_Z total)%Q).
  { apply Qmult_le_compat_r; [exact HDD|]. apply Qlt_le_weak, Qinv_lt_0_compat, HT. }
  pose proof (round_nonneg _ Hq0) as R0.
  pose proof (round_mono _ _ Hq0 Hq) as R1.
  apply Math_round_mono, round_mono.
  - change (inject_Z 100) with 100%Q. nra.
  - change (inject_Z 100) with 100%Q. nra.
Qed.

(* ===================================================================== *)
(** ** The store: listing, sizes, deletion *)
(* ===================================================================== *)

Lemma getDownloadedModels_returns (mm : ModelManager) (fs : Fs.t) :
  exists names, getDownloadedModels mm fs = Returns names.
Proof.
  unfold getDownloadedModels.
  destruct (Fs.readdirSync fs (modelsDir mm)) as [files|e]; simpl; eauto.
Qed.

Lemma getDownloadedModels_unreadable (mm : ModelManager) (fs : Fs.t) (e : Error) :
  Fs.readdirSync fs (modelsDir mm) = Throws e ->
  getDownloadedModels mm fs = Returns [].
Proof. intros H. unfold getDownloadedModels. rewrite H. reflexivity. Qed.

Lemma getModelSize_returns (mm : ModelManager) (fs : Fs.t) (filename : string) :
  exists label, getModelSize mm fs filename = Returns label.
Proof.
  unfold getModelSize, Fs.existsSync, Fs.statSync_size.
  destruct (fs !! getModelPath mm filename) as [[sz l|sz r]|]; simpl; eauto.
Qed.

Lemma size_entries_return (mm : ModelManager) (fs : Fs.t) (names : list string) :
  exists entries,
    mapM (fun filename => size ← getModelSize mm fs filename; mret (filename, size)) names
    = Returns entries.
Proof.
  induction names as [|filename rest [entries IH]]; simpl.
  - eexists. reflexivity.
  - destruct (getModelSize_returns mm fs filename) as [label Hl].
    rewrite Hl. simpl. rewrite IH. simpl. eexists. reflexivity.
Qed.

(** Only entries with the extension are listed: every listed name is the
    base name of some [.gguf] entry of the directory. *)
Lemma getDownloadedModels_only_gguf (mm : ModelManager) (fs : Fs.t) (names : list string) (n : string) :
  getDownloadedModels mm fs = Returns names ->
  In n names ->
  exists file, Str.endsWith file ".gguf" = true /\ n = Path.parse_name file
               /\ exists files, Fs.readdirSync fs (modelsDir mm) = Returns files /\ In file files.
Proof.
  unfold getDownloadedModels.
  destruct (Fs.readdirSync fs (modelsDir mm)) as [files|e]; simpl.
  - intros [= <-] Hin. apply in_map_iff in Hin as [file [<- Hf]].
    apply list_elem_of_In, list_elem_of_filter in Hf as [He Hf].
    exists file. split; [exact He|]. split; [reflexivity|].
    exists files. split; [reflexivity|]. now apply list_elem_of_In.
  - intros [= <-] [].
Qed.

(** C1: in a directory holding the 10-byte artifact [m.gguf] (and a stray
    [notes.txt]), the listing leaves the text file out but names the
    artifact ["m"], without its extension; [GET /models] then asks for the
    size of ["m"], finds no such file and reports ["Unknown"], although the
    size of ["m.gguf"] is available.  The same happens after a complete
    download of a catalog entry. *)
Theorem listing_drops_extension_and_size :
  getDownloadedModels Scenario.modelManager Scenario.store_with_m = Returns ["m"]
  /\ Server.get_models Scenario.modelManager Scenario.store_with_m
     = Server.Json 200 (Server.ModelsBody RECOMMENDED_MODELS [("m", "Unknown")])
  /\ getModelSize Scenario.modelManager Scenario.store_with_m "m.gguf" = Returns "0.0MB"
  /\ (let st := Server.session Scenario.modelManager Scenario.llama_1b Scenario.empty_store
                  (complete_transfer (Some "10") [10]) in
      Download.settled st = Download.Resolved Scenario.llama_1b_path
      /\ Download.fs st = Scenario.store_with_llama
      /\ Server.get_models Scenario.modelManager (Download.fs st)
         = Server.Json 200 (Server.ModelsBody RECOMMENDED_MODELS
                              [("llama-3.2-1b-instruct-q4_0", "Unknown")])).
Proof. repeat split; vm_compute; reflexivity. Qed.

(** C8, as the code has it: the listing always returns, with the empty
    list when the directory cannot be read, and from its import on
    [GET /models] always answers 200 with the catalog and the sized
    listing, whatever the file system holds.  The route as a whole answers
    500 in one case only: its import fails, which is to say that the
    constructor of the service has thrown, at this request or at an earlier
    one.  On a server that has the service it answers 200 and leaves the
    file system as it is. *)
Theorem listing_fails_only_with_the_constructor (cwd : string)
    (cache : Server.module_state) (fs : Fs.t) :
  (forall mm,
      (exists names, getDownloadedModels mm fs = Returns names)
      /\ (forall e, Fs.readdirSync fs (modelsDir mm) = Throws e ->
                    getDownloadedModels mm fs = Returns [])
      /\ (exists downloaded,
            Server.get_models mm fs
            = Server.Json 200 (Server.ModelsBody (getRecommendedModels mm) downloaded)))
  /\ (let served := Server.app_get_models cwd cache fs in
      match Server.import_modelManager cwd cache fs with
      | (fs', cache', Returns mm) =>
          (exists downloaded,
              Server.response (Server.outcome_of served)
              = Server.Json 200 (Server.ModelsBody (getRecommendedModels mm) downloaded))
          /\ Server.fs_after (Server.outcome_of served) = fs'
          /\ Server.module_after served = Server.Evaluated mm
      | (fs', cache', Throws e) =>
          Server.response (Server.outcome_of served)
          = Server.Json 500 (Server.ErrorBody "Failed to get model info")
          /\ Server.module_after served = Server.EvaluationFailed e
          /\ (cache = Server.EvaluationFailed e
              \/ (cache = Server.NotEvaluated
                  /\ snd (new_ModelManager cwd fs) = Throws e))
      end)
  /\ (forall mm, cache = Server.Evaluated mm ->
        exists downloaded,
          Server.app_get_models cwd cache fs
          = {| Server.outcome_of :=
                 {| Server.response :=
                      Server.Json 200
                        (Server.ModelsBody (getRecommendedModels mm) downloaded);
                    Server.fs_after := fs; Server.fetched := [] |};
               Server.module_after := cache |}).
Proof.
  assert (Hbody : forall mm fs0, exists downloaded,
             Server.get_models mm fs0
             = Server.Json 200 (Server.ModelsBody (getRecommendedModels mm) downloaded)).
  { intros mm fs0. unfold Server.get_models.
    destruct (getDownloadedModels_returns mm fs0) as [names ->]. simpl.
    destruct (size_entries_return mm fs0 names) as [entries ->]. simpl.
    exists entries. reflexivity. }
  split; [|split].
  - intros mm. split; [apply getDownloadedModels_returns|].
    split; [apply getDownloadedModels_unreadable|apply Hbody].
  - cbv zeta. unfold Server.app_get_models, Server.import_modelManager.
    destruct cache as [|mm|e].
    + destruct (new_ModelManager cwd fs) as [fs' [mm|e]] eqn:Hnew;
        cbn [Server.response Server.outcome_of Server.fs_after Server.module_after].
      * split; [apply Hbody|]. split; reflexivity.
      * split; [reflexivity|]. split; [reflexivity|]. right. split; reflexivity.
    + cbn [Server.response Server.outcome_of Server.fs_after Server.module_after].
      split; [apply Hbody|]. split; reflexivity.
    + cbn [Server.response Server.outcome_of Server.fs_after Server.module_after].
      split; [reflexivity|]. split; [reflexivity|]. left. reflexivity.
  - intros mm ->. unfold Server.app_get_models, Server.import_modelManager.
    destruct (Hbody mm fs) as [downloaded ->]. exists downloaded. reflexivity.
Qed.

Lemma listing_fails_only_with_the_constructor_witness :
  Fs.readdirSync Scenario.unreadable_store (modelsDir Scenario.modelManager)
  = Throws (Fs.EACCES "/app/models")
  /\ getDownloadedModels Scenario.modelManager Scenario.unreadable_store = Returns []
  /\ exists downloaded,
       Server.app_get_models "/app" (Server.Evaluated Scenario.modelManager)
         Scenario.unreadable_store
       = {| Server.outcome_of :=
              {| Server.response :=
                   Server.Json 200 (Server.ModelsBody RECOMMENDED_MODELS downloaded);
                 Server.fs_after := Scenario.unreadable_store; Server.fetched := [] |};
            Server.module_after := Server.Evaluated Scenario.modelManager |}.
Proof.
  destruct (listing_fails_only_with_the_constructor "/app"
              (Server.Evaluated Scenario.modelManager) Scenario.unreadable_store)
    as [Hlist [_ Hserved]].
  destruct (Hlist Scenario.modelManager) as [_ [Hunreadable _]].
  split; [vm_compute; reflexivity|].
  split; [apply (Hunreadable (Fs.EACCES "/app/models")); vm_compute; reflexivity|].
  apply (Hserved Scenario.modelManager). reflexivity.
Defined.

(** C8, the claim as stated fails: on a server that has not evaluated the
    service yet and whose working directory leaves no room for the models
    directory, the constructor throws during the import, and the first
    [GET /models] answers 500; so does every later one. *)
Lemma first_listing_fails_with_the_constructor :
  let fs := Scenario.store_without_room in
  let first := Server.app_get_models "/app" Server.NotEvaluated fs in
  let second := Server.app_get_models "/app" (Server.module_after first)
                  (Server.fs_after (Server.outcome_of first)) in
  new_ModelManager "/app" fs = (fs, Throws (Fs.ENOTDIR "/app"))
  /\ Server.response (Server.outcome_of first)
     = Server.Json 500 (Server.ErrorBody "Failed to get model info")
  /\ Server.response (Server.outcome_of second)
     = Server.Json 500 (Server.ErrorBody "Failed to get model info")
  /\ ~ (exists downloaded,
          Server.response (Server.outcome_of first)
          = Server.Json 200 (Server.ModelsBody RECOMMENDED_MODELS downloaded)).
Proof.
  repeat split; try (vm_compute; reflexivity).
  intros [downloaded H]. vm_compute in H. discriminate H.
Qed.

(** On a server that has the service, the import hands it out and each
    handler is its part from the import on. *)
Lemma routes_with_the_service (cwd : string) (mm : ModelManager) (fs : Fs.t)
    (body : Server.download_request) (events : list Download.event) (filename : string) :
  Server.app_get_models cwd (Server.Evaluated mm) fs
  = {| Server.outcome_of := {| Server.response := Server.get_models mm fs;
                               Server.fs_after := fs; Server.fetched := [] |};
       Server.module_after := Server.Evaluated mm |}
  /\ Server.app_post_models_download cwd (Server.Evaluated mm) fs body events
     = {| Server.outcome_of := Server.post_models_download mm fs body events;
          Server.module_after := Server.Evaluated mm |}
  /\ Server.app_delete_model cwd (Server.Evaluated mm) fs filename
     = {| Server.outcome_of :=
            {| Server.response := snd (Server.delete_model mm fs filename);
               Server.fs_after := fst (Server.delete_model mm fs filename);
               Server.fetched := [] |};
          Server.module_after := Server.Evaluated mm |}.
Proof.
  split; [reflexivity|]. split; [|reflexivity].
  unfold Server.app_post_models_download, Server.post_models_download,
    Server.import_modelManager.
  destruct (negb (Server.truthy (Server.modelUrl body))
            || negb (Server.truthy (Server.filename body))); [reflexivity|].
  destruct (List.find _ (getRecommendedModels mm)); reflexivity.
Qed.



(* ===================================================================== *)
(** ** Path resolution *)
(* ===================================================================== *)

(** C10: [getModelPath] is the bare [path.join] for every argument; with
    [fileName = "../x"] the resolved path leaves the artifact directory,
    and that outside file is the one that the existence check,
    [getModelSize] and [deleteModel] act on. *)
Theorem getModelPath_unvalidated :
  (forall (mm : ModelManager) (filename : string),
      getModelPath mm filename = Path.join (modelsDir mm) filename)
  /\ (exists filename : string,
        let mm := Scenario.modelManager in
        let fs := Scenario.store_with_outside_file in
        let p := getModelPath mm filename in
        p = "/app/x"
        /\ within (modelsDir mm) p = false
        /\ Fs.child_name (modelsDir mm) p = None
        /\ Fs.existsSync fs p = true
        /\ getModelSize mm fs filename = Returns "0.0MB"
        /\ deleteModel mm fs filename = (Scenario.empty_store, Returns true)
        /\ snd (Server.delete_model mm fs filename)
           = Server.Json 200 (Server.MessageBody "Model deleted successfully")).
Proof.
  split; [reflexivity|].
  exists "../x". repeat split; vm_compute; reflexivity.
Qed.

(* ===================================================================== *)
(** ** The downloader *)
(* ===================================================================== *)

Section DownloadFacts.
Context {S : Type}.
Variable onProgress : option (Z -> S -> S).

(** A call that did not register listeners ignores every event. *)
Lemma handle_inactive (st : Download.state S) (ev : Download.event) :
  Download.active st = false -> Download.streaming st = false ->
  Download.handle onProgress st ev = st.
Proof.
  intros Ha Hs. destruct ev; simpl; rewrite ?Ha, ?Hs; reflexivity.
Qed.

Lemma run_inactive (events : list Download.event) (st : Download.state S) :
  Download.active st = false -> Download.streaming st = false ->
  Download.run onProgress st events = st.
Proof.
  induction events as [|ev rest IH]; intros Ha Hs; [reflexivity|].
  unfold Download.run in *. simpl. rewrite handle_inactive by assumption.
  now apply IH.
Qed.

Lemma downloadModel_existing (mm : ModelManager) (modelInfo : ModelInfo.t)
    (fs : Fs.t) (l : S) :
  Fs.existsSync fs (getModelPath mm (ModelInfo.filename modelInfo)) = true ->
  Download.downloadModel mm modelInfo fs l
  = Download.mkState fs l (getModelPath mm (ModelInfo.filename modelInfo)) 0 (Some 0)
      [] false false false false
      (Download.Resolved (getModelPath mm (ModelInfo.filename modelInfo))).
Proof. intros H. unfold Download.downloadModel. rewrite H. reflexivity. Qed.

End DownloadFacts.

(** C3: when the file of the entry exists, [downloadModel] resolves with
    its path before any event, sends no request and leaves the file system
    and the caller untouched, whatever happens afterwards; a second call in
    the state left by the first one does the same and yields the same
    path. *)
Theorem download_existing_is_free {S : Type} (onProgress : option (Z -> S -> S))
    (mm : ModelManager) (modelInfo : ModelInfo.t) (fs : Fs.t) (l : S)
    (events1 events2 : list Download.event) :
  Fs.existsSync fs (getModelPath mm (ModelInfo.filename modelInfo)) = true ->
  let p := getModelPath mm (ModelInfo.filename modelInfo) in
  let first := Download.run onProgress
                 (Download.downloadModel mm modelInfo fs l) events1 in
  let second := Download.run onProgress
                  (Download.downloadModel mm modelInfo (Download.fs first)
                     (Download.listener first)) events2 in
  Download.settled (Download.downloadModel mm modelInfo fs l) = Download.Resolved p
  /\ Download.settled first = Download.Resolved p
  /\ Download.requested first = []
  /\ Download.fs first = fs
  /\ Download.listener first = l
  /\ Download.settled second = Download.Resolved p
  /\ Download.requested second = []
  /\ Download.fs second = fs.
Proof.
  intros Hex p first second.
  assert (Hfirst : first = Download.mkState fs l p 0 (Some 0) [] false false false false
                             (Download.Resolved p)).
  { unfold first. rewrite (downloadModel_existing mm modelInfo fs l Hex).
    apply run_inactive; reflexivity. }
  assert (Hsecond : second = Download.mkState fs l p 0 (Some 0) [] false false false false
                               (Download.Resolved p)).
  { unfold second. rewrite Hfirst. simpl.
    rewrite (downloadModel_existing mm modelInfo fs l Hex).
    apply run_inactive; reflexivity. }
  rewrite (downloadModel_existing mm modelInfo fs l Hex), Hfirst, Hsecond.
  repeat split; reflexivity.
Qed.

Lemma download_existing_is_free_witness :
  let st := Download.run Download.record_progress
              (Download.downloadModel Scenario.modelManager Scenario.llama_1b
                 Scenario.store_with_llama [])
              [Download.Response 200 (Some "10"); Download.Data 10; Download.Finish] in
  Download.settled st = Download.Resolved Scenario.llama_1b_path
  /\ Download.requested st = [].
Proof.
  pose proof (download_existing_is_free Download.record_progress Scenario.modelManager
                Scenario.llama_1b Scenario.store_with_llama []
                [Download.Response 200 (Some "10"); Download.Data 10; Download.Finish] [])
    as H.
  destruct H as [_ [H1 [H2 _]]]; [vm_compute; reflexivity|].
  split; [exact H1 | exact H2].
Defined.

Section DownloadInvariants.
Context {S : Type}.
Variable onProgress : option (Z -> S -> S).

Ltac cases_handle st ev :=
  destruct st as [fs0 l0 p0 d0 t0 req0 a0 r0 s0 pi0 se0];
  destruct ev as [status cl|len| |err|err| ]; simpl in *;
  unfold Download.on_response, Download.on_data, Download.on_finish,
    Download.on_request_error, Download.on_file_error,
    Download.resolve, Download.reject; simpl.

(** The target path, the list of requests and the existence of the
    request are fixed when the call starts. *)
Lemma handle_frame (st : Download.state S) (ev : Download.event) :
  Download.modelPath (Download.handle onProgress st ev) = Download.modelPath st
  /\ Download.requested (Download.handle onProgress st ev) = Download.requested st
  /\ Download.active (Download.handle onProgress st ev) = Download.active st.
Proof.
  cases_handle st ev;
    repeat match goal with
      | |- context [if ?b then _ else _] => destruct b; simpl
      | |- context [match ?x with _ => _ end] => destruct x; simpl
      end; auto.
Qed.

Lemma run_frame (events : list Download.event) (st : Download.state S) :
  Download.modelPath (Download.run onProgress st events) = Download.modelPath st
  /\ Download.requested (Download.run onProgress st events) = Download.requested st
  /\ Download.active (Download.run onProgress st events) = Download.active st.
Proof.
  revert st. induction events as [|ev rest IH]; intros st; [auto|].
  unfold Download.run in *. simpl.
  destruct (IH (Download.handle onProgress st ev)) as [H1 [H2 H3]].
  destruct (handle_frame st ev) as [G1 [G2 G3]].
  rewrite H1, H2, H3. auto.
Qed.

(** A settled promise stays as it is. *)
Lemma handle_settled (st : Download.state S) (ev : Download.event) :
  Download.settled st <> Download.Pending ->
  Download.settled (Download.handle onProgress st ev) = Download.settled st.
Proof.
  intros Hs. cases_handle st ev;
    repeat match goal with
      | |- context [if ?b then _ else _] => destruct b; simpl
      | |- context [match ?x with _ => _ end] => destruct x; simpl
      end; auto; congruence.
Qed.

Lemma run_settled (events : list Download.event) (st : Download.state S) :
  Download.settled st <> Download.Pending ->
  Download.settled (Download.run onProgress st events) = Download.settled st.
Proof.
  revert st. induction events as [|ev rest IH]; intros st Hs; [reflexivity|].
  unfold Download.run in *. simpl.
  rewrite IH; rewrite handle_settled; auto.
Qed.

(** Nothing but the opening of the write stream creates the file: once
    the target path is free, it stays free. *)
Lemma handle_absent (st : Download.state S) (ev : Download.event) :
  Download.fs st !! Download.modelPath st = None ->
  Download.fs (Download.handle onProgress st ev)
    !! Download.modelPath (Download.handle onProgress st ev) = None.
Proof.
  intros Hn. cases_handle st ev;
    unfold Fs.write_chunk, Fs.unlink_ignoring_error, Fs.unlinkSync; rewrite ?Hn;
    repeat match goal with
      | |- context [if ?b then _ else _] => destruct b; simpl
      | |- context [match ?x with _ => _ end] => destruct x; simpl
      end; rewrite ?Hn; auto.
Qed.

Lemma run_absent (events : list Download.event) (st : Download.state S) :
  Download.fs st !! Download.modelPath st = None ->
  Download.fs (Download.run onProgress st events)
    !! Download.modelPath (Download.run onProgress st events) = None.
Proof.
  revert st. induction events as [|ev rest IH]; intros st Hn; [exact Hn|].
  unfold Download.run in *. simpl. apply IH. now apply handle_absent.
Qed.

Lemma handle_own_file (st : Download.state S) (ev : Download.event) :
  own_file st -> own_file (Download.handle onProgress st ev).
Proof.
  intros [Hn|[sz Hsz]]; [left; now apply handle_absent|].
  cases_handle st ev; unfold own_file; simpl;
    unfold Fs.write_chunk, Fs.unlink_ignoring_error, Fs.unlinkSync; rewrite ?Hsz;
    repeat match goal with
      | |- context [if ?b then _ else _] => destruct b; simpl
      | |- context [match ?x with _ => _ end] => destruct x; simpl
      end; rewrite ?Hsz, ?lookup_insert_eq, ?lookup_delete_eq; eauto.
Qed.

Lemma run_own_file (events : list Download.event) (st : Download.state S) :
  own_file st -> own_file (Download.run onProgress st events).
Proof.
  revert st. induction events as [|ev rest IH]; intros st Ho; [exact Ho|].
  unfold Download.run in *. simpl. apply IH. now apply handle_own_file.
Qed.

Lemma downloadModel_own_file (mm : ModelManager) (modelInfo : ModelInfo.t)
    (fs : Fs.t) (l : S) :
  Fs.existsSync fs (getModelPath mm (ModelInfo.filename modelInfo)) = false ->
  own_file (Download.downloadModel mm modelInfo fs l)
  /\ Download.active (Download.downloadModel mm modelInfo fs l) = true
  /\ Download.modelPath (Download.downloadModel mm modelInfo fs l)
     = getModelPath mm (ModelInfo.filename modelInfo).
Proof.
  intros Hex. unfold Download.downloadModel. rewrite Hex. simpl.
  split; [|auto]. unfold own_file, Fs.open_for_write. simpl.
  unfold Fs.existsSync in Hex.
  destruct (fs !! getModelPath mm (ModelInfo.filename modelInfo)) eqn:Hp; [discriminate|].
  destruct (fs !! Path.dirname (getModelPath mm (ModelInfo.filename modelInfo)))
    as [[? ?|? ?]|]; rewrite ?lookup_insert_eq; eauto.
Qed.

(** An error event that finds the promise pending rejects it with that
    error and leaves no file at the target path. *)
Lemma error_event_cleans_up (st : Download.state S) (ev : Download.event) (e : Error) :
  ev = Download.RequestError e \/ ev = Download.FileError e ->
  Download.active st = true ->
  Download.settled st = Download.Pending ->
  own_file st ->
  Download.settled (Download.handle onProgress st ev) = Download.Rejected e
  /\ Download.fs (Download.handle onProgress st ev)
       !! Download.modelPath (Download.handle onProgress st ev) = None.
Proof.
  intros Hev Ha Hp Ho.
  destruct st as [fs0 l0 p0 d0 t0 req0 a0 r0 s0 pi0 se0]; simpl in *. subst a0 se0.
  unfold own_file in Ho; simpl in Ho.
  destruct Hev as [-> | ->]; simpl;
    unfold Download.on_request_error, Download.on_file_error, Download.reject; simpl;
    unfold Fs.unlink_ignoring_error, Fs.unlinkSync;
    (destruct Ho as [Hn|[sz Hsz]];
     [rewrite Hn; simpl; auto | rewrite Hsz; simpl; rewrite lookup_delete_eq; auto]).
Qed.

End DownloadInvariants.

(** A response with a status other than 200 rejects the promise with a
    message that carries the status, and leaves the file just created by
    the write stream where it is. *)
Lemma non200_keeps_file {S : Type} (onProgress : option (Z -> S -> S))
    (mm : ModelManager) (modelInfo : ModelInfo.t) (fs : Fs.t) (l : S)
    (statusCode : Z) (contentLength : option string) (sz : Z) (r : bool) :
  let p := getModelPath mm (ModelInfo.filename modelInfo) in
  fs !! p = None ->
  fs !! Path.dirname p = Some (Fs.Dir sz r) ->
  statusCode <> 200 ->
  let st := Download.run onProgress (Download.downloadModel mm modelInfo fs l)
              [Download.Response statusCode contentLength] in
  Download.settled st
  = Download.Rejected (mkError ("Failed to download model: HTTP " ++ pretty statusCode))
  /\ Download.fs st !! p = Some (Fs.File 0 false).
Proof.
  intros p Hp Hd Hs. unfold Download.run, Download.downloadModel, Fs.existsSync. simpl.
  fold p. rewrite Hp. simpl. unfold Download.on_response. simpl.
  apply Z.eqb_neq in Hs. rewrite Hs. simpl.
  unfold Fs.open_for_write. rewrite Hp, Hd. rewrite lookup_insert_eq. auto.
Qed.

(** C2: the endpoint of the first catalog entry answers 404.  The promise
    is rejected with the status in its message, but the empty file created
    by the write stream stays in the artifact directory: it exists, it is
    listed, and the next download of the entry takes it for the artifact
    and resolves at once without any request.  A request error, by
    contrast, removes the file. *)
Theorem non200_leaves_partial_file :
  let mm := Scenario.modelManager in
  let st := Download.run Download.record_progress
              (Download.downloadModel mm Scenario.llama_1b Scenario.empty_store [])
              [Download.Response 404 None] in
  Download.settled st = Download.Rejected (mkError "Failed to download model: HTTP 404")
  /\ Download.fs st !! Scenario.llama_1b_path = Some (Fs.File 0 false)
  /\ Fs.existsSync (Download.fs st) (getModelPath mm (ModelInfo.filename Scenario.llama_1b))
     = true
  /\ getDownloadedModels mm (Download.fs st) = Returns ["llama-3.2-1b-instruct-q4_0"]
  /\ (let again := Download.downloadModel mm Scenario.llama_1b (Download.fs st)
                     (Download.listener st) in
      Download.settled again = Download.Resolved Scenario.llama_1b_path
      /\ Download.requested again = [])
  /\ Download.fs (Download.run Download.record_progress
                    (Download.downloadModel mm Scenario.llama_1b Scenario.empty_store [])
                    [Download.RequestError (mkError "socket hang up")])
     !! Scenario.llama_1b_path = None.
Proof. repeat split; vm_compute; reflexivity. Qed.

(** What the two error listeners achieve: a download that has started and
    is still pending when the request or the write stream reports an error
    is rejected with that error, and whatever else happens afterwards no
    file is left at the target path. *)
Theorem interrupted_download_leaves_no_file {S : Type} (onProgress : option (Z -> S -> S))
    (mm : ModelManager) (modelInfo : ModelInfo.t) (fs : Fs.t) (l : S)
    (before after : list Download.event) (ev : Download.event) (e : Error) :
  Fs.existsSync fs (getModelPath mm (ModelInfo.filename modelInfo)) = false ->
  Download.settled
    (Download.run onProgress (Download.downloadModel mm modelInfo fs l) before)
  = Download.Pending ->
  ev = Download.RequestError e \/ ev = Download.FileError e ->
  let st := Download.run onProgress (Download.downloadModel mm modelInfo fs l)
              (before ++ ev :: after)%list in
  Download.settled st = Download.Rejected e
  /\ Fs.existsSync (Download.fs st) (getModelPath mm (ModelInfo.filename modelInfo)) = false
  /\ Download.fs st !! getModelPath mm (ModelInfo.filename modelInfo) = None.
Proof.
  intros Hex Hpending Hev st.
  destruct (downloadModel_own_file mm modelInfo fs l Hex) as [Hown [Hact Hpath]].
  set (st0 := Download.downloadModel mm modelInfo fs l) in *.
  set (st1 := Download.run onProgress st0 before) in *.
  assert (Hst : st = Download.run onProgress (Download.handle onProgress st1 ev) after).
  { unfold st, st1, Download.run. rewrite fold_left_app. reflexivity. }
  destruct (run_frame onProgress before st0) as [Hp1 [_ Ha1]]. fold st1 in Hp1, Ha1.
  destruct (error_event_cleans_up onProgress st1 ev e Hev) as [Hrej Hgone].
  { now rewrite Ha1. }
  { exact Hpending. }
  { now apply run_own_file. }
  assert (Hnone : Download.fs st !! Download.modelPath st = None).
  { rewrite Hst. now apply run_absent. }
  assert (Hp : Download.modelPath st = getModelPath mm (ModelInfo.filename modelInfo)).
  { rewrite Hst.
    destruct (run_frame onProgress after (Download.handle onProgress st1 ev)) as [-> _].
    destruct (handle_frame onProgress st1 ev) as [-> _]. now rewrite Hp1. }
  rewrite Hp in Hnone.
  split; [|split; [|exact Hnone]].
  - rewrite Hst. rewrite run_settled; rewrite Hrej; [reflexivity|discriminate].
  - unfold Fs.existsSync. now rewrite Hnone.
Qed.

(** The connection is reset after 500 of 1000 bytes, which the request
    reports as an error. *)
Lemma interrupted_download_leaves_no_file_witness :
  let st := Download.run Download.record_progress
              (Download.downloadModel Scenario.modelManager Scenario.llama_1b
                 Scenario.empty_store [])
              [Download.Response 200 (Some "1000"); Download.Data 500;
               Download.RequestError (mkError "read ECONNRESET")] in
  Download.settled st = Download.Rejected (mkError "read ECONNRESET")
  /\ Fs.existsSync (Download.fs st) Scenario.llama_1b_path = false
  /\ Download.listener st = [50].
Proof.
  pose proof (interrupted_download_leaves_no_file Download.record_progress
                Scenario.modelManager Scenario.llama_1b Scenario.empty_store []
                [Download.Response 200 (Some "1000"); Download.Data 500] []
                (Download.RequestError (mkError "read ECONNRESET"))
                (mkError "read ECONNRESET")) as H.
  destruct H as [H1 [H2 _]];
    [vm_compute; reflexivity | vm_compute; reflexivity | left; reflexivity |].
  split; [exact H1|]. split; [exact H2|]. vm_compute; reflexivity.
Defined.

(* ===================================================================== *)
(** ** The streaming route *)
(* ===================================================================== *)

Arguments percent : simpl never.
Arguments ParseInt.parseInt10 : simpl never.

Lemma session_step_frame (st : Download.state Server.ServerResponse) (ev : Download.event) :
  Download.modelPath (Server.session_step st ev) = Download.modelPath st
  /\ Download.requested (Server.session_step st ev) = Download.requested st.
Proof.
  unfold Server.session_step, Server.react.
  destruct (handle_frame Server.send_progress st ev) as [Hp [Hr _]].
  destruct (Download.settled st);
    destruct (Download.settled (Download.handle Server.send_progress st ev));
    simpl; auto.
Qed.

Lemma session_steps_frame (events : list Download.event)
    (st : Download.state Server.ServerResponse) :
  Download.modelPath (fold_left Server.session_step events st) = Download.modelPath st
  /\ Download.requested (fold_left Server.session_step events st) = Download.requested st.
Proof.
  revert st. induction events as [|ev rest IH]; intros st; [auto|]. simpl.
  destruct (IH (Server.session_step st ev)) as [-> ->]. apply session_step_frame.
Qed.

Lemma session_step_shape (st : Download.state Server.ServerResponse) (ev : Download.event) :
  stream_shape st -> stream_shape (Server.session_step st ev).
Proof.
  intros [ps H].
  destruct st as [fs0 [snt en] p0 d0 t0 req0 a0 r0 s0 pi0 se0].
  unfold stream_shape, Server.session_step. simpl in *.
  destruct se0 as [|p|e]; simpl in H.
  - (* pending: the response is open *)
    destruct H as [-> ->].
    destruct ev as [status cl|len| |err|err| ]; simpl.
    + destruct (a0 && negb r0); simpl; [|exists ps; auto].
      unfold Download.on_response; simpl.
      destruct (negb (status =? 200)%Z); simpl; exists ps; auto.
    + destruct s0; simpl; [|exists ps; auto].
      unfold Download.on_data; simpl.
      destruct t0 as [total|]; simpl; [|exists ps; auto].
      destruct (0 <? total)%Z; simpl; [|exists ps; auto].
      exists (ps ++ [percent (d0 + len) total])%list.
      rewrite map_app. auto.
    + destruct s0; simpl; exists ps; auto.
    + destruct a0; simpl; exists ps; auto.
    + destruct a0; simpl; exists ps; auto.
    + exists ps; auto.
  - (* resolved: the response has ended *)
    destruct H as [-> [-> ->]].
    destruct ev as [status cl|len| |err|err| ]; simpl.
    + destruct (a0 && negb r0); simpl; [|exists ps; auto].
      unfold Download.on_response; simpl.
      destruct (negb (status =? 200)%Z); simpl; exists ps; auto.
    + destruct s0; simpl; [|exists ps; auto].
      unfold Download.on_data; simpl.
      destruct t0 as [total|]; simpl; [|exists ps; auto].
      destruct (0 <? total)%Z; simpl; exists ps; auto.
    + destruct s0; simpl; exists ps; auto.
    + destruct a0; simpl; exists ps; auto.
    + destruct a0; simpl; exists ps; auto.
    + exists ps; auto.
  - (* rejected: the response has ended *)
    destruct H as [-> ->].
    destruct ev as [status cl|len| |err|err| ]; simpl.
    + destruct (a0 && negb r0); simpl; [|exists ps; auto].
      unfold Download.on_response; simpl.
      destruct (negb (status =? 200)%Z); simpl; exists ps; auto.
    + destruct s0; simpl; [|exists ps; auto].
      unfold Download.on_data; simpl.
      destruct t0 as [total|]; simpl; [|exists ps; auto].
      destruct (0 <? total)%Z; simpl; exists ps; auto.
    + destruct s0; simpl; exists ps; auto.
    + destruct a0; simpl; exists ps; auto.
    + destruct a0; simpl; exists ps; auto.
    + exists ps; auto.
Qed.

Lemma session_shape (mm : ModelManager) (model : ModelInfo.t) (fs : Fs.t)
    (events : list Download.event) :
  stream_shape (Server.session mm model fs events).
Proof.
  unfold Server.session.
  set (st0 := Server.react Download.Pending _).
  assert (H0 : stream_shape st0).
  { unfold st0, Download.downloadModel.
    destruct (Fs.existsSync fs (getModelPath mm (ModelInfo.filename model)));
      exists []; simpl; auto. }
  clearbody st0. revert st0 H0.
  induction events as [|ev rest IH]; intros st0 H0; [exact H0|].
  simpl. apply IH. now apply session_step_shape.
Qed.

Lemma session_modelPath (mm : ModelManager) (model : ModelInfo.t) (fs : Fs.t)
    (events : list Download.event) :
  Download.modelPath (Server.session mm model fs events)
  = getModelPath mm (ModelInfo.filename model).
Proof.
  unfold Server.session.
  destruct (session_steps_frame events
              (Server.react Download.Pending
                 (Download.downloadModel mm model fs
                    {| Server.sent := []; Server.ended := false |}))) as [-> _].
  unfold Download.downloadModel.
  destruct (Fs.existsSync fs (getModelPath mm (ModelInfo.filename model))); reflexivity.
Qed.

Lemma no_terminal_among_progress (ps : list Z) :
  filter (fun ev => is_terminal ev = true) (map Server.SseProgress ps) = [].
Proof. induction ps as [|x ps IH]; [reflexivity|exact IH]. Qed.

Lemma one_terminal_after_progress (ps : list Z) (ev : Server.sse) :
  is_terminal ev = true ->
  filter (fun ev => is_terminal ev = true) (map Server.SseProgress ps ++ [ev])%list = [ev].
Proof.
  intros H. rewrite filter_app, no_terminal_among_progress. simpl.
  rewrite filter_cons_True by exact H. reflexivity.
Qed.

(** At any point of a streaming session, what has been sent is a run
    of progress records followed by at most one closing record.  While the
    download is pending nothing but progress has been sent and the response
    is open; once it has succeeded the stream ends with the single record
    [complete] carrying the path, once it has failed with the single record
    [error] carrying the message, and in both cases the response has ended
    with that record as the last thing sent. *)
Theorem event_stream_shape (mm : ModelManager) (model : ModelInfo.t) (fs : Fs.t)
    (events : list Download.event) :
  let st := Server.session mm model fs events in
  let res := Download.listener st in
  (exists ps : list Z,
      match Download.settled st with
      | Download.Pending =>
          Server.sent res = map Server.SseProgress ps /\ Server.ended res = false
      | Download.Resolved p =>
          Server.sent res = (map Server.SseProgress ps ++ [Server.SseComplete p])%list
          /\ Server.ended res = true
          /\ p = getModelPath mm (ModelInfo.filename model)
      | Download.Rejected e =>
          Server.sent res = (map Server.SseProgress ps ++ [Server.SseError (message e)])%list
          /\ Server.ended res = true
      end)
  /\ length (filter (fun ev => is_terminal ev = true) (Server.sent res))
     = match Download.settled st with Download.Pending => 0%nat | _ => 1%nat end.
Proof.
  intros st res.
  destruct (session_shape mm model fs events) as [ps H]. fold st in H. fold res in H.
  pose proof (session_modelPath mm model fs events) as Hp. fold st in Hp.
  split.
  - exists ps. destruct (Download.settled st) as [|p|e]; [exact H| |exact H].
    destruct H as [H1 [H2 H3]]. rewrite <- Hp. auto.
  - destruct (Download.settled st) as [|p|e].
    + destruct H as [-> _]. now rewrite no_terminal_among_progress.
    + destruct H as [-> _]. now rewrite one_terminal_after_progress.
    + destruct H as [-> _]. now rewrite one_terminal_after_progress.
Qed.

(** The event that settles the download is the one that closes the stream:
    its step appends the closing record and ends the response. *)
Lemma settling_step_closes_stream (st : Download.state Server.ServerResponse)
    (ev : Download.event) :
  Download.settled st = Download.Pending ->
  Server.ended (Download.listener st) = false ->
  Download.settled (Server.session_step st ev) <> Download.Pending ->
  Server.ended (Download.listener (Server.session_step st ev)) = true
  /\ Server.sent (Download.listener (Server.session_step st ev))
     = (Server.sent (Download.listener st)
        ++ [match Download.settled (Server.session_step st ev) with
            | Download.Resolved p => Server.SseComplete p
            | Download.Rejected e => Server.SseError (message e)
            | Download.Pending => Server.SseProgress 0
            end])%list.
Proof.
  destruct st as [fs0 [snt en] p0 d0 t0 req0 a0 r0 s0 pi0 se0].
  cbn [Download.settled Download.listener Server.ended Server.sent].
  intros -> ->. unfold Server.session_step.
  destruct ev as [status cl|len| |err|err| ];
    cbn [Download.handle Download.active Download.responded Download.streaming
         Download.settled];
    repeat match goal with
      | |- context [if ?b then _ else _] => destruct b eqn:?
      end;
    unfold Download.on_response, Download.on_data, Download.on_finish,
      Download.on_request_error, Download.on_file_error,
      Download.resolve, Download.reject;
    cbn [Download.settled Download.listener Download.fs Download.modelPath
         Download.downloadedBytes Download.totalBytes Download.requested
         Download.active Download.responded Download.streaming Download.piped
         Server.react Server.with_listener Server.on_fulfilled Server.on_rejected
         Server.write Server.end_ Server.ended Server.sent];
    repeat match goal with
      | |- context [if ?b then _ else _] => destruct b eqn:?
      end;
    cbn [Download.settled Download.listener Server.react Server.with_listener
         Server.on_fulfilled Server.on_rejected Server.write Server.end_
         Server.ended Server.sent];
    intros H; try (exfalso; apply H; reflexivity); split; reflexivity.
Qed.

(** A 10-byte artifact delivered in one chunk: one progress record of 100,
    then the closing record, then the end of the response. *)
Example ten_byte_download_stream :
  Download.listener
    (Server.session Scenario.modelManager Scenario.llama_1b Scenario.empty_store
       (complete_transfer (Some "10") [10]))
  = {| Server.sent := [Server.SseProgress 100; Server.SseComplete Scenario.llama_1b_path];
       Server.ended := true |}.
Proof. vm_compute. reflexivity. Qed.

(** A write error in mid-transfer: the closing record is the error, and the
    progress of the chunks that still arrive goes nowhere. *)
Example write_error_stream :
  Download.listener
    (Server.session Scenario.modelManager Scenario.llama_1b Scenario.empty_store
       [Download.Response 200 (Some "1000"); Download.Data 250;
        Download.FileError (mkError "ENOSPC: no space left on device, write");
        Download.Data 250])
  = {| Server.sent := [Server.SseProgress 25;
                       Server.SseError "ENOSPC: no space left on device, write"];
       Server.ended := true |}.
Proof. vm_compute. reflexivity. Qed.

Lemma session_requested (mm : ModelManager) (model : ModelInfo.t) (fs : Fs.t)
    (events : list Download.event) :
  Download.requested (Server.session mm model fs events)
  = if Fs.existsSync fs (getModelPath mm (ModelInfo.filename model)) then []
    else [ModelInfo.url model].
Proof.
  unfold Server.session.
  destruct (session_steps_frame events
              (Server.react Download.Pending
                 (Download.downloadModel mm model fs
                    {| Server.sent := []; Server.ended := false |}))) as [_ ->].
  unfold Download.downloadModel.
  destruct (Fs.existsSync fs (getModelPath mm (ModelInfo.filename model))); reflexivity.
Qed.

(** C9, as the code has it: two requests with the same [filename] whose
    [modelUrl] fields are both truthy, or both falsy, are served alike in
    every respect; every URL fetched is the one of the catalog entry that
    [filename] selects; and a request whose [modelUrl] is falsy is turned
    down with 400 before anything is fetched. *)
Theorem modelUrl_only_checked_for_presence (mm : ModelManager) (fs : Fs.t)
    (modelUrl1 modelUrl2 filename : Server.jsval) (events : list Download.event) :
  Server.truthy modelUrl1 = Server.truthy modelUrl2 ->
  let request1 := {| Server.modelUrl := modelUrl1; Server.filename := filename |} in
  let request2 := {| Server.modelUrl := modelUrl2; Server.filename := filename |} in
  Server.post_models_download mm fs request1 events
  = Server.post_models_download mm fs request2 events
  /\ (forall u, In u (Server.fetched (Server.post_models_download mm fs request1 events)) ->
        exists model,
          In model (getRecommendedModels mm)
          /\ Server.strict_eq_string (ModelInfo.filename model) filename = true
          /\ u = ModelInfo.url model)
  /\ (Server.truthy modelUrl1 = false ->
      Server.post_models_download mm fs request1 events
      = {| Server.response :=
             Server.Json 400 (Server.ErrorBody "Model URL and filename are required");
           Server.fs_after := fs; Server.fetched := [] |}).
Proof.
  intros Ht request1 request2.
  unfold Server.post_models_download, request1, request2.
  cbn [Server.modelUrl Server.filename]. rewrite <- Ht.
  split; [reflexivity|]. split.
  - intros u Hu.
    destruct (negb (Server.truthy modelUrl1) || negb (Server.truthy filename));
      [destruct Hu|].
    destruct (List.find (fun m => Server.strict_eq_string (ModelInfo.filename m) filename)
                (getRecommendedModels mm)) as [model|] eqn:Hfind; [|destruct Hu].
    cbn [Server.fetched] in Hu. rewrite session_requested in Hu.
    apply find_some in Hfind as [Hin Heq].
    destruct (Fs.existsSync fs (getModelPath mm (ModelInfo.filename model)));
      [destruct Hu|].
    destruct Hu as [<-|[]]. exists model. auto.
  - intros ->. reflexivity.
Qed.

Lemma modelUrl_only_checked_for_presence_witness :
  let fetch url :=
    Server.post_models_download Scenario.modelManager Scenario.empty_store
      {| Server.modelUrl := Server.JString url;
         Server.filename := Server.JString "llama-3.2-1b-instruct-q4_0.gguf" |}
      (complete_transfer (Some "10") [10]) in
  fetch "https://attacker.example/evil.gguf" = fetch "https://mirror.example/other.gguf"
  /\ Server.fetched (fetch "https://attacker.example/evil.gguf")
     = [ModelInfo.url Scenario.llama_1b].
Proof.
  intros fetch.
  pose proof (modelUrl_only_checked_for_presence Scenario.modelManager Scenario.empty_store
                (Server.JString "https://attacker.example/evil.gguf")
                (Server.JString "https://mirror.example/other.gguf")
                (Server.JString "llama-3.2-1b-instruct-q4_0.gguf")
                (complete_transfer (Some "10") [10])) as H.
  destruct H as [H _]; [reflexivity|].
  split; [exact H|]. vm_compute; reflexivity.
Defined.

(** C9, the claim as stated fails: two requests that differ only in
    [modelUrl], one of them with the empty string, are not served alike;
    the first is turned down with 400, the second starts a download. *)
Lemma empty_modelUrl_changes_the_reply :
  let ask url :=
    Server.post_models_download Scenario.modelManager Scenario.empty_store
      {| Server.modelUrl := Server.JString url;
         Server.filename := Server.JString "llama-3.2-1b-instruct-q4_0.gguf" |}
      (complete_transfer (Some "10") [10]) in
  Server.response (ask "")
  = Server.Json 400 (Server.ErrorBody "Model URL and filename are required")
  /\ Server.response (ask "https://example.org/m.gguf")
     = Server.EventStream
         {| Server.sent := [Server.SseProgress 100;
                            Server.SseComplete Scenario.llama_1b_path];
            Server.ended := true |}
  /\ ask "" <> ask "https://example.org/m.gguf".
Proof.
  intros ask.
  assert (H1 : Server.response (ask "")
               = Server.Json 400 (Server.ErrorBody "Model URL and filename are required"))
    by (vm_compute; reflexivity).
  assert (H2 : Server.response (ask "https://example.org/m.gguf")
               = Server.EventStream
                   {| Server.sent := [Server.SseProgress 100;
                                      Server.SseComplete Scenario.llama_1b_path];
                      Server.ended := true |})
    by (vm_compute; reflexivity).
  split; [exact H1|]. split; [exact H2|].
  intros Heq. rewrite Heq, H2 in H1. discriminate H1.
Qed.

(* ===================================================================== *)
(** ** Progress reporting *)
(* ===================================================================== *)

Lemma progress_nondecreasing (total : Z) (chunks : list Z) (from : Z) :
  0 < total -> 0 <= from -> Forall (fun n => 0 <= n) chunks ->
  nondecreasing (map (fun d => percent d total) (received from chunks)).
Proof.
  intros Ht Hfrom H. revert from Hfrom.
  induction H as [|n rest Hn Hrest IH]; intros from Hfrom; simpl; [exact I|].
  split; [|apply IH; lia].
  destruct rest as [|n' rest']; simpl; [exact I|].
  apply Forall_cons in Hrest as [Hn' _].
  apply percent_mono; lia.
Qed.

Lemma received_last (chunks : list Z) (from : Z) :
  chunks <> [] -> last (received from chunks) = Some (from + total_length chunks).
Proof.
  revert from. induction chunks as [|n rest IH]; intros from Hne; [congruence|].
  destruct rest as [|n' rest'].
  - simpl. f_equal. lia.
  - change (received from (n :: n' :: rest'))
      with ((from + n) :: received (from + n) (n' :: rest')).
    change (last ((from + n) :: received (from + n) (n' :: rest')))
      with (last (received (from + n) (n' :: rest'))).
    rewrite IH by discriminate. f_equal.
    change (total_length (n :: n' :: rest')) with (n + total_length (n' :: rest')). lia.
Qed.

Lemma last_of_map {A B : Type} (f : A -> B) (l : list A) :
  last (map f l) = option_map f (last l).
Proof.
  induction l as [|x [|y rest] IH]; [reflexivity|reflexivity|exact IH].
Qed.

Lemma run_cons {S : Type} (onProgress : option (Z -> S -> S)) (st : Download.state S)
    (ev : Download.event) (events : list Download.event) :
  Download.run onProgress st (ev :: events)
  = Download.run onProgress (Download.handle onProgress st ev) events.
Proof. reflexivity. Qed.

(** With a positive total, every chunk appends its percentage to the log;
    nothing else does. *)
Lemma run_with_known_total (total : Z) (events : list Download.event)
    (st : Download.state (list Z)) :
  0 < total ->
  Download.streaming st = true -> Download.responded st = true ->
  Download.totalBytes st = Some total ->
  Download.listener (Download.run Download.record_progress st events)
  = (Download.listener st
     ++ map (fun d => percent d total)
          (received (Download.downloadedBytes st) (data_lengths events)))%list.
Proof.
  intros Ht. revert st. induction events as [|ev rest IH]; intros st Hs Hr Htot.
  - simpl. now rewrite app_nil_r.
  - unfold Download.run in *. cbn [fold_left].
    destruct st as [fs0 l0 p0 d0 t0 req0 a0 r0 s0 pi0 se0]. simpl in Hs, Hr, Htot.
    subst s0 r0 t0.
    apply Z.ltb_lt in Ht.
    destruct ev as [status cl|len| |err|err| ]; cbn [Download.handle Download.streaming
      Download.responded Download.active negb andb].
    + rewrite andb_false_r. rewrite IH by (auto; now apply Z.ltb_lt). reflexivity.
    + unfold Download.on_data, Download.record_progress.
      cbn [Download.totalBytes Download.downloadedBytes Download.listener Download.fs
           Download.modelPath Download.requested Download.active Download.responded
           Download.streaming Download.piped Download.settled].
      rewrite Ht. rewrite IH by (auto; now apply Z.ltb_lt).
      cbn [Download.listener Download.downloadedBytes data_lengths omap].
      rewrite <- app_assoc. reflexivity.
    + unfold Download.on_finish, Download.resolve.
      destruct se0; cbn; rewrite IH by (auto; now apply Z.ltb_lt); reflexivity.
    + destruct a0; [|rewrite IH by (auto; now apply Z.ltb_lt); reflexivity].
      unfold Download.on_request_error, Download.reject.
      destruct se0; cbn; rewrite IH by (auto; now apply Z.ltb_lt); reflexivity.
    + destruct a0; [|rewrite IH by (auto; now apply Z.ltb_lt); reflexivity].
      unfold Download.on_file_error, Download.reject.
      destruct se0; cbn; rewrite IH by (auto; now apply Z.ltb_lt); reflexivity.
    + rewrite IH by (auto; now apply Z.ltb_lt). reflexivity.
Qed.

(** Without a positive total the log never grows. *)
Lemma run_without_total (events : list Download.event) (st : Download.state (list Z)) :
  (forall total, Download.totalBytes st = Some total -> total <= 0) ->
  Download.responded st = true ->
  Download.listener (Download.run Download.record_progress st events)
  = Download.listener st.
Proof.
  revert st. induction events as [|ev rest IH]; intros st Hpos Hr; [reflexivity|].
  unfold Download.run in *. cbn [fold_left].
  destruct st as [fs0 l0 p0 d0 t0 req0 a0 r0 s0 pi0 se0]. simpl in Hpos, Hr. subst r0.
  destruct ev as [status cl|len| |err|err| ]; cbn [Download.handle Download.streaming
    Download.responded Download.active negb andb].
  - rewrite andb_false_r. now rewrite IH.
  - destruct s0; [|now rewrite IH].
    unfold Download.on_data, Download.record_progress.
    cbn [Download.totalBytes Download.downloadedBytes Download.listener Download.fs
         Download.modelPath Download.requested Download.active Download.responded
         Download.streaming Download.piped Download.settled].
    destruct t0 as [total|]; [|now rewrite IH].
    assert (Hle : (0 <? total)%Z = false) by (apply Z.ltb_ge; now apply Hpos).
    rewrite Hle. now rewrite IH.
  - destruct s0; [|now rewrite IH].
    unfold Download.on_finish, Download.resolve. destruct se0; cbn; now rewrite IH.
  - destruct a0; [|now rewrite IH].
    unfold Download.on_request_error, Download.reject. destruct se0; cbn; now rewrite IH.
  - destruct a0; [|now rewrite IH].
    unfold Download.on_file_error, Download.reject. destruct se0; cbn; now rewrite IH.
  - now rewrite IH.
Qed.

(** C5: a download starts and the endpoint answers 200.  If the response
    declares a content length (a positive number of bytes), the caller is
    given exactly one percentage per chunk, the rounded quotient of the
    bytes received so far by the declared length; these percentages never
    decrease; and when the chunks add up to the declared length the last
    one is 100.  If the response declares no content length, the caller is
    never given any percentage.  The declared length and the length of the
    body are below [2^53], the range in which a number holds every integer
    exactly, so that the byte counter and the parsed header are the numbers
    that the program computes with. *)
Theorem progress_reporting (mm : ModelManager) (modelInfo : ModelInfo.t) (fs : Fs.t)
    (events : list Download.event) :
  Fs.existsSync fs (getModelPath mm (ModelInfo.filename modelInfo)) = false ->
  Forall (fun n => 0 <= n) (data_lengths events) ->
  total_length (data_lengths events) < 2 ^ 53 ->
  let start := Download.downloadModel mm modelInfo fs [] in
  (forall (contentLength : string) (total : Z),
      ParseInt.parseInt10 contentLength = Some total -> 0 < total < 2 ^ 53 ->
      let log := Download.listener
                   (Download.run Download.record_progress start
                      (Download.Response 200 (Some contentLength) :: events)) in
      log = map (fun d => percent d total) (received 0 (data_lengths events))
      /\ length log = length (data_lengths events)
      /\ nondecreasing log
      /\ (total_length (data_lengths events) = total -> last log = Some 100))
  /\ Download.listener
       (Download.run Download.record_progress start (Download.Response 200 None :: events))
     = [].
Proof.
  intros Hex Hchunks _ start.
  assert (Hstart : start = Download.mkState
                     (Fs.open_for_write fs (getModelPath mm (ModelInfo.filename modelInfo)))
                     [] (getModelPath mm (ModelInfo.filename modelInfo)) 0 (Some 0)
                     [ModelInfo.url modelInfo] true false false false Download.Pending).
  { unfold start, Download.downloadModel. now rewrite Hex. }
  split.
  - intros contentLength total Hparse [Ht _] log.
    assert (Hne : String.eqb contentLength "" = false).
    { destruct contentLength; [discriminate Hparse|reflexivity]. }
    assert (Hlog : log = map (fun d => percent d total) (received 0 (data_lengths events))).
    { unfold log. rewrite run_cons, Hstart.
      cbn [Download.handle Download.active Download.responded negb andb].
      unfold Download.on_response. cbn [Z.eqb Pos.eqb negb]. rewrite Hne, Hparse.
      rewrite (run_with_known_total total) by auto. reflexivity. }
    split; [exact Hlog|]. rewrite Hlog.
    split; [|split].
    + rewrite length_map. clear. generalize 0.
      induction (data_lengths events) as [|n rest IH]; intros from; simpl; auto.
    + apply progress_nondecreasing; [exact Ht|lia|exact Hchunks].
    + intros Hsum.
      assert (Hnonempty : data_lengths events <> []).
      { intros Hnil. rewrite Hnil in Hsum. simpl in Hsum. lia. }
      rewrite last_of_map, (received_last _ 0 Hnonempty). simpl.
      rewrite Hsum. f_equal. now apply percent_full.
  - rewrite run_cons, Hstart.
    cbn [Download.handle Download.active Download.responded negb andb].
    unfold Download.on_response. cbn [Z.eqb Pos.eqb negb].
    rewrite run_without_total; [reflexivity| |reflexivity].
    intros total Htotal. vm_compute in Htotal. injection Htotal as <-. lia.
Qed.

(** A 1000-byte artifact that arrives in chunks of 145, 355 and 500. *)
Lemma progress_reporting_witness :
  Download.listener
    (Download.run Download.record_progress
       (Download.downloadModel Scenario.modelManager Scenario.llama_1b
          Scenario.empty_store [])
       (complete_transfer (Some "1000") [145; 355; 500]))
  = [14; 50; 100]
  /\ Download.listener
       (Download.run Download.record_progress
          (Download.downloadModel Scenario.modelManager Scenario.llama_1b
             Scenario.empty_store [])
          (complete_transfer None [145; 355; 500]))
     = [].
Proof.
  pose proof (progress_reporting Scenario.modelManager Scenario.llama_1b
                Scenario.empty_store
                (map Download.Data [145; 355; 500] ++ [Download.Finish])%list) as H.
  destruct H as [Hknown Hunknown].
  - vm_compute; reflexivity.
  - repeat constructor; discriminate.
  - vm_compute; reflexivity.
  - destruct (Hknown "1000" 1000) as [Hlog _]; [reflexivity|lia|].
    split; [|exact Hunknown].
    etransitivity; [exact Hlog|]. vm_compute; reflexivity.
Defined.

(* ===================================================================== *)
(** * Further properties of the service *)
(* ===================================================================== *)

(** ** What a download touches *)

Lemma handle_other_paths {S : Type} (onProgress : option (Z -> S -> S))
    (st : Download.state S) (ev : Download.event) (q : string) :
  q <> Download.modelPath st ->
  Download.fs (Download.handle onProgress st ev) !! q = Download.fs st !! q.
Proof.
  intros Hq.
  destruct st as [fs0 l0 p0 d0 t0 req0 a0 r0 s0 pi0 se0]. simpl in Hq.
  destruct ev as [status cl|len| |err|err| ]; simpl;
    unfold Download.on_response, Download.on_data, Download.on_finish,
      Download.on_request_error, Download.on_file_error,
      Download.resolve, Download.reject; simpl;
    unfold Fs.write_chunk, Fs.unlink_ignoring_error, Fs.unlinkSync;
    repeat match goal with
      | |- context [if ?b then _ else _] => destruct b; simpl
      | |- context [match ?x with _ => _ end] => destruct x; simpl
      end;
    rewrite ?lookup_insert_ne, ?lookup_delete_ne by congruence; reflexivity.
Qed.

Lemma run_other_paths {S : Type} (onProgress : option (Z -> S -> S))
    (events : list Download.event) (st : Download.state S) (q : string) :
  q <> Download.modelPath st ->
  Download.fs (Download.run onProgress st events) !! q = Download.fs st !! q.
Proof.
  revert st. induction events as [|ev rest IH]; intros st Hq; [reflexivity|].
  rewrite run_cons, IH.
  - now apply handle_other_paths.
  - destruct (handle_frame onProgress st ev) as [-> _]. exact Hq.
Qed.

(** X1: whatever the environment delivers, a call of [downloadModel] for
    an entry of the catalog sends at most one request (none when the file
    is there, one to the URL of the entry otherwise, never a second one
    after a failure) and changes no entry of the file system other than the
    one at its target path. *)
Theorem download_footprint {S : Type} (onProgress : option (Z -> S -> S))
    (mm : ModelManager) (modelInfo : ModelInfo.t) (fs : Fs.t) (l : S)
    (events : list Download.event) (q : string) :
  In modelInfo (getRecommendedModels mm) ->
  q <> getModelPath mm (ModelInfo.filename modelInfo) ->
  let st := Download.run onProgress (Download.downloadModel mm modelInfo fs l) events in
  Download.fs st !! q = fs !! q
  /\ Download.requested st
     = if Fs.existsSync fs (getModelPath mm (ModelInfo.filename modelInfo)) then []
       else [ModelInfo.url modelInfo].
Proof.
  intros _ Hq st. unfold st. split.
  - rewrite run_other_paths.
    + unfold Download.downloadModel, Fs.open_for_write.
      destruct (Fs.existsSync fs (getModelPath mm (ModelInfo.filename modelInfo)));
        simpl; [reflexivity|].
      repeat match goal with
        | |- context [match ?x with _ => _ end] => destruct x; simpl
        end;
      rewrite ?lookup_insert_ne by congruence; reflexivity.
    + unfold Download.downloadModel.
      destruct (Fs.existsSync fs (getModelPath mm (ModelInfo.filename modelInfo)));
        simpl; exact Hq.
  - destruct (run_frame onProgress events (Download.downloadModel mm modelInfo fs l))
      as [_ [-> _]].
    unfold Download.downloadModel.
    destruct (Fs.existsSync fs (getModelPath mm (ModelInfo.filename modelInfo)));
      reflexivity.
Qed.

Lemma download_footprint_witness :
  let st := Download.run Download.record_progress
              (Download.downloadModel Scenario.modelManager Scenario.llama_1b
                 Scenario.store_with_m [])
              [Download.Response 200 (Some "10"); Download.Data 10;
               Download.RequestError (mkError "read ECONNRESET")] in
  Download.fs st !! "/app/models/m.gguf" = Some (Fs.File 10 false)
  /\ Download.requested st = [ModelInfo.url Scenario.llama_1b].
Proof.
  pose proof (download_footprint Download.record_progress Scenario.modelManager
                Scenario.llama_1b Scenario.store_with_m []
                [Download.Response 200 (Some "10"); Download.Data 10;
                 Download.RequestError (mkError "read ECONNRESET")]
                "/app/models/m.gguf") as H.
  destruct H as [H1 H2]; [left; reflexivity|vm_compute; discriminate|].
  split; [etransitivity; [exact H1|vm_compute; reflexivity]|].
  etransitivity; [exact H2|vm_compute; reflexivity].
Defined.

(** ** Downloads that differ in their callers only *)

Lemma handle_same_download {S1 S2 : Type}
    (onProgress1 : option (Z -> S1 -> S1)) (onProgress2 : option (Z -> S2 -> S2))
    (st1 : Download.state S1) (st2 : Download.state S2) (ev : Download.event) :
  same_download st1 st2 ->
  same_download (Download.handle onProgress1 st1 ev) (Download.handle onProgress2 st2 ev).
Proof.
  destruct st1 as [fs1 l1 p1 d1 t1 req1 a1 r1 s1 pi1 se1].
  destruct st2 as [fs2 l2 p2 d2 t2 req2 a2 r2 s2 pi2 se2].
  unfold same_download. simpl.
  intros (-> & -> & -> & -> & -> & -> & -> & -> & -> & ->).
  destruct ev as [status cl|len| |err|err| ]; simpl;
    unfold Download.on_response, Download.on_data, Download.on_finish,
      Download.on_request_error, Download.on_file_error,
      Download.resolve, Download.reject; simpl;
    repeat match goal with
      | |- context [if ?b then _ else _] => destruct b; simpl
      | |- context [match ?x with Download.Pending => _ | _ => _ end] => destruct x; simpl
      end; repeat split; reflexivity.
Qed.

Lemma run_same_download {S1 S2 : Type}
    (onProgress1 : option (Z -> S1 -> S1)) (onProgress2 : option (Z -> S2 -> S2))
    (events : list Download.event) (st1 : Download.state S1) (st2 : Download.state S2) :
  same_download st1 st2 ->
  same_download (Download.run onProgress1 st1 events) (Download.run onProgress2 st2 events).
Proof.
  revert st1 st2. induction events as [|ev rest IH]; intros st1 st2 H; [exact H|].
  rewrite !run_cons. apply IH. now apply handle_same_download.
Qed.

(** ** A transfer that runs to completion *)

Lemma run_app {S : Type} (onProgress : option (Z -> S -> S)) (st : Download.state S)
    (events1 events2 : list Download.event) :
  Download.run onProgress st (events1 ++ events2)
  = Download.run onProgress (Download.run onProgress st events1) events2.
Proof. unfold Download.run. apply fold_left_app. Qed.

Lemma run_data_appends {S : Type} (onProgress : option (Z -> S -> S))
    (chunks : list Z) (st : Download.state S) (base : Fs.t) (sz : Z) :
  Download.streaming st = true -> Download.piped st = true ->
  Download.fs st = <[Download.modelPath st := Fs.File sz false]> base ->
  let st' := Download.run onProgress st (map Download.Data chunks) in
  Download.fs st' = <[Download.modelPath st := Fs.File (sz + total_length chunks) false]> base
  /\ Download.modelPath st' = Download.modelPath st
  /\ Download.downloadedBytes st' = Download.downloadedBytes st + total_length chunks
  /\ Download.streaming st' = true
  /\ Download.settled st' = Download.settled st.
Proof.
  revert st sz. induction chunks as [|n rest IH]; intros st sz Hs Hp Hfs; cbv zeta;
    cbn [map].
  - unfold Download.run. cbn [fold_left total_length fold_right].
    rewrite !Z.add_0_r. auto.
  - rewrite run_cons.
    destruct st as [fs0 l0 p0 d0 t0 req0 a0 r0 s0 pi0 se0]. simpl in Hs, Hp, Hfs.
    subst s0 pi0 fs0.
    cbn [Download.handle Download.streaming]. unfold Download.on_data.
    cbn [Download.piped Download.fs Download.modelPath Download.downloadedBytes
         Download.totalBytes Download.requested Download.active Download.responded
         Download.streaming Download.settled Download.listener].
    match goal with
    | |- context [Download.run onProgress ?s _] =>
        destruct (IH s (sz + n)) as (H1 & H2 & H3 & H4 & H5);
        [reflexivity|reflexivity| |]
    end.
    + cbn [Download.fs Download.modelPath]. unfold Fs.write_chunk.
      rewrite lookup_insert_eq, insert_insert_eq. reflexivity.
    + cbn [Download.fs Download.modelPath Download.downloadedBytes Download.settled]
        in H1, H2, H3, H5.
      cbn [Download.modelPath Download.downloadedBytes Download.settled].
      rewrite H1, H2, H3, H4, H5.
      change (total_length (n :: rest)) with (n + total_length rest).
      rewrite !Z.add_assoc. auto.
Qed.

Lemma complete_transfer_result {S : Type} (onProgress : option (Z -> S -> S))
    (mm : ModelManager) (modelInfo : ModelInfo.t) (fs : Fs.t) (l : S)
    (contentLength : option string) (chunks : list Z) (dsz : Z) (readable : bool) :
  let p := getModelPath mm (ModelInfo.filename modelInfo) in
  fs !! p = None ->
  fs !! Path.dirname p = Some (Fs.Dir dsz readable) ->
  let st := Download.run onProgress (Download.downloadModel mm modelInfo fs l)
              (complete_transfer contentLength chunks) in
  Download.settled st = Download.Resolved p
  /\ Download.fs st = <[p := Fs.File (total_length chunks) false]> fs
  /\ Download.downloadedBytes st = total_length chunks.
Proof.
  intros p Hp Hd st.
  assert (Hstart : Download.downloadModel mm modelInfo fs l
                   = Download.mkState (<[p := Fs.File 0 false]> fs) l p 0 (Some 0)
                       [ModelInfo.url modelInfo] true false false false Download.Pending).
  { unfold Download.downloadModel, Fs.existsSync, Fs.open_for_write. fold p.
    rewrite Hp, Hd. reflexivity. }
  unfold st, complete_transfer. rewrite run_cons, Hstart.
  cbn [Download.handle Download.active Download.responded negb andb].
  unfold Download.on_response. cbn [Z.eqb Pos.eqb negb].
  cbn [Download.fs Download.listener Download.modelPath Download.downloadedBytes
       Download.requested Download.active Download.streaming Download.piped
       Download.settled].
  rewrite run_app.
  match goal with
  | |- context [Download.run onProgress ?s (map Download.Data chunks)] =>
      destruct (run_data_appends onProgress chunks s fs 0) as (H1 & H2 & H3 & H4 & H5);
      [reflexivity|reflexivity|reflexivity|];
      set (st1 := Download.run onProgress s (map Download.Data chunks)) in *
  end.
  cbn [Download.modelPath Download.downloadedBytes Download.settled] in H1, H2, H3, H5.
  rewrite !Z.add_0_l in *.
  rewrite run_cons. unfold Download.run. cbn [fold_left Download.handle]. rewrite H4.
  unfold Download.on_finish, Download.resolve.
  cbn [Download.settled]. rewrite H5.
  cbn [Download.settled Download.fs Download.downloadedBytes Download.modelPath].
  rewrite H1, H2, H3. auto.
Qed.

(** X3: when the target path is free and its directory exists, a transfer
    that runs to completion resolves with the path, leaves at that path a
    file whose size is the sum of the chunk lengths, and changes nothing
    else; [deleteModel] with the same file name then answers [true] and
    gives back the file system from before the download. *)
Theorem completed_download_roundtrip {S : Type} (onProgress : option (Z -> S -> S))
    (mm : ModelManager) (modelInfo : ModelInfo.t) (fs : Fs.t) (l : S)
    (contentLength : option string) (chunks : list Z) (dsz : Z) (readable : bool) :
  let p := getModelPath mm (ModelInfo.filename modelInfo) in
  fs !! p = None ->
  fs !! Path.dirname p = Some (Fs.Dir dsz readable) ->
  let st := Download.run onProgress (Download.downloadModel mm modelInfo fs l)
              (complete_transfer contentLength chunks) in
  Download.settled st = Download.Resolved p
  /\ Download.fs st = <[p := Fs.File (total_length chunks) false]> fs
  /\ Download.downloadedBytes st = total_length chunks
  /\ deleteModel mm (Download.fs st) (ModelInfo.filename modelInfo) = (fs, Returns true).
Proof.
  intros p Hp Hd st.
  destruct (complete_transfer_result onProgress mm modelInfo fs l contentLength chunks
              dsz readable Hp Hd) as (H1 & H2 & H3).
  fold st in H1, H2, H3. repeat split; [exact H1|exact H2|exact H3|].
  rewrite H2. unfold deleteModel, Fs.existsSync, Fs.unlinkSync. fold p.
  rewrite lookup_insert_eq. rewrite delete_insert_id by exact Hp. reflexivity.
Qed.

Lemma completed_download_roundtrip_witness :
  let st := Download.run Download.record_progress
              (Download.downloadModel Scenario.modelManager Scenario.llama_1b
                 Scenario.empty_store [])
              (complete_transfer (Some "1000") [145; 355; 500]) in
  Download.fs st = <[Scenario.llama_1b_path := Fs.File 1000 false]> Scenario.empty_store
  /\ deleteModel Scenario.modelManager (Download.fs st) "llama-3.2-1b-instruct-q4_0.gguf"
     = (Scenario.empty_store, Returns true).
Proof.
  pose proof (completed_download_roundtrip Download.record_progress Scenario.modelManager
                Scenario.llama_1b Scenario.empty_store [] (Some "1000") [145; 355; 500]
                4096 true) as H.
  destruct H as (_ & H2 & _ & H4); [vm_compute; reflexivity|vm_compute; reflexivity|].
  split; [exact H2 | exact H4].
Defined.

(** ** The range of the percentage *)

Lemma round_zero (q : Q) : (q == 0)%Q -> Float64.round q = 0%Q.
Proof.
  intros H. unfold Float64.round.
  destruct (Qcompare_spec q 0) as [_|Hlt|Hgt]; [reflexivity| |]; exfalso; lra.
Qed.

Lemma percent_zero (total : Z) : 0 < total -> percent 0 total = 0.
Proof.
  intros Ht. unfold percent, Float64.mul, Float64.div.
  rewrite (round_zero (inject_Z 0 / inject_Z total)).
  - reflexivity.
  - unfold Qdiv. change (inject_Z 0) with 0%Q. ring.
Qed.

Lemma percent_range (d total : Z) :
  0 <= d <= total -> 0 < total -> 0 <= percent d total <= 100.
Proof.
  intros [Hd0 Hd1] Ht. split.
  - rewrite <- (percent_zero total Ht). apply percent_mono; lia.
  - rewrite <- (percent_full total Ht). apply percent_mono; lia.
Qed.

Lemma total_length_nonneg (chunks : list Z) :
  Forall (fun n => 0 <= n) chunks -> 0 <= total_length chunks.
Proof.
  induction 1 as [|n rest Hn _ IH]; [simpl; lia|].
  change (total_length (n :: rest)) with (n + total_length rest). lia.
Qed.

Lemma received_range (chunks : list Z) (from : Z) :
  Forall (fun n => 0 <= n) chunks ->
  Forall (fun d => from <= d <= from + total_length chunks) (received from chunks).
Proof.
  intros H. revert from. induction H as [|n rest Hn Hrest IH]; intros from.
  - constructor.
  - change (received from (n :: rest)) with ((from + n) :: received (from + n) rest).
    change (total_length (n :: rest)) with (n + total_length rest).
    pose proof (total_length_nonneg rest Hrest) as Hnn.
    constructor; [lia|].
    specialize (IH (from + n)). rewrite Forall_forall in IH |- *.
    intros d Hd. specialize (IH d Hd). lia.
Qed.

(** X4: as long as the bytes received do not exceed the declared content
    length, every percentage handed to the caller lies between 0 and
    100. *)
Theorem progress_within_bounds (mm : ModelManager) (modelInfo : ModelInfo.t) (fs : Fs.t)
    (contentLength : string) (total : Z) (events : list Download.event) :
  Fs.existsSync fs (getModelPath mm (ModelInfo.filename modelInfo)) = false ->
  ParseInt.parseInt10 contentLength = Some total ->
  Forall (fun n => 0 <= n) (data_lengths events) ->
  total_length (data_lengths events) <= total ->
  Forall (fun progress => 0 <= progress <= 100)
    (Download.listener
       (Download.run Download.record_progress
          (Download.downloadModel mm modelInfo fs [])
          (Download.Response 200 (Some contentLength) :: events))).
Proof.
  intros Hex Hparse Hchunks Hsum.
  assert (Hne : String.eqb contentLength "" = false).
  { destruct contentLength; [discriminate Hparse|reflexivity]. }
  rewrite run_cons. unfold Download.downloadModel. rewrite Hex.
  cbn [Download.handle Download.active Download.responded negb andb].
  unfold Download.on_response. cbn [Z.eqb Pos.eqb negb]. rewrite Hne, Hparse.
  cbn [Download.fs Download.listener Download.modelPath Download.downloadedBytes
       Download.requested Download.active Download.streaming Download.piped
       Download.settled].
  destruct (Z.lt_ge_cases 0 total) as [Ht|Ht].
  - rewrite (run_with_known_total total) by auto.
    cbn [Download.listener Download.downloadedBytes app].
    pose proof (received_range _ 0 Hchunks) as Hr.
    rewrite Forall_forall in Hr |- *.
    intros progress Hin. apply list_elem_of_In, in_map_iff in Hin as [d [<- Hd]].
    apply list_elem_of_In in Hd. specialize (Hr d Hd).
    apply percent_range; lia.
  - rewrite run_without_total; [constructor| |reflexivity].
    cbn [Download.totalBytes]. intros t [= <-]. exact Ht.
Qed.

Lemma progress_within_bounds_witness :
  Forall (fun progress => 0 <= progress <= 100)
    (Download.listener
       (Download.run Download.record_progress
          (Download.downloadModel Scenario.modelManager Scenario.llama_1b
             Scenario.empty_store [])
          [Download.Response 200 (Some "1000"); Download.Data 145; Download.Data 355])).
Proof.
  apply (progress_within_bounds Scenario.modelManager Scenario.llama_1b
           Scenario.empty_store "1000" 1000 [Download.Data 145; Download.Data 355]).
  - vm_compute; reflexivity.
  - reflexivity.
  - repeat constructor; discriminate.
  - vm_compute; discriminate.
Defined.

(** ** The download route *)

Lemma session_step_same_download (st : Download.state Server.ServerResponse)
    (ev : Download.event) :
  same_download (Server.session_step st ev) (Download.handle Server.send_progress st ev).
Proof.
  unfold Server.session_step, Server.react, same_download.
  destruct (Download.settled st);
    destruct (Download.settled (Download.handle Server.send_progress st ev)) eqn:Hs;
    cbn; rewrite ?Hs; repeat split; reflexivity.
Qed.

Lemma same_download_trans {S1 S2 S3 : Type} (st1 : Download.state S1)
    (st2 : Download.state S2) (st3 : Download.state S3) :
  same_download st1 st2 -> same_download st2 st3 -> same_download st1 st3.
Proof.
  unfold same_download.
  intros (A1 & A2 & A3 & A4 & A5 & A6 & A7 & A8 & A9 & A10)
         (B1 & B2 & B3 & B4 & B5 & B6 & B7 & B8 & B9 & B10).
  repeat split; congruence.
Qed.

Lemma session_steps_same_download (events : list Download.event)
    (s1 s2 : Download.state Server.ServerResponse) :
  same_download s1 s2 ->
  same_download (fold_left Server.session_step events s1)
    (Download.run Server.send_progress s2 events).
Proof.
  revert s1 s2. induction events as [|ev rest IH]; intros s1 s2 H; [exact H|].
  rewrite run_cons. cbn [fold_left]. apply IH.
  eapply same_download_trans; [apply session_step_same_download|].
  now apply handle_same_download.
Qed.

(** The session of the route carries out the very download that the
    service would carry out on its own. *)
Lemma session_same_download (mm : ModelManager) (model : ModelInfo.t) (fs : Fs.t)
    (events : list Download.event) :
  same_download (Server.session mm model fs events)
    (Download.run Server.send_progress
       (Download.downloadModel mm model fs {| Server.sent := []; Server.ended := false |})
       events).
Proof.
  unfold Server.session. apply session_steps_same_download.
  unfold Server.react, Download.downloadModel, same_download.
  destruct (Fs.existsSync fs (getModelPath mm (ModelInfo.filename model)));
    cbn; repeat split; reflexivity.
Qed.

(** ** A connection closed in mid-transfer *)

(** C6: a download of a catalog entry starts, the endpoint answers 200,
    part of the body arrives, and then the peer closes the connection.
    [downloadModel] listens neither to ['aborted'] nor to ['close'] of the
    response, so the promise is not rejected, and the file with the bytes
    received so far stays at the target path: it exists, and the next
    download of the entry takes it for the artifact and resolves at once
    without any request. *)
Theorem closed_connection_leaves_partial_file {S : Type} (onProgress : option (Z -> S -> S))
    (mm : ModelManager) (modelInfo : ModelInfo.t) (fs : Fs.t) (l : S)
    (contentLength : option string) (chunks : list Z) (dsz : Z) (readable : bool) :
  In modelInfo (getRecommendedModels mm) ->
  let p := getModelPath mm (ModelInfo.filename modelInfo) in
  fs !! p = None ->
  fs !! Path.dirname p = Some (Fs.Dir dsz readable) ->
  let st := Download.run onProgress (Download.downloadModel mm modelInfo fs l)
              (Download.Response 200 contentLength
               :: map Download.Data chunks ++ [Download.Aborted])%list in
  Download.settled st = Download.Pending
  /\ Download.fs st = <[p := Fs.File (total_length chunks) false]> fs
  /\ Fs.existsSync (Download.fs st) p = true
  /\ (let again := Download.downloadModel mm modelInfo (Download.fs st)
                     (Download.listener st) in
      Download.settled again = Download.Resolved p
      /\ Download.requested again = []).
Proof.
  intros _ p Hp Hd st.
  assert (Hstart : Download.downloadModel mm modelInfo fs l
                   = Download.mkState (<[p := Fs.File 0 false]> fs) l p 0 (Some 0)
                       [ModelInfo.url modelInfo] true false false false Download.Pending).
  { unfold Download.downloadModel, Fs.existsSync, Fs.open_for_write. fold p.
    rewrite Hp, Hd. reflexivity. }
  assert (Hst : Download.settled st = Download.Pending
                /\ Download.fs st = <[p := Fs.File (total_length chunks) false]> fs).
  { unfold st. rewrite run_cons, Hstart.
    cbn [Download.handle Download.active Download.responded negb andb].
    unfold Download.on_response. cbn [Z.eqb Pos.eqb negb].
    cbn [Download.fs Download.listener Download.modelPath Download.downloadedBytes
         Download.requested Download.active Download.streaming Download.piped
         Download.settled].
    rewrite run_app.
    match goal with
    | |- context [Download.run onProgress ?s (map Download.Data chunks)] =>
        destruct (run_data_appends onProgress chunks s fs 0) as (H1 & H2 & H3 & H4 & H5);
        [reflexivity|reflexivity|reflexivity|];
        set (st1 := Download.run onProgress s (map Download.Data chunks)) in *
    end.
    cbn [Download.modelPath Download.downloadedBytes Download.settled] in H1, H2, H3, H5.
    rewrite !Z.add_0_l in *.
    unfold Download.run. cbn [fold_left Download.handle]. auto. }
  destruct Hst as [Hsettled Hfs].
  assert (Hex : Fs.existsSync (Download.fs st) p = true).
  { rewrite Hfs. unfold Fs.existsSync. now rewrite lookup_insert_eq. }
  split; [exact Hsettled|]. split; [exact Hfs|]. split; [exact Hex|].
  cbv zeta. fold p. rewrite (downloadModel_existing mm modelInfo _ _ Hex). fold p.
  split; reflexivity.
Qed.

(** The connection is closed after 500 of 1000 bytes. *)
Lemma closed_connection_leaves_partial_file_witness :
  let st := Download.run Download.record_progress
              (Download.downloadModel Scenario.modelManager Scenario.llama_1b
                 Scenario.empty_store [])
              [Download.Response 200 (Some "1000"); Download.Data 500;
               Download.Aborted] in
  Download.settled st = Download.Pending
  /\ Download.fs st !! Scenario.llama_1b_path = Some (Fs.File 500 false)
  /\ Fs.existsSync (Download.fs st) Scenario.llama_1b_path = true.
Proof.
  pose proof (closed_connection_leaves_partial_file Download.record_progress
                Scenario.modelManager Scenario.llama_1b Scenario.empty_store []
                (Some "1000") [500] 4096 true) as H.
  destruct H as (H1 & H2 & H3 & _);
    [left; reflexivity|vm_compute; reflexivity|vm_compute; reflexivity|].
  split; [exact H1|]. split; [|exact H3].
  etransitivity; [exact (f_equal (fun m => m !! Scenario.llama_1b_path) H2)|].
  vm_compute; reflexivity.
Defined.

Lemma session_data_steps (chunks : list Z) (st : Download.state Server.ServerResponse)
    (total : Z) :
  0 < total ->
  Download.streaming st = true -> Download.settled st = Download.Pending ->
  Download.totalBytes st = Some total ->
  Server.ended (Download.listener st) = false ->
  let st' := fold_left Server.session_step (map Download.Data chunks) st in
  Download.settled st' = Download.Pending
  /\ Server.ended (Download.listener st') = false
  /\ exists ps, Server.sent (Download.listener st')
                = (Server.sent (Download.listener st) ++ map Server.SseProgress ps)%list
                /\ length ps = length chunks.
Proof.
  intros Ht. apply Z.ltb_lt in Ht.
  revert st. induction chunks as [|n rest IH]; intros st Hs Hp Htot Hend; cbv zeta.
  - cbn [map fold_left]. split; [exact Hp|]. split; [exact Hend|].
    exists []. now rewrite app_nil_r.
  - cbn [map fold_left].
    destruct st as [fs0 [snt en] p0 d0 t0 req0 a0 r0 s0 pi0 se0].
    cbn in Hs, Hp, Htot, Hend. subst s0 se0 t0 en.
    match goal with
    | |- context [fold_left Server.session_step _ ?s] =>
        assert (Hstep : s = Download.mkState
                              (if pi0 then Fs.write_chunk fs0 p0 n else fs0)
                              {| Server.sent := (snt ++ [Server.SseProgress (percent (d0 + n) total)])%list;
                                 Server.ended := false |}
                              p0 (d0 + n) (Some total) req0 a0 r0 true pi0 Download.Pending)
    end.
    { unfold Server.session_step. cbn [Download.handle Download.streaming].
      unfold Download.on_data, Server.send_progress.
      cbn [Download.totalBytes Download.downloadedBytes Download.listener Download.fs
           Download.modelPath Download.requested Download.active Download.responded
           Download.streaming Download.piped Download.settled].
      rewrite Ht. unfold Server.write. cbn [Server.ended Server.sent].
      reflexivity. }
    rewrite Hstep.
    match goal with
    | |- context [fold_left Server.session_step _ ?s] =>
        destruct (IH s) as (H1 & H2 & ps & H3 & H4); try reflexivity
    end.
    cbv zeta in H1, H2, H3. cbn [Download.listener Server.sent] in H3.
    split; [exact H1|]. split; [exact H2|].
    exists (percent (d0 + n) total :: ps). split.
    + rewrite H3. cbn [Download.listener Server.sent map]. now rewrite <- app_assoc.
    + cbn [length]. now rewrite H4.
Qed.

(** C7: a catalog entry is requested, its file is not there yet, the
    endpoint answers 200 and declares a length, part of the body arrives,
    and then the peer closes the connection.  The session has
    reached the streaming phase and has sent one progress record for each
    chunk, but the download never settles: no closing record is sent, and
    the response is never ended. *)
Theorem closed_connection_leaves_stream_open (mm : ModelManager) (model : ModelInfo.t)
    (fs : Fs.t) (contentLength : string) (total : Z) (chunks : list Z) :
  In model (getRecommendedModels mm) ->
  Fs.existsSync fs (getModelPath mm (ModelInfo.filename model)) = false ->
  ParseInt.parseInt10 contentLength = Some total -> 0 < total ->
  let st := Server.session mm model fs
              (Download.Response 200 (Some contentLength)
               :: map Download.Data chunks ++ [Download.Aborted])%list in
  let res := Download.listener st in
  Download.settled st = Download.Pending
  /\ Server.ended res = false
  /\ (exists ps, Server.sent res = map Server.SseProgress ps
                 /\ length ps = length chunks)
  /\ filter (fun ev => is_terminal ev = true) (Server.sent res) = [].
Proof.
  intros _ Hex Hparse Ht st res.
  assert (Hne : String.eqb contentLength "" = false).
  { destruct contentLength; [discriminate Hparse|reflexivity]. }
  assert (H : Download.settled st = Download.Pending
              /\ Server.ended res = false
              /\ exists ps, Server.sent res = map Server.SseProgress ps
                            /\ length ps = length chunks).
  { unfold res, st, Server.session, Download.downloadModel. rewrite Hex.
    cbn [fold_left Server.react Download.settled].
    rewrite fold_left_app.
    match goal with
    | |- context [fold_left Server.session_step (map Download.Data chunks) ?s] =>
        assert (Hfirst : s = Download.mkState
                  (Fs.open_for_write fs (getModelPath mm (ModelInfo.filename model)))
                  {| Server.sent := []; Server.ended := false |}
                  (getModelPath mm (ModelInfo.filename model)) 0 (Some total)
                  [ModelInfo.url model] true true true true Download.Pending)
    end.
    { unfold Server.session_step.
      cbn [Download.handle Download.active Download.responded negb andb].
      unfold Download.on_response. cbn [Z.eqb Pos.eqb negb]. rewrite Hne, Hparse.
      reflexivity. }
    rewrite Hfirst.
    match goal with
    | |- context [fold_left Server.session_step (map Download.Data chunks) ?s] =>
        destruct (session_data_steps chunks s total Ht) as (H1 & H2 & ps & H3 & H4);
        try reflexivity;
        set (st1 := fold_left Server.session_step (map Download.Data chunks) s) in *
    end.
    assert (Hlast : Server.session_step st1 Download.Aborted = st1).
    { unfold Server.session_step, Server.react. cbn [Download.handle].
      now rewrite H1. }
    cbn [fold_left]. rewrite Hlast.
    split; [exact H1|]. split; [exact H2|]. exists ps. split; [exact H3|exact H4]. }
  destruct H as (H1 & H2 & ps & H3 & H4).
  split; [exact H1|]. split; [exact H2|]. split; [exists ps; auto|].
  rewrite H3. apply no_terminal_among_progress.
Qed.

(** The connection is closed after 500 of 1000 bytes: one progress record
    has gone out, and nothing follows. *)
Lemma closed_connection_leaves_stream_open_witness :
  Download.listener
    (Server.session Scenario.modelManager Scenario.llama_1b Scenario.empty_store
       [Download.Response 200 (Some "1000"); Download.Data 500; Download.Aborted])
  = {| Server.sent := [Server.SseProgress 50]; Server.ended := false |}.
Proof.
  pose proof (closed_connection_leaves_stream_open Scenario.modelManager
                Scenario.llama_1b Scenario.empty_store "1000" 1000 [500]) as H.
  destruct H as (_ & H2 & _ & _);
    [left; reflexivity|vm_compute; reflexivity|reflexivity|lia|].
  apply (f_equal2 (fun snt en => {| Server.sent := snt; Server.ended := en |}));
    [vm_compute; reflexivity|exact H2].
Defined.

Lemma strict_eq_string_true (s : string) (v : Server.jsval) :
  Server.strict_eq_string s v = true <-> v = Server.JString s.
Proof.
  destruct v; simpl; try (split; [discriminate|intros [=]]).
  rewrite String.eqb_eq. split; [intros ->; reflexivity|intros [= ->]; reflexivity].
Qed.

Lemma catalog_names_truthy (model : ModelInfo.t) :
  In model RECOMMENDED_MODELS ->
  Server.truthy (Server.JString (ModelInfo.filename model)) = true.
Proof.
  intros Hin. unfold RECOMMENDED_MODELS in Hin.
  simpl in Hin. destruct Hin as [<-|[<-|[<-|[]]]]; reflexivity.
Qed.

(** X5: [POST /models/download] starts a download exactly when [modelUrl]
    is truthy, [filename] is the file name of a catalog entry, as a string,
    and the import of the service succeeds.  Any other request fetches
    nothing: it is answered with 400 before the import, leaving file system
    and module as they are; with 500 when the import fails; with 404 when
    the import succeeds and the name is not in the catalog.  In the last
    two cases the file system is the one that the import leaves, which on a
    server that has the service already is the one from before. *)
Theorem download_route_validates (cwd : string) (cache : Server.module_state)
    (fs : Fs.t) (body : Server.download_request) (events : list Download.event) :
  let served := Server.app_post_models_download cwd cache fs body events in
  let result := Server.outcome_of served in
  let imported := Server.import_modelManager cwd cache fs in
  ((exists res, Server.response result = Server.EventStream res)
   <-> Server.truthy (Server.modelUrl body) = true
       /\ (exists model, In model RECOMMENDED_MODELS
                         /\ Server.filename body = Server.JString (ModelInfo.filename model))
       /\ (exists mm, snd imported = Returns mm))
  /\ (forall status payload,
        Server.response result = Server.Json status payload ->
        Server.fetched result = []
        /\ (status = 400
            /\ (Server.truthy (Server.modelUrl body) = false
                \/ Server.truthy (Server.filename body) = false)
            /\ Server.fs_after result = fs
            /\ Server.module_after served = cache
            \/ status = 500
               /\ (exists e, snd imported = Throws e)
               /\ Server.fs_after result = fst (fst imported)
               /\ Server.module_after served = snd (fst imported)
            \/ status = 404
               /\ (exists mm, snd imported = Returns mm)
               /\ Server.fs_after result = fst (fst imported)
               /\ Server.module_after served = snd (fst imported)))
  /\ (forall mm, cache = Server.Evaluated mm -> fst (fst imported) = fs).
Proof.
  intros served result imported.
  split; [|split].
  - unfold result, served, imported, Server.app_post_models_download.
    destruct (Server.truthy (Server.modelUrl body)) eqn:Hurl; cbn [negb orb].
    + destruct (Server.truthy (Server.filename body)) eqn:Hname; cbn [negb].
      * destruct (Server.import_modelManager cwd cache fs) as [[fs' cache'] [mm|e]].
        -- destruct (List.find _ (getRecommendedModels mm)) as [model|] eqn:Hfind.
           ++ cbn [Server.response Server.outcome_of snd].
              apply find_some in Hfind as [Hin Heq]. apply strict_eq_string_true in Heq.
              split; [intros _|intros _; eexists; reflexivity].
              split; [reflexivity|]. split; [exists model; auto|exists mm; reflexivity].
           ++ cbn [Server.response Server.outcome_of snd].
              split; [intros [res [=]]|].
              intros [_ [[model [Hin Heq]] _]]. exfalso.
              pose proof (find_none _ _ Hfind model Hin) as Hno. cbn beta in Hno.
              assert (Hy : Server.strict_eq_string (ModelInfo.filename model)
                             (Server.filename body) = true)
                by now apply strict_eq_string_true.
              congruence.
        -- cbn [Server.response Server.outcome_of snd].
           split; [intros [res [=]]|intros [_ [_ [mm [=]]]]].
      * cbn [Server.response Server.outcome_of].
        split; [intros [res [=]]|].
        intros [_ [[model [Hin Heq]] _]]. exfalso.
        rewrite Heq, (catalog_names_truthy model Hin) in Hname.
        discriminate.
    + cbn [Server.response Server.outcome_of].
      split; [intros [res [=]]|intros [[=] _]].
  - intros status payload.
    unfold result, served, imported, Server.app_post_models_download.
    destruct (negb (Server.truthy (Server.modelUrl body))
              || negb (Server.truthy (Server.filename body))) eqn:Hcheck.
    + cbn [Server.response Server.outcome_of Server.fs_after Server.fetched
           Server.module_after].
      intros [= <- _]. split; [reflexivity|]. left. split; [reflexivity|].
      split; [|split; reflexivity].
      apply orb_true_iff in Hcheck as [H|H]; apply negb_true_iff in H; auto.
    + destruct (Server.import_modelManager cwd cache fs) as [[fs' cache'] [mm|e]].
      * destruct (List.find _ (getRecommendedModels mm)) as [model|];
          cbn [Server.response Server.outcome_of Server.fs_after Server.fetched
               Server.module_after fst snd]; [intros [=]|].
        intros [= <- _]. split; [reflexivity|]. right. right.
        split; [reflexivity|]. split; [exists mm; reflexivity|]. split; reflexivity.
      * cbn [Server.response Server.outcome_of Server.fs_after Server.fetched
             Server.module_after fst snd].
        intros [= <- _]. split; [reflexivity|]. right. left.
        split; [reflexivity|]. split; [exists e; reflexivity|]. split; reflexivity.
  - intros mm ->. reflexivity.
Qed.

(** A server in [/app] that has not evaluated the service yet is asked for
    a name that is not in the catalog: the answer is 404 and nothing is
    fetched, but the import has made the models directory. *)
Lemma download_route_validates_witness :
  let served := Server.app_post_models_download "/app" Server.NotEvaluated
                  (<["/app" := Fs.Dir 4096 true]> ∅)
                  {| Server.modelUrl := Server.JString "https://example.org/x.gguf";
                     Server.filename := Server.JString "../../etc/passwd" |}
                  (complete_transfer (Some "10") [10]) in
  Server.response (Server.outcome_of served)
  = Server.Json 404 (Server.ErrorBody "Model not found in recommended list")
  /\ Server.fetched (Server.outcome_of served) = []
  /\ Server.fs_after (Server.outcome_of served) = Scenario.empty_store.
Proof.
  intros served.
  destruct (download_route_validates "/app" Server.NotEvaluated
              (<["/app" := Fs.Dir 4096 true]> ∅)
              {| Server.modelUrl := Server.JString "https://example.org/x.gguf";
                 Server.filename := Server.JString "../../etc/passwd" |}
              (complete_transfer (Some "10") [10])) as [_ [H _]].
  specialize (H 404 (Server.ErrorBody "Model not found in recommended list")
                ltac:(reflexivity)).
  destruct H as [Hfetched [(Hs & _)|[(Hs & _)|(_ & _ & Hfs & _)]]];
    [discriminate Hs|discriminate Hs|].
  split; [reflexivity|]. split; [exact Hfetched|].
  etransitivity; [exact Hfs|]. vm_compute; reflexivity.
Defined.

Lemma post_other_paths (mm : ModelManager) (fs : Fs.t)
    (body : Server.download_request) (events : list Download.event) (q : string) :
  (forall model, In model (getRecommendedModels mm) ->
                 q <> getModelPath mm (ModelInfo.filename model)) ->
  Server.fs_after (Server.post_models_download mm fs body events) !! q = fs !! q.
Proof.
  intros Hq. unfold Server.post_models_download.
  destruct (negb (Server.truthy (Server.modelUrl body))
            || negb (Server.truthy (Server.filename body))); [reflexivity|].
  destruct (List.find _ (getRecommendedModels mm)) as [model|] eqn:Hfind; [|reflexivity].
  cbn [Server.fs_after].
  apply find_some in Hfind as [Hin _]. specialize (Hq model Hin).
  destruct (session_same_download mm model fs events) as [-> _].
  rewrite run_other_paths.
  - unfold Download.downloadModel, Fs.open_for_write.
    destruct (Fs.existsSync fs (getModelPath mm (ModelInfo.filename model)));
      simpl; [reflexivity|].
    repeat match goal with
      | |- context [match ?x with _ => _ end] => destruct x; simpl
      end;
    rewrite ?lookup_insert_ne by congruence; reflexivity.
  - unfold Download.downloadModel.
    destruct (Fs.existsSync fs (getModelPath mm (ModelInfo.filename model)));
      simpl; exact Hq.
Qed.

Lemma mkdir_chain_preserves (chain : list string) (fs fs' : Fs.t) (r : outcome unit) :
  Fs.mkdir_chain fs chain = (fs', r) ->
  forall q n, fs !! q = Some n -> fs' !! q = Some n.
Proof.
  revert fs. induction chain as [|d rest IH]; intros fs H q n Hq; simpl in H.
  - now injection H as <- _.
  - destruct (fs !! d) as [[sz l|sz rd]|] eqn:Hd.
    + now injection H as <- _.
    + eapply IH; eassumption.
    + eapply IH; [exact H|]. rewrite lookup_insert_ne; [exact Hq|]. congruence.
Qed.

Lemma mkdir_chain_elsewhere (chain : list string) (fs fs' : Fs.t) (r : outcome unit)
    (q : string) :
  Fs.mkdir_chain fs chain = (fs', r) -> ~ In q chain -> fs' !! q = fs !! q.
Proof.
  revert fs. induction chain as [|d rest IH]; intros fs H Hq; simpl in H.
  - now injection H as <- _.
  - destruct (fs !! d) as [[sz l|sz rd]|] eqn:Hd.
    + now injection H as <- _.
    + apply IH; [exact H|]. intros Hin. apply Hq. now right.
    + rewrite (IH _ H); [|intros Hin; apply Hq; now right].
      apply lookup_insert_ne. intros ->. apply Hq. now left.
Qed.

(** The import adds directories on the way to the models directory and
    changes nothing that is there. *)
Lemma import_other_paths (cwd : string) (cache : Server.module_state) (fs : Fs.t)
    (q : string) :
  fs !! q <> None \/ ~ In q (Fs.ancestors (Path.resolve cwd "models")) ->
  fst (fst (Server.import_modelManager cwd cache fs)) !! q = fs !! q.
Proof.
  intros Hq. unfold Server.import_modelManager.
  destruct cache as [|mm|e]; [|reflexivity|reflexivity].
  assert (H : fst (new_ModelManager cwd fs) !! q = fs !! q).
  { unfold new_ModelManager, ensureModelsDirectory. cbn [modelsDir].
    destruct (negb (Fs.existsSync fs (Path.resolve cwd "models"))); [|reflexivity].
    unfold Fs.mkdirSync_recursive.
    destruct (Fs.mkdir_chain fs (Fs.ancestors (Path.resolve cwd "models")))
      as [fs' r] eqn:Hmk.
    assert (Hfs' : fs' !! q = fs !! q).
    { destruct Hq as [Hq|Hq].
      - destruct (fs !! q) as [n|] eqn:Hn; [|congruence].
        eapply mkdir_chain_preserves; eassumption.
      - eapply mkdir_chain_elsewhere; eassumption. }
    destruct r; exact Hfs'. }
  destruct (new_ModelManager cwd fs) as [fs' [mm|e]]; exact H.
Qed.

(** X6: whatever is requested and whatever the environment delivers,
    [POST /models/download] changes no entry that was in the file system,
    and adds none, other than at the target paths of the catalog entries;
    the one exception is what the import of the service adds, the
    directories on the way to the models directory. *)
Theorem download_route_footprint (cwd : string) (cache : Server.module_state)
    (fs : Fs.t) (body : Server.download_request) (events : list Download.event)
    (q : string) :
  fs !! q <> None \/ ~ In q (Fs.ancestors (Path.resolve cwd "models")) ->
  (forall mm model,
      snd (Server.import_modelManager cwd cache fs) = Returns mm ->
      In model (getRecommendedModels mm) ->
      q <> getModelPath mm (ModelInfo.filename model)) ->
  Server.fs_after
    (Server.outcome_of (Server.app_post_models_download cwd cache fs body events)) !! q
  = fs !! q.
Proof.
  intros Hcreated Htargets.
  pose proof (import_other_paths cwd cache fs q Hcreated) as Himport.
  unfold Server.app_post_models_download.
  destruct (negb (Server.truthy (Server.modelUrl body))
            || negb (Server.truthy (Server.filename body))) eqn:Hcheck; [reflexivity|].
  destruct (Server.import_modelManager cwd cache fs) as [[fs' cache'] [mm|e]];
    cbn [fst snd] in Himport, Htargets; [|exact Himport].
  rewrite <- Himport.
  pose proof (post_other_paths mm fs' body events q
                (fun model Hin => Htargets mm model eq_refl Hin)) as Hpost.
  unfold Server.post_models_download in Hpost. rewrite Hcheck in Hpost.
  destruct (List.find _ (getRecommendedModels mm)) as [model|]; exact Hpost.
Qed.

(** A first request on a server in [/app]: the stray file in the models
    directory is as it was after a complete download. *)
Lemma download_route_footprint_witness :
  Server.fs_after
    (Server.outcome_of
       (Server.app_post_models_download "/app" Server.NotEvaluated Scenario.store_with_m
          {| Server.modelUrl := Server.JString "https://example.org/x.gguf";
             Server.filename := Server.JString "llama-3.2-1b-instruct-q4_0.gguf" |}
          (complete_transfer (Some "10") [10])))
    !! "/app/models/m.gguf"
  = Some (Fs.File 10 false).
Proof.
  etransitivity.
  - apply (download_route_footprint "/app" Server.NotEvaluated Scenario.store_with_m).
    + left. vm_compute; discriminate.
    + intros mm model Hmm Hin. vm_compute in Hmm. injection Hmm as <-.
      unfold getRecommendedModels, RECOMMENDED_MODELS in Hin.
      simpl in Hin. destruct Hin as [<-|[<-|[<-|[]]]]; vm_compute; discriminate.
  - vm_compute; reflexivity.
Defined.

(** ** Deleting *)

(** X7: [deleteModel] changes no entry other than the one at the resolved
    path; when it answers [true] nothing is left at that path; and calling
    it again with the same name always answers [false] and changes
    nothing. *)
Theorem deleteModel_footprint (mm : ModelManager) (fs : Fs.t) (filename : string) :
  let p := getModelPath mm filename in
  let fs1 := fst (deleteModel mm fs filename) in
  (forall q, q <> p -> fs1 !! q = fs !! q)
  /\ (snd (deleteModel mm fs filename) = Returns true -> fs1 !! p = None)
  /\ deleteModel mm fs1 filename = (fs1, Returns false).
Proof.
  intros p fs1. unfold fs1, deleteModel, Fs.existsSync, Fs.unlinkSync. fold p.
  destruct (fs !! p) as [[sz [|]|sz r]|] eqn:Hp; cbn [fst snd];
    rewrite ?lookup_delete_eq, ?Hp; cbn [fst snd];
    (split; [intros q Hq; rewrite ?lookup_delete_ne by congruence; reflexivity|]);
    (split; [intros H; try discriminate H; rewrite ?lookup_delete_eq; reflexivity|]);
    reflexivity.
Qed.

Lemma deleteModel_footprint_witness :
  fst (deleteModel Scenario.modelManager Scenario.store_with_m "m.gguf")
    !! "/app/models/notes.txt" = Some (Fs.File 3 false)
  /\ fst (deleteModel Scenario.modelManager Scenario.store_with_m "m.gguf")
       !! "/app/models/m.gguf" = None.
Proof.
  destruct (deleteModel_footprint Scenario.modelManager Scenario.store_with_m "m.gguf")
    as [H1 [H2 _]].
  split.
  - etransitivity; [apply H1; vm_compute; discriminate|vm_compute; reflexivity].
  - apply H2. vm_compute; reflexivity.
Defined.

(* ===================================================================== *)
(** ** Paths as sequences of components *)
(* ===================================================================== *)

Lemma split_nonempty (c : ascii) (s : string) : Str.split c s <> [].
Proof.
  destruct s as [|a s]; simpl; [discriminate|].
  destruct (Ascii.eqb a c); [discriminate|]. destruct (Str.split c s); discriminate.
Qed.

Lemma split_free (c : ascii) (s : string) : free_of c s = true -> Str.split c s = [s].
Proof.
  induction s as [|a s IH]; simpl; [reflexivity|].
  intros H. apply andb_true_iff in H as [Ha Hs]. apply negb_true_iff in Ha.
  rewrite Ha, (IH Hs). reflexivity.
Qed.

Lemma split_components_free (c : ascii) (s : string) :
  Forall (fun x => free_of c x = true) (Str.split c s).
Proof.
  induction s as [|a s IH]; simpl; [repeat constructor|].
  destruct (Ascii.eqb a c) eqn:Ha; [constructor; [reflexivity|exact IH]|].
  destruct (Str.split c s) as [|seg rest]; [repeat constructor; simpl; now rewrite Ha|].
  apply Forall_cons in IH as [Hseg Hrest].
  constructor; [simpl; now rewrite Ha, Hseg|exact Hrest].
Qed.

Lemma split_app_sep (c : ascii) (a b : string) :
  free_of c a = true ->
  Str.split c (a ++ String c b) = a :: Str.split c b.
Proof.
  induction a as [|x a IH]; simpl.
  - intros _. now rewrite Ascii.eqb_refl.
  - intros H. apply andb_true_iff in H as [Hx Ha]. apply negb_true_iff in Hx.
    rewrite Hx, (IH Ha). reflexivity.
Qed.

Lemma split_join (c : ascii) (segs : list string) :
  segs <> [] -> Forall (fun x => free_of c x = true) segs ->
  Str.split c (Str.join (String c "") segs) = segs.
Proof.
  induction segs as [|x rest IH]; [congruence|]. intros _ H.
  apply Forall_cons in H as [Hx Hrest].
  destruct rest as [|y rest'].
  - simpl. now apply split_free.
  - change (Str.join (String c "") (x :: y :: rest'))
      with (x ++ String c "" ++ Str.join (String c "") (y :: rest')).
    change (String c "" ++ Str.join (String c "") (y :: rest'))
      with (String c (Str.join (String c "") (y :: rest'))).
    rewrite split_app_sep by exact Hx. f_equal. apply IH; [discriminate|exact Hrest].
Qed.

Lemma split_app_sep_general (c : ascii) (a b : string) :
  Str.split c (a ++ String c b) = (Str.split c a ++ Str.split c b)%list.
Proof.
  induction a as [|x a IH]; simpl.
  - now rewrite Ascii.eqb_refl.
  - destruct (Ascii.eqb x c); [now rewrite IH|].
    rewrite IH. pose proof (split_nonempty c a) as Hne.
    destruct (Str.split c a) as [|seg rest]; [congruence|]. reflexivity.
Qed.

Lemma normalize_step_components (above : bool) (acc : list string) (seg : string) :
  Forall is_component acc -> free_of Path.slash seg = true ->
  Forall is_component (Path.normalize_step above acc seg).
Proof.
  intros Hacc Hseg. unfold Path.normalize_step.
  destruct (String.eqb seg "") eqn:He; [exact Hacc|].
  destruct (String.eqb seg "."); [exact Hacc|].
  destruct (String.eqb seg "..").
  - destruct acc as [|top below].
    + destruct above; [|constructor]. repeat constructor. discriminate.
    + destruct (String.eqb top "..").
      * constructor; [split; [discriminate|reflexivity]|exact Hacc].
      * now apply Forall_cons in Hacc as [_ Hbelow].
  - constructor; [|exact Hacc]. split; [|exact Hseg].
    apply String.eqb_neq. exact He.
Qed.

Lemma normalize_fold_components (above : bool) (segs acc : list string) :
  Forall is_component acc -> Forall (fun x => free_of Path.slash x = true) segs ->
  Forall is_component (fold_left (Path.normalize_step above) segs acc).
Proof.
  revert acc. induction segs as [|seg rest IH]; intros acc Hacc Hsegs; [exact Hacc|].
  apply Forall_cons in Hsegs as [Hseg Hrest]. simpl.
  apply IH; [|exact Hrest]. now apply normalize_step_components.
Qed.

Lemma normalize_segments_components (above : bool) (s : string) :
  Forall is_component (Path.normalize_segments above (Str.split Path.slash s)).
Proof.
  unfold Path.normalize_segments. apply Forall_rev.
  apply normalize_fold_components; [constructor|apply split_components_free].
Qed.

Lemma filter_all {A : Type} (P : A -> Prop) `{forall x, Decision (P x)} (l : list A) :
  Forall P l -> filter P l = l.
Proof.
  induction 1 as [|x l Hx _ IH]; [reflexivity|].
  rewrite filter_cons_True by exact Hx. now rewrite IH.
Qed.

(** The components of a resolved path, read back from the path. *)
Lemma ancestors_of_components (segs : list string) :
  segs <> [] -> Forall is_component segs ->
  In ("/" ++ Str.join "/" segs) (Fs.ancestors ("/" ++ Str.join "/" segs)).
Proof.
  intros Hne Hsegs. unfold Fs.ancestors.
  assert (Hfree : Forall (fun x => free_of Path.slash x = true) segs).
  { eapply Forall_impl; [exact Hsegs|]. intros x [_ Hx]. exact Hx. }
  assert (Hsplit : Str.split Path.slash ("/" ++ Str.join "/" segs) = "" :: segs).
  { change ("/" ++ Str.join "/" segs) with ("" ++ String Path.slash (Str.join "/" segs)).
    rewrite split_app_sep by reflexivity. f_equal. now apply split_join. }
  rewrite Hsplit. rewrite filter_cons_False by (intros H; now apply H).
  rewrite filter_all.
  - apply in_map_iff. exists (length segs). split.
    + now rewrite firstn_all.
    + apply in_seq. destruct segs; [congruence|simpl; lia].
  - eapply Forall_impl; [exact Hsegs|]. intros x [Hx _]. exact Hx.
Qed.

Lemma resolve_models_components (cwd : string) :
  exists segs, segs <> [] /\ Forall is_component segs
               /\ Path.resolve cwd "models" = "/" ++ Str.join "/" segs.
Proof.
  exists (Path.normalize_segments false (Str.split Path.slash (cwd ++ "/" ++ "models"))).
  split; [|split].
  - unfold Path.normalize_segments.
    change (cwd ++ "/" ++ "models") with (cwd ++ String Path.slash "models").
    rewrite split_app_sep_general, fold_left_app.
    change (Str.split Path.slash "models") with ["models"]. cbn [fold_left].
    set (acc := fold_left _ _ _).
    change (Path.normalize_step false acc "models") with ("models" :: acc).
    simpl. intros H. apply app_eq_nil in H as [_ H]. discriminate.
  - apply normalize_segments_components.
  - unfold Path.resolve. cbn [Str.head_char Path.is_slash].
    reflexivity.
Qed.

Lemma mkdir_chain_creates (chain : list string) (fs fs' : Fs.t) :
  Fs.mkdir_chain fs chain = (fs', Returns tt) ->
  forall d, In d chain -> exists sz r, fs' !! d = Some (Fs.Dir sz r).
Proof.
  revert fs. induction chain as [|d0 rest IH]; intros fs H d Hin; [destruct Hin|].
  simpl in H. destruct (fs !! d0) as [[sz l|sz rd]|] eqn:Hd0; [discriminate| |].
  - destruct Hin as [<-|Hin]; [|eapply IH; eassumption].
    exists sz, rd. eapply mkdir_chain_preserves; eassumption.
  - destruct Hin as [<-|Hin]; [|eapply IH; eassumption].
    exists 4096, true. eapply mkdir_chain_preserves; [exact H|]. apply lookup_insert_eq.
Qed.

(** X8: when the constructor returns, something exists at the models
    directory (a directory, if nothing was there before), every entry that
    was in the file system is still there unchanged, and constructing the
    service once more changes nothing. *)
Theorem constructor_ensures_directory (cwd : string) (fs fs' : Fs.t) (mm : ModelManager) :
  new_ModelManager cwd fs = (fs', Returns mm) ->
  Fs.existsSync fs' (modelsDir mm) = true
  /\ (fs !! modelsDir mm = None -> exists sz r, fs' !! modelsDir mm = Some (Fs.Dir sz r))
  /\ (forall q n, fs !! q = Some n -> fs' !! q = Some n)
  /\ new_ModelManager cwd fs' = (fs', Returns mm).
Proof.
  unfold new_ModelManager, ensureModelsDirectory. cbn [modelsDir].
  set (dir := Path.resolve cwd "models").
  destruct (Fs.existsSync fs dir) eqn:Hex; cbn [negb].
  - intros [= <- <-]. cbn [modelsDir]. rewrite Hex. cbn [negb].
    split; [reflexivity|]. split; [|auto].
    intros Hn. unfold Fs.existsSync in Hex. now rewrite Hn in Hex.
  - unfold Fs.mkdirSync_recursive.
    destruct (Fs.mkdir_chain fs (Fs.ancestors dir)) as [fs1 [[]|e]] eqn:Hmk; [|discriminate].
    intros [= <- <-]. cbn [modelsDir].
    assert (Hdir : exists sz r, fs1 !! dir = Some (Fs.Dir sz r)).
    { eapply mkdir_chain_creates; [exact Hmk|].
      destruct (resolve_models_components cwd) as (segs & Hne & Hsegs & Heq).
      unfold dir. rewrite Heq. now apply ancestors_of_components. }
    assert (Hex1 : Fs.existsSync fs1 dir = true).
    { destruct Hdir as (sz & r & Hd). unfold Fs.existsSync. now rewrite Hd. }
    rewrite Hex1. cbn [negb].
    split; [reflexivity|]. split; [intros _; exact Hdir|]. split; [|reflexivity].
    intros q n Hq. eapply mkdir_chain_preserves; eassumption.
Qed.

Lemma length_app_string (a b : string) :
  String.length (a ++ b) = (String.length a + String.length b)%nat.
Proof. induction a as [|x a IH]; simpl; [reflexivity|now rewrite IH]. Qed.

Lemma substring_all (s : string) : substring 0 (String.length s) s = s.
Proof. induction s as [|x s IH]; simpl; [reflexivity|now rewrite IH]. Qed.

Lemma substring_prefix (a b : string) : substring 0 (String.length a) (a ++ b) = a.
Proof.
  induction a as [|x a IH]; simpl; [destruct b; reflexivity|now rewrite IH].
Qed.

Lemma substring_suffix (a b : string) :
  substring (String.length a) (String.length b) (a ++ b) = b.
Proof. induction a as [|x a IH]; simpl; [apply substring_all|exact IH]. Qed.

Lemma substring_split (s : string) (i : nat) :
  (i <= String.length s)%nat ->
  s = substring 0 i s ++ substring i (String.length s - i) s.
Proof.
  revert i. induction s as [|x s IH]; intros i Hi.
  - destruct i; [reflexivity|simpl in Hi; lia].
  - destruct i as [|i].
    + simpl. now rewrite substring_all.
    + simpl in Hi. cbn [substring String.length Nat.sub].
      change (String x (substring 0 i s) ++ substring i (String.length s - i) s)
        with (String x (substring 0 i s ++ substring i (String.length s - i) s)).
      f_equal. apply IH. lia.
Qed.

Lemma endsWith_suffix (s suffix : string) :
  Str.endsWith s suffix = true -> exists stem, s = stem ++ suffix.
Proof.
  unfold Str.endsWith.
  destruct (Nat.leb_spec (String.length suffix) (String.length s)) as [Hle|]; [|discriminate].
  intros H. apply String.eqb_eq in H.
  exists (substring 0 (String.length s - String.length suffix) s).
  pose proof (substring_split s (String.length s - String.length suffix)
                ltac:(lia)) as Hs.
  replace (String.length s - (String.length s - String.length suffix))%nat
    with (String.length suffix) in Hs by lia.
  now rewrite H in Hs.
Qed.

Lemma lastIndexOf_from_free (c : ascii) (s : string) (i : nat) :
  Str.lastIndexOf_from c s i = None <-> free_of c s = true.
Proof.
  revert i. induction s as [|x s IH]; intros i; simpl; [tauto|].
  destruct (Str.lastIndexOf_from c s (S i)) eqn:Hl.
  - split; [discriminate|]. intros H. apply andb_true_iff in H as [_ H].
    apply (IH (S i)) in H. congruence.
  - destruct (Ascii.eqb x c); simpl; [split; discriminate|].
    split; [intros _; now apply (IH (S i))|reflexivity].
Qed.

Lemma append_nil_l (b : string) : "" ++ b = b.
Proof. reflexivity. Qed.

Lemma append_cons (x : ascii) (a b : string) : String x a ++ b = String x (a ++ b).
Proof. reflexivity. Qed.

Lemma lastIndexOf_from_app (c : ascii) (a b : string) (i : nat) :
  Str.lastIndexOf_from c (a ++ b) i
  = match Str.lastIndexOf_from c b (i + String.length a) with
    | Some j => Some j
    | None => Str.lastIndexOf_from c a i
    end.
Proof.
  revert i. induction a as [|x a IH]; intros i.
  - rewrite append_nil_l. simpl. rewrite Nat.add_0_r.
    destruct (Str.lastIndexOf_from c b i); reflexivity.
  - rewrite append_cons. simpl. rewrite IH. replace (S i + String.length a)%nat with (i + S (String.length a))%nat by lia.
    destruct (Str.lastIndexOf_from c b (i + S (String.length a))); reflexivity.
Qed.

Lemma basename_component (file : string) :
  is_component file -> Path.basename file = file.
Proof.
  intros [Hne Hfree]. unfold Path.basename.
  rewrite (split_free _ _ Hfree). simpl.
  apply String.eqb_neq in Hne. now rewrite Hne.
Qed.

Lemma parse_name_gguf (stem : string) :
  is_component (stem ++ ".gguf") ->
  Path.parse_name (stem ++ ".gguf") = if String.eqb stem "" then ".gguf" else stem.
Proof.
  intros Hc. unfold Path.parse_name, Path.extname.
  rewrite (basename_component _ Hc).
  unfold Str.lastIndexOf. rewrite lastIndexOf_from_app.
  change (Str.lastIndexOf_from Path.dot ".gguf" (0 + String.length stem))
    with (Some (0 + String.length stem)%nat).
  cbn [Nat.add].
  destruct stem as [|x stem].
  - reflexivity.
  - cbn [String.length String.eqb].
    assert (Hne : String.eqb (String x stem ++ ".gguf") ".." = false).
    { apply String.eqb_neq. intros H. apply (f_equal String.length) in H.
      rewrite length_app_string in H. simpl in H. lia. }
    rewrite Hne. unfold Str.drop, Str.take.
    rewrite length_app_string.
    replace (String.length (String x stem) + String.length ".gguf"
             - S (String.length stem))%nat with (String.length ".gguf")
      by (simpl; lia).
    change (S (String.length stem)) with (String.length (String x stem)).
    rewrite substring_suffix.
    replace (String.length (String x stem) + String.length ".gguf"
             - String.length ".gguf")%nat with (String.length (String x stem)) by lia.
    apply substring_prefix.
Qed.

Lemma child_name_component (dir q name : string) :
  Fs.child_name dir q = Some name -> is_component name.
Proof.
  unfold Fs.child_name.
  destruct (String.prefix _ q); [|discriminate].
  set (rest := Str.drop _ q).
  destruct (String.eqb rest "") eqn:He; [discriminate|].
  destruct (Str.lastIndexOf Path.slash rest) eqn:Hl; [discriminate|].
  intros [= <-]. split.
  - now apply String.eqb_neq.
  - now apply (lastIndexOf_from_free Path.slash rest 0).
Qed.

Lemma readdirSync_components (fs : Fs.t) (dir : string) (files : list string) :
  Fs.readdirSync fs dir = Returns files -> Forall is_component files.
Proof.
  unfold Fs.readdirSync.
  destruct (fs !! dir) as [[sz l|sz [|]]|]; try discriminate.
  intros [= <-]. apply Forall_forall. intros file Hin.
  apply list_elem_of_omap in Hin as (q & _ & Hq).
  now apply child_name_component in Hq.
Qed.

(** X9: when the directory can be read, the listing runs through its
    [.gguf] entries in order, one name per entry: the entry with its last
    five characters removed, so that appending [.gguf] to a listed name
    gives the entry back; only the entry called exactly [.gguf] is listed
    under its full name. *)
Theorem listed_names_restore_entries (mm : ModelManager) (fs : Fs.t) (files : list string) :
  Fs.readdirSync fs (modelsDir mm) = Returns files ->
  exists names,
    getDownloadedModels mm fs = Returns names
    /\ Forall2 (fun name file =>
                  (file = ".gguf" /\ name = ".gguf")
                  \/ (name <> "" /\ file = name ++ ".gguf"))
         names (filter (fun file => Str.endsWith file ".gguf" = true) files).
Proof.
  intros Hread. unfold getDownloadedModels. rewrite Hread. cbn.
  eexists. split; [reflexivity|].
  pose proof (readdirSync_components _ _ _ Hread) as Hc.
  assert (Hf : Forall is_component
                 (filter (fun file => Str.endsWith file ".gguf" = true) files)).
  { apply Forall_forall. intros file Hin. apply list_elem_of_filter in Hin as [_ Hin].
    rewrite Forall_forall in Hc. now apply Hc. }
  assert (Hg : Forall (fun file => Str.endsWith file ".gguf" = true)
                 (filter (fun file => Str.endsWith file ".gguf" = true) files)).
  { apply Forall_forall. intros file Hin. now apply list_elem_of_filter in Hin as [H _]. }
  induction (filter (fun file => Str.endsWith file ".gguf" = true) files)
    as [|file rest IH]; [constructor|].
  apply Forall_cons in Hf as [Hfile Hrest]. apply Forall_cons in Hg as [Hgfile Hgrest].
  cbn [map]. constructor; [|now apply IH].
  destruct (endsWith_suffix _ _ Hgfile) as [stem ->].
  rewrite (parse_name_gguf stem Hfile).
  destruct stem as [|x stem]; [left; split; reflexivity|right].
  cbn [String.eqb]. split; [discriminate|reflexivity].
Qed.

Lemma constructor_ensures_directory_witness :
  Fs.existsSync Scenario.empty_store "/app/models" = true
  /\ new_ModelManager "/app" Scenario.empty_store
     = (Scenario.empty_store, Returns Scenario.modelManager).
Proof.
  destruct (constructor_ensures_directory "/app" (<["/app" := Fs.Dir 4096 true]> ∅)
              Scenario.empty_store Scenario.modelManager) as (H1 & _ & _ & H4).
  - vm_compute; reflexivity.
  - split; [exact H1 | exact H4].
Defined.

Lemma listed_names_restore_entries_witness :
  exists names,
    getDownloadedModels Scenario.modelManager Scenario.store_with_m = Returns names
    /\ Forall2 (fun name file =>
                  (file = ".gguf" /\ name = ".gguf")
                  \/ (name <> "" /\ file = name ++ ".gguf"))
         names ["m.gguf"].
Proof.
  destruct (listed_names_restore_entries Scenario.modelManager Scenario.store_with_m
              ["m.gguf"; "notes.txt"]) as (names & H1 & H2).
  - vm_compute; reflexivity.
  - exists names. split; [exact H1|exact H2].
Defined.

Lemma normalize_step_plain (above : bool) (acc : list string) (seg : string) :
  is_plain_name seg -> Path.normalize_step above acc seg = seg :: acc.
Proof.
  intros [[Hne _] [Hdot Hdots]]. unfold Path.normalize_step.
  apply String.eqb_neq in Hne, Hdot, Hdots. now rewrite Hne, Hdot, Hdots.
Qed.

Lemma normalize_fold_plain (above : bool) (segs acc : list string) :
  Forall is_plain_name segs ->
  fold_left (Path.normalize_step above) segs acc = (rev segs ++ acc)%list.
Proof.
  revert acc. induction segs as [|seg rest IH]; intros acc H; [reflexivity|].
  apply Forall_cons in H as [Hseg Hrest]. cbn [fold_left].
  rewrite normalize_step_plain by exact Hseg. rewrite IH by exact Hrest.
  cbn [rev]. now rewrite <- app_assoc.
Qed.

Lemma normalize_step_keeps_plain (acc : list string) (seg : string) :
  Forall is_plain_name acc -> free_of Path.slash seg = true ->
  Forall is_plain_name (Path.normalize_step false acc seg).
Proof.
  intros Hacc Hseg. unfold Path.normalize_step.
  destruct (String.eqb seg "") eqn:He; [exact Hacc|].
  destruct (String.eqb seg ".") eqn:Hd; [exact Hacc|].
  destruct (String.eqb seg "..") eqn:Hdd.
  - destruct acc as [|top below]; [constructor|].
    apply Forall_cons in Hacc as [[_ [_ Htop]] Hbelow].
    apply String.eqb_neq in Htop. rewrite Htop. exact Hbelow.
  - constructor; [|exact Hacc].
    apply String.eqb_neq in He, Hd, Hdd. repeat split; assumption.
Qed.

Lemma normalize_fold_keeps_plain (segs acc : list string) :
  Forall is_plain_name acc -> Forall (fun x => free_of Path.slash x = true) segs ->
  Forall is_plain_name (fold_left (Path.normalize_step false) segs acc).
Proof.
  revert acc. induction segs as [|seg rest IH]; intros acc Hacc Hsegs; [exact Hacc|].
  apply Forall_cons in Hsegs as [Hseg Hrest]. cbn [fold_left].
  apply IH; [|exact Hrest]. now apply normalize_step_keeps_plain.
Qed.

Lemma resolve_models_plain (cwd : string) :
  exists segs, segs <> [] /\ Forall is_plain_name segs
               /\ Path.resolve cwd "models" = "/" ++ Str.join "/" segs.
Proof.
  exists (Path.normalize_segments false (Str.split Path.slash (cwd ++ "/" ++ "models"))).
  split; [|split].
  - unfold Path.normalize_segments.
    change (cwd ++ "/" ++ "models") with (cwd ++ String Path.slash "models").
    rewrite split_app_sep_general, fold_left_app.
    change (Str.split Path.slash "models") with ["models"]. cbn [fold_left].
    set (acc := fold_left _ _ _).
    change (Path.normalize_step false acc "models") with ("models" :: acc).
    simpl. intros H. apply app_eq_nil in H as [_ H]. discriminate.
  - unfold Path.normalize_segments. apply Forall_rev.
    apply normalize_fold_keeps_plain; [constructor|apply split_components_free].
  - reflexivity.
Qed.

Lemma append_assoc_string (a b c : string) : (a ++ b) ++ c = a ++ (b ++ c).
Proof.
  induction a as [|x a IH]; [reflexivity|].
  rewrite !append_cons. now rewrite IH.
Qed.

Lemma join_snoc (segs : list string) (name : string) :
  segs <> [] ->
  Str.join "/" (segs ++ [name]) = Str.join "/" segs ++ "/" ++ name.
Proof.
  induction segs as [|x rest IH]; [congruence|]. intros _.
  destruct rest as [|y rest'].
  - reflexivity.
  - change (Str.join "/" ((x :: y :: rest') ++ [name]))
      with (x ++ "/" ++ Str.join "/" ((y :: rest') ++ [name])).
    rewrite IH by discriminate.
    change (Str.join "/" (x :: y :: rest')) with (x ++ "/" ++ Str.join "/" (y :: rest')).
    rewrite !append_assoc_string. reflexivity.
Qed.

Lemma last_char_app (a b : string) :
  b <> "" -> Str.last_char (a ++ b) = Str.last_char b.
Proof.
  intros Hb. induction a as [|x a IH]; [reflexivity|].
  rewrite append_cons. cbn [Str.last_char]. rewrite IH.
  destruct (a ++ b) eqn:Hab; [|reflexivity].
  exfalso. destruct a; [rewrite append_nil_l in Hab; congruence|discriminate].
Qed.

Lemma last_char_free (c : ascii) (s : string) (x : ascii) :
  free_of c s = true -> Str.last_char s = Some x -> Ascii.eqb x c = false.
Proof.
  induction s as [|y s IH]; [discriminate|].
  cbn [free_of]. intros H. apply andb_true_iff in H as [Hy Hs].
  destruct s as [|z s'].
  - cbn. intros [= <-]. now apply negb_true_iff.
  - intros Hl. apply IH; [exact Hs|exact Hl].
Qed.

Lemma prefix_app (a b : string) : String.prefix a (a ++ b) = true.
Proof.
  induction a as [|x a IH]; [destruct b; reflexivity|].
  rewrite append_cons. cbn [String.prefix].
  destruct (ascii_dec x x); [exact IH|congruence].
Qed.

(** The path of a plain file name in a directory given by its components. *)
Lemma join_plain (segs : list string) (name : string) :
  segs <> [] -> Forall is_plain_name segs -> is_plain_name name ->
  Path.join ("/" ++ Str.join "/" segs) name = ("/" ++ Str.join "/" segs) ++ "/" ++ name.
Proof.
  intros Hne Hsegs Hname.
  pose proof Hname as [[Hn0 Hnfree] _].
  unfold Path.join.
  change (String.eqb ("/" ++ Str.join "/" segs) "") with false.
  apply String.eqb_neq in Hn0 as Hn0'. rewrite Hn0'.
  unfold Path.normalize.
  assert (Heq : ("/" ++ Str.join "/" segs) ++ "/" ++ name
                = "/" ++ Str.join "/" (segs ++ [name])).
  { rewrite join_snoc by exact Hne. reflexivity. }
  rewrite Heq.
  change (String.eqb ("/" ++ Str.join "/" (segs ++ [name])) "") with false.
  change (Path.is_slash (Str.head_char ("/" ++ Str.join "/" (segs ++ [name])))) with true.
  cbn [negb].
  assert (Hall : Forall is_plain_name (segs ++ [name])).
  { apply Forall_app. split; [exact Hsegs|]. now constructor. }
  assert (Hfree : Forall (fun x => free_of Path.slash x = true) (segs ++ [name])).
  { eapply Forall_impl; [exact Hall|]. intros x [[_ Hx] _]. exact Hx. }
  assert (Hsplit : Str.split Path.slash ("/" ++ Str.join "/" (segs ++ [name]))
                   = "" :: (segs ++ [name])).
  { change ("/" ++ Str.join "/" (segs ++ [name]))
      with ("" ++ String Path.slash (Str.join "/" (segs ++ [name]))).
    rewrite split_app_sep by reflexivity. f_equal.
    apply split_join; [|exact Hfree]. destruct segs; discriminate. }
  rewrite Hsplit. unfold Path.normalize_segments. cbn [fold_left].
  change (Path.normalize_step false [] "") with (@nil string).
  rewrite normalize_fold_plain by exact Hall.
  rewrite app_nil_r, rev_involutive.
  assert (Hlast : Path.is_slash (Str.last_char ("/" ++ Str.join "/" (segs ++ [name])))
                  = false).
  { rewrite join_snoc by exact Hne.
    replace ("/" ++ Str.join "/" segs ++ "/" ++ name)
      with (("/" ++ Str.join "/" segs ++ "/") ++ name)
      by (rewrite !append_assoc_string; reflexivity).
    rewrite last_char_app by exact Hn0.
    destruct (Str.last_char name) as [x|] eqn:Hl; [|reflexivity].
    cbn [Path.is_slash]. eapply last_char_free; eassumption. }
  rewrite Hlast.
  assert (Hbody : String.eqb (Str.join "/" (segs ++ [name])) "" = false).
  { apply String.eqb_neq. rewrite join_snoc by exact Hne. intros H.
    apply (f_equal String.length) in H. rewrite !length_app_string in H.
    simpl in H. lia. }
  rewrite Hbody. reflexivity.
Qed.

Lemma dirname_of_child (dir name : string) :
  dir <> "" -> free_of Path.slash name = true ->
  Path.dirname (dir ++ "/" ++ name) = dir.
Proof.
  intros Hdir Hname. unfold Path.dirname, Str.lastIndexOf.
  change (dir ++ "/" ++ name) with (dir ++ String Path.slash name).
  rewrite lastIndexOf_from_app. cbn [Str.lastIndexOf_from].
  apply (lastIndexOf_from_free Path.slash name (S (0 + String.length dir))) in Hname.
  rewrite Hname. cbn [Path.slash]. rewrite Ascii.eqb_refl. cbn [Nat.add].
  destruct dir as [|x dir]; [congruence|].
  cbn [String.length]. unfold Str.take.
  change (S (String.length dir)) with (String.length (String x dir)).
  apply substring_prefix.
Qed.

Lemma child_name_of_child (dir name : string) :
  dir <> "/" -> is_component name ->
  Fs.child_name dir (dir ++ "/" ++ name) = Some name.
Proof.
  intros Hdir [Hne Hfree]. unfold Fs.child_name.
  apply String.eqb_neq in Hdir. rewrite Hdir.
  replace (dir ++ "/" ++ name) with ((dir ++ "/") ++ name)
    by apply append_assoc_string.
  set (pre := dir ++ "/").
  rewrite prefix_app. unfold Str.drop.
  rewrite (length_app_string pre name).
  replace (String.length pre + String.length name - String.length pre)%nat
    with (String.length name) by lia.
  rewrite substring_suffix.
  apply String.eqb_neq in Hne. rewrite Hne.
  unfold Str.lastIndexOf.
  apply (lastIndexOf_from_free Path.slash name 0) in Hfree. now rewrite Hfree.
Qed.

Lemma getModelPath_plain_paths (cwd : string) (mm : ModelManager) (name : string) :
  modelsDir mm = Path.resolve cwd "models" ->
  is_plain_name name ->
  getModelPath mm name = modelsDir mm ++ "/" ++ name
  /\ Path.dirname (getModelPath mm name) = modelsDir mm
  /\ Fs.child_name (modelsDir mm) (modelsDir mm ++ "/" ++ name) = Some name.
Proof.
  intros Hdir Hname. unfold getModelPath. rewrite Hdir.
  destruct (resolve_models_plain cwd) as (segs & Hne & Hsegs & ->).
  rewrite (join_plain segs name Hne Hsegs Hname).
  pose proof Hname as [[Hn0 Hnfree] _].
  split; [reflexivity|]. split.
  - apply dirname_of_child; [discriminate|exact Hnfree].
  - apply child_name_of_child; [|split; assumption].
    destruct segs as [|x rest]; [congruence|].
    apply Forall_cons in Hsegs as [[[Hx _] _] _].
    intros H. apply (f_equal String.length) in H.
    destruct rest; cbn [Str.join] in H; rewrite ?append_cons, ?append_nil_l in H;
      cbn [String.length] in H; rewrite ?length_app_string in H;
      destruct x; try congruence; cbn [String.length] in H; lia.
Qed.

(** X10: in a service constructed for any working directory, a plain file
    name (one component, neither [.] nor [..]) resolves to the models
    directory followed by [/] and the name: the path lies inside the
    directory, its parent is the directory, and it shows up in a listing of
    the directory under that very name. *)
Theorem getModelPath_plain_name (cwd : string) (mm : ModelManager) (name : string) :
  modelsDir mm = Path.resolve cwd "models" ->
  is_plain_name name ->
  getModelPath mm name = modelsDir mm ++ "/" ++ name
  /\ within (modelsDir mm) (getModelPath mm name) = true
  /\ Path.dirname (getModelPath mm name) = modelsDir mm
  /\ Fs.child_name (modelsDir mm) (getModelPath mm name) = Some name.
Proof.
  intros Hdir Hname.
  destruct (getModelPath_plain_paths cwd mm name Hdir Hname) as (H1 & H2 & H3).
  split; [exact H1|]. split; [|split; [exact H2|now rewrite H1]].
  rewrite H1. unfold within.
  replace (modelsDir mm ++ "/" ++ name) with ((modelsDir mm ++ "/") ++ name)
    by apply append_assoc_string.
  apply prefix_app.
Qed.

Lemma getModelPath_plain_name_witness :
  getModelPath Scenario.modelManager "llama-3.2-1b-instruct-q4_0.gguf"
  = "/app/models" ++ "/" ++ "llama-3.2-1b-instruct-q4_0.gguf"
  /\ within "/app/models" (getModelPath Scenario.modelManager
                             "llama-3.2-1b-instruct-q4_0.gguf") = true.
Proof.
  destruct (getModelPath_plain_name "/app" Scenario.modelManager
              "llama-3.2-1b-instruct-q4_0.gguf") as (H1 & H2 & _).
  - reflexivity.
  - repeat split; discriminate.
  - split; [exact H1 | exact H2].
Defined.

(** ** From a download to the listing *)

Lemma readdirSync_lists_child (fs : Fs.t) (dir name : string) (n : Fs.node)
    (dsz : Z) :
  fs !! dir = Some (Fs.Dir dsz true) ->
  fs !! (dir ++ "/" ++ name) = Some n ->
  Fs.child_name dir (dir ++ "/" ++ name) = Some name ->
  exists files, Fs.readdirSync fs dir = Returns files /\ In name files.
Proof.
  intros Hdir Hp Hchild. unfold Fs.readdirSync. rewrite Hdir.
  eexists. split; [reflexivity|].
  apply list_elem_of_In, list_elem_of_omap.
  exists (dir ++ "/" ++ name). split; [|exact Hchild].
  apply list_elem_of_In, in_map_iff. exists (dir ++ "/" ++ name, n).
  split; [reflexivity|]. apply list_elem_of_In, elem_of_map_to_list. exact Hp.
Qed.

(** X11: in a service constructed for any working directory whose models
    directory exists and can be read, a transfer that runs to completion
    for an entry with a plain [.gguf] file name makes the entry appear in
    the listing (under its name without the extension) and makes
    [getModelSize] of the file name report the size that the chunks add up
    to. *)
Theorem completed_download_is_listed {S : Type} (onProgress : option (Z -> S -> S))
    (cwd : string) (mm : ModelManager) (modelInfo : ModelInfo.t) (fs : Fs.t) (l : S)
    (contentLength : option string) (chunks : list Z) (dsz : Z) :
  modelsDir mm = Path.resolve cwd "models" ->
  fs !! modelsDir mm = Some (Fs.Dir dsz true) ->
  is_plain_name (ModelInfo.filename modelInfo) ->
  Str.endsWith (ModelInfo.filename modelInfo) ".gguf" = true ->
  fs !! getModelPath mm (ModelInfo.filename modelInfo) = None ->
  let st := Download.run onProgress (Download.downloadModel mm modelInfo fs l)
              (complete_transfer contentLength chunks) in
  (exists names,
      getDownloadedModels mm (Download.fs st) = Returns names
      /\ In (Path.parse_name (ModelInfo.filename modelInfo)) names)
  /\ getModelSize mm (Download.fs st) (ModelInfo.filename modelInfo)
     = Returns (mb_toFixed1 (total_length chunks) ++ "MB").
Proof.
  intros Hdir Hd Hplain Hgguf Hfree st.
  destruct (getModelPath_plain_paths cwd mm (ModelInfo.filename modelInfo) Hdir Hplain)
    as (Hpath & Hparent & Hchild).
  assert (Hd' : fs !! Path.dirname (getModelPath mm (ModelInfo.filename modelInfo))
                = Some (Fs.Dir dsz true)) by now rewrite Hparent.
  destruct (complete_transfer_result onProgress mm modelInfo fs l contentLength chunks
              dsz true Hfree Hd') as (_ & Hfs & _).
  fold st in Hfs. rewrite Hfs. split.
  - destruct (readdirSync_lists_child
                (<[getModelPath mm (ModelInfo.filename modelInfo)
                   := Fs.File (total_length chunks) false]> fs)
                (modelsDir mm) (ModelInfo.filename modelInfo)
                (Fs.File (total_length chunks) false) dsz)
      as (files & Hread & Hin).
    + rewrite lookup_insert_ne; [exact Hd|]. intros Heq. rewrite Heq in Hfree. congruence.
    + rewrite <- Hpath. apply lookup_insert_eq.
    + exact Hchild.
    + unfold getDownloadedModels. rewrite Hread. cbn.
      eexists. split; [reflexivity|].
      apply in_map, list_elem_of_In, list_elem_of_filter. split; [exact Hgguf|].
      now apply list_elem_of_In.
  - unfold getModelSize, Fs.existsSync, Fs.statSync_size.
    rewrite lookup_insert_eq. reflexivity.
Qed.

Lemma completed_download_is_listed_witness :
  let st := Download.run Download.record_progress
              (Download.downloadModel Scenario.modelManager Scenario.llama_1b
                 Scenario.empty_store [])
              (complete_transfer (Some "1000") [145; 355; 500]) in
  (exists names,
      getDownloadedModels Scenario.modelManager (Download.fs st) = Returns names
      /\ In "llama-3.2-1b-instruct-q4_0" names)
  /\ getModelSize Scenario.modelManager (Download.fs st) "llama-3.2-1b-instruct-q4_0.gguf"
     = Returns "0.0MB".
Proof.
  apply (completed_download_is_listed Download.record_progress "/app"
           Scenario.modelManager Scenario.llama_1b Scenario.empty_store []
           (Some "1000") [145; 355; 500] 4096).
  - reflexivity.
  - vm_compute; reflexivity.
  - repeat split; discriminate.
  - vm_compute; reflexivity.
  - vm_compute; reflexivity.
Defined.

(* ===================================================================== *)
(** ** The hosted model: retries *)
(* ===================================================================== *)

(** X12: when the client can be constructed, [chatWithAssistant] of the
    hosted model never rejects and never answers with the empty string; it
    calls the API at least once and at most three times, pausing 1000 ms
    after the first failure and 2000 ms after the second and not at all
    after the third; the first call that succeeds decides the answer, and
    three failures give the technical-difficulties text.  When the client
    cannot be constructed the promise is rejected and no call is made. *)
Theorem gemini_retries (message : string) (history : list LlamaService.turn)
    (language : string) (client : outcome unit) (api : Gemini.request -> nat -> Gemini.answer) :
  let r := Gemini.chatWithAssistant message history language client api in
  let outcome := api (Gemini.build_request message history language) in
  match client with
  | Throws error => r = {| Gemini.reply := Throws error; Gemini.calls := 0;
                           Gemini.pauses := [] |}
  | Returns _ =>
      (exists text, Gemini.reply r = Returns text /\ text <> "")
      /\ (1 <= Gemini.calls r <= 3)%nat
      /\ Gemini.pauses r = firstn (Gemini.calls r - 1) [1000; 2000]
      /\ (forall k text,
            (k < 3)%nat -> outcome k = Gemini.Generated text ->
            (forall i, (i < k)%nat -> exists e, outcome i = Gemini.Failed e) ->
            Gemini.calls r = S k
            /\ Gemini.reply r
               = Returns (Js.or_else (default "" text)
                            "I apologize, but I am unable to process your request at this time. Let me connect you with our support team."))
      /\ ((forall i, (i < 3)%nat -> exists e, outcome i = Gemini.Failed e) ->
          Gemini.calls r = 3%nat
          /\ Gemini.reply r
             = Returns "I am experiencing technical difficulties. Let me connect you with our support team.")
  end.
Proof.
  intros r outcome. destruct client as [[]|error]; [|reflexivity].
  unfold r, Gemini.chatWithAssistant. fold outcome.
  assert (Hor : forall a b, b <> "" -> Js.or_else a b <> "").
  { intros a b Hb. unfold Js.or_else. destruct (String.eqb a "") eqn:Ha; [exact Hb|].
    now apply String.eqb_neq. }
  assert (Hcase : forall k text,
            (k < 3)%nat -> outcome k = Gemini.Generated text ->
            (forall i, (i < k)%nat -> exists e, outcome i = Gemini.Failed e) ->
            forall j tj, (j < 3)%nat -> outcome j = Gemini.Generated tj ->
            (forall i, (i < j)%nat -> exists e, outcome i = Gemini.Failed e) ->
            k = j /\ text = tj).
  { intros k text Hk Hgen Hfail j tj Hj Hgenj Hfailj.
    destruct (Nat.lt_trichotomy k j) as [Hlt|[Heq|Hgt]].
    - destruct (Hfailj k Hlt) as [e He]. congruence.
    - subst j. split; [reflexivity|congruence].
    - destruct (Hfail j Hgt) as [e He]. congruence. }
  cbn [Gemini.attempts Gemini.maxRetries Nat.ltb Nat.leb].
  destruct (outcome 0%nat) as [t0|e0] eqn:H0.
  { cbn [Gemini.reply Gemini.calls Gemini.pauses].
    split; [eexists; split; [reflexivity|apply Hor; discriminate]|].
    split; [lia|]. split; [reflexivity|]. split.
    - intros k text Hk Hgen Hfail.
      destruct (Hcase k text Hk Hgen Hfail 0%nat t0) as [-> ->];
        [lia|exact H0|intros i Hi; lia|]. split; reflexivity.
    - intros Hall. destruct (Hall 0%nat ltac:(lia)) as [e He]. congruence. }
  destruct (outcome 1%nat) as [t1|e1] eqn:H1.
  { cbn [Gemini.reply Gemini.calls Gemini.pauses app Z.of_nat Z.pow Z.mul].
    split; [eexists; split; [reflexivity|apply Hor; discriminate]|].
    split; [lia|]. split; [reflexivity|]. split.
    - intros k text Hk Hgen Hfail.
      destruct (Hcase k text Hk Hgen Hfail 1%nat t1) as [-> ->];
        [lia|exact H1| |split; reflexivity].
      intros i Hi. exists e0. replace i with 0%nat by lia. exact H0.
    - intros Hall. destruct (Hall 1%nat ltac:(lia)) as [e He]. congruence. }
  destruct (outcome 2%nat) as [t2|e2] eqn:H2.
  { cbn [Gemini.reply Gemini.calls Gemini.pauses app].
    split; [eexists; split; [reflexivity|apply Hor; discriminate]|].
    split; [lia|]. split; [reflexivity|]. split.
    - intros k text Hk Hgen Hfail.
      destruct (Hcase k text Hk Hgen Hfail 2%nat t2) as [-> ->];
        [lia|exact H2| |split; reflexivity].
      intros i Hi. destruct i as [|[|i]]; [exists e0; exact H0|exists e1; exact H1|lia].
    - intros Hall. destruct (Hall 2%nat ltac:(lia)) as [e He]. congruence. }
  cbn [Gemini.reply Gemini.calls Gemini.pauses app].
  split; [eexists; split; [reflexivity|discriminate]|].
  split; [lia|]. split; [reflexivity|]. split.
  - intros k text Hk Hgen Hfail.
    destruct k as [|[|[|k]]]; [congruence|congruence|congruence|lia].
  - intros _. split; reflexivity.
Qed.

Lemma gemini_retries_witness :
  Gemini.chatWithAssistant "hello" [] "English" (Returns tt)
    (fun _ attempt => if (attempt <? 1)%nat then Gemini.Failed (mkError "503")
                      else Gemini.Generated (Some "Hello, how can I help?"))
  = {| Gemini.reply := Returns "Hello, how can I help?"; Gemini.calls := 2;
       Gemini.pauses := [1000] |}.
Proof.
  pose proof (gemini_retries "hello" [] "English" (Returns tt)
                (fun _ attempt => if (attempt <? 1)%nat then Gemini.Failed (mkError "503")
                                  else Gemini.Generated (Some "Hello, how can I help?")))
    as H.
  cbv zeta in H. destruct H as (_ & _ & Hp & Hfirst & _).
  destruct (Hfirst 1%nat (Some "Hello, how can I help?")) as [Hc Hr].
  - lia.
  - reflexivity.
  - intros i Hi. exists (mkError "503"). destruct i; [reflexivity|lia].
  - rewrite Hc in Hp.
    destruct (Gemini.chatWithAssistant _ _ _ _ _) as [reply calls pauses].
    cbn in Hc, Hr, Hp. now subst.
Defined.

(* ===================================================================== *)
(** ** The local inference service *)
(* ===================================================================== *)

Lemma fold_add_turn_ui (messages : list App.Message) (conversation : string) :
  fold_left LlamaService.add_turn (App.history_of messages) (Returns conversation)
  = Returns (conversation ++ user_lines messages).
Proof.
  revert conversation. induction messages as [|msg rest IH]; intros conversation.
  - cbn [App.history_of map fold_left user_lines fold_right].
    f_equal. induction conversation as [|x c IHc]; [reflexivity|].
    rewrite append_cons. now rewrite <- IHc.
  - change (App.history_of (msg :: rest))
      with ({| LlamaService.role := match App.msg_role msg with
                                    | App.user => "user"
                                    | App.assistant => "model"
                                    end;
               LlamaService.parts := [ {| LlamaService.text := App.text msg |} ] |}
            :: App.history_of rest).
    cbn [fold_left]. change (user_lines (msg :: rest))
      with (match App.msg_role msg with
            | App.user => "USER: " ++ App.text msg ++ Js.nl ++ user_lines rest
            | App.assistant => user_lines rest
            end).
    destruct (App.msg_role msg).
    + change (LlamaService.add_turn (Returns conversation) _)
        with (Returns (conversation ++ "USER: " ++ App.text msg ++ Js.nl)).
      rewrite IH. f_equal. now rewrite !append_assoc_string.
    + change (LlamaService.add_turn (Returns conversation) _)
        with (Returns conversation).
      apply IH.
Qed.

(** X13: for the history that the chat window prepares from its messages,
    building the prompt never throws, and the prompt consists of the system
    instruction, the language line, one [USER:] line for each earlier
    message of the user, and the new message followed by [ASSISTANT:]; the
    assistant's earlier replies, which the window sends with the role
    [model], do not appear in it. *)
Theorem prompt_from_chat_window (messages : list App.Message) (message language : string) :
  LlamaService.build_conversation message (App.history_of messages) language
  = Returns (LlamaService.SYSTEM_INSTRUCTION ++ Js.nl ++ Js.nl
             ++ "CRITICAL: You MUST respond in " ++ language ++ "." ++ Js.nl ++ Js.nl
             ++ user_lines messages
             ++ "USER: " ++ message ++ Js.nl ++ "ASSISTANT:").
Proof.
  unfold LlamaService.build_conversation. rewrite fold_add_turn_ui.
  cbn [mbind outcome_bind mret outcome_ret]. f_equal.
  now rewrite !append_assoc_string.
Qed.

Lemma no_model_no_load (this : LlamaService.t) (fs : Fs.t) (engine : outcome unit) :
  LlamaService.modelLoaded this = false ->
  fs !! LlamaService.modelPath this = None ->
  snd (LlamaService.initializeLlama_start this fs engine) = false
  /\ LlamaService.isModelLoaded (fst (LlamaService.initializeLlama_start this fs engine))
     = false.
Proof.
  intros Hl Hn. unfold LlamaService.initializeLlama_start, Fs.existsSync.
  destruct engine as [[]|e]; cbn; rewrite ?Hn; cbn; auto.
Qed.

Lemma not_loaded_chat (service : LlamaService.t) (message : string)
    (history : list LlamaService.turn) (language : string)
    (generate : LlamaService.completion_request -> LlamaService.generation) :
  LlamaService.isModelLoaded service = false ->
  LlamaService.chatWithAssistant service message history language generate
  = Returns "I am currently initializing. Please wait a moment or ensure you have downloaded the required model file.".
Proof.
  intros Hloaded. unfold LlamaService.chatWithAssistant.
  unfold LlamaService.isModelLoaded in Hloaded. rewrite Hloaded. reflexivity.
Qed.

(** X14: a service that is constructed while no file exists at its model
    path starts no load and reports that no model is loaded, whether or not
    the engine could be created; every chat is then answered with the
    initializing text, whatever is asked and without consulting the engine.
    The same holds when [setModelPath] returns, for a path at which no
    file exists and whatever the fields of the service were; a load that an
    earlier call left pending is not part of this statement. *)
Theorem service_without_model_file (cwd : string) (fs : Fs.t) (engine : outcome unit) :
  fs !! LlamaService.default_modelPath cwd = None ->
  (let started := LlamaService.new_LlamaService cwd fs engine in
   snd started = false
   /\ LlamaService.isModelLoaded (fst started) = false
   /\ forall message history language generate,
        LlamaService.chatWithAssistant (fst started) message history language generate
        = Returns "I am currently initializing. Please wait a moment or ensure you have downloaded the required model file.")
  /\ (forall (other : LlamaService.t) (path : string),
        fs !! path = None ->
        let switched := LlamaService.setModelPath other path fs engine in
        snd switched = false
        /\ LlamaService.isModelLoaded (fst switched) = false
        /\ forall message history language generate,
             LlamaService.chatWithAssistant (fst switched) message history language generate
             = Returns "I am currently initializing. Please wait a moment or ensure you have downloaded the required model file.").
Proof.
  intros Hdefault. split.
  - destruct (no_model_no_load
                {| LlamaService.llama := false; LlamaService.modelLoaded := false;
                   LlamaService.modelPath := LlamaService.default_modelPath cwd;
                   LlamaService.config_modelPath := LlamaService.default_modelPath cwd |}
                fs engine eq_refl Hdefault) as [Hs1 Hs2].
    split; [exact Hs1|]. split; [exact Hs2|].
    intros. now apply not_loaded_chat.
  - intros other path Hpath.
    destruct (no_model_no_load
                {| LlamaService.llama := LlamaService.llama other;
                   LlamaService.modelLoaded := false;
                   LlamaService.modelPath := path;
                   LlamaService.config_modelPath := path |}
                fs engine eq_refl Hpath) as [Hw1 Hw2].
    split; [exact Hw1|]. split; [exact Hw2|].
    intros. now apply not_loaded_chat.
Qed.

Lemma service_without_model_file_witness :
  let started := LlamaService.new_LlamaService "/app" Scenario.store_with_llama
                   (Returns tt) in
  snd started = false
  /\ LlamaService.chatWithAssistant (fst started) "What do you offer?" [] "English"
       (fun _ => {| LlamaService.chunks := [Some "We offer services."];
                    LlamaService.finished := Returns tt |})
     = Returns "I am currently initializing. Please wait a moment or ensure you have downloaded the required model file.".
Proof.
  intros started.
  destruct (service_without_model_file "/app" Scenario.store_with_llama (Returns tt))
    as [(H1 & _ & H3) _].
  - vm_compute; reflexivity.
  - split; [exact H1|apply H3].
Defined.

(** ** The model file of the service and the download route *)

Lemma segments_of_child (segs : list string) (name : string) :
  segs <> [] -> Forall is_plain_name segs -> is_plain_name name ->
  Path.normalize_segments false
    (Str.split Path.slash (("/" ++ Str.join "/" segs) ++ "/" ++ name))
  = (segs ++ [name])%list.
Proof.
  intros Hne Hsegs Hname.
  assert (Heq : ("/" ++ Str.join "/" segs) ++ "/" ++ name
                = "/" ++ Str.join "/" (segs ++ [name])).
  { rewrite join_snoc by exact Hne. reflexivity. }
  rewrite Heq.
  assert (Hall : Forall is_plain_name (segs ++ [name])).
  { apply Forall_app. split; [exact Hsegs|]. now constructor. }
  assert (Hfree : Forall (fun x => free_of Path.slash x = true) (segs ++ [name])).
  { eapply Forall_impl; [exact Hall|]. intros x [[_ Hx] _]. exact Hx. }
  change ("/" ++ Str.join "/" (segs ++ [name]))
    with ("" ++ String Path.slash (Str.join "/" (segs ++ [name]))).
  rewrite split_app_sep by reflexivity.
  rewrite split_join; [|destruct segs; discriminate|exact Hfree].
  unfold Path.normalize_segments. cbn [fold_left].
  change (Path.normalize_step false [] "") with (@nil string).
  rewrite normalize_fold_plain by exact Hall.
  now rewrite app_nil_r, rev_involutive.
Qed.

Lemma resolve_plain (segs : list string) (name : string) :
  segs <> [] -> Forall is_plain_name segs -> is_plain_name name ->
  Path.resolve ("/" ++ Str.join "/" segs) name = ("/" ++ Str.join "/" segs) ++ "/" ++ name.
Proof.
  intros Hne Hsegs Hname. pose proof Hname as [[Hn0 Hnfree] _].
  unfold Path.resolve.
  assert (Hhead : Path.is_slash (Str.head_char name) = false).
  { destruct name as [|x name]; [reflexivity|]. cbn in Hnfree |- *.
    apply andb_true_iff in Hnfree as [Hx _]. now apply negb_true_iff. }
  rewrite Hhead. apply String.eqb_neq in Hn0. rewrite Hn0.
  rewrite (segments_of_child segs name Hne Hsegs Hname).
  rewrite join_snoc by exact Hne. reflexivity.
Qed.

Lemma append_inv_head (a b c : string) : a ++ b = a ++ c -> b = c.
Proof.
  induction a as [|x a IH]; [now rewrite !append_nil_l|].
  rewrite !append_cons. intros [= H]. now apply IH.
Qed.

Lemma default_modelPath_in_modelsDir (cwd : string) (mm : ModelManager) :
  modelsDir mm = Path.resolve cwd "models" ->
  LlamaService.default_modelPath cwd = modelsDir mm ++ "/" ++ "llama-model.gguf".
Proof.
  intros Hdir. unfold LlamaService.default_modelPath. rewrite Hdir.
  destruct (resolve_models_plain cwd) as (segs & Hne & Hsegs & ->).
  apply resolve_plain; [exact Hne|exact Hsegs|]. repeat split; discriminate.
Qed.

(** X15: the file that the inference service loads,
    [models/llama-model.gguf] under the working directory, is not the
    target of any catalog entry: whatever is requested from
    [POST /models/download] and whatever the transfer does, the entry at
    that path stays as it was.  So when it was missing before, a service
    started afterwards still starts no load and [GET /health] still reports
    that no model is loaded. *)
Theorem download_route_never_supplies_model (cwd : string) (mm : ModelManager)
    (fs : Fs.t) (body : Server.download_request) (events : list Download.event)
    (engine : outcome unit) :
  modelsDir mm = Path.resolve cwd "models" ->
  let target := LlamaService.default_modelPath cwd in
  let fs' := Server.fs_after (Server.post_models_download mm fs body events) in
  fs' !! target = fs !! target
  /\ (fs !! target = None ->
      let started := LlamaService.new_LlamaService cwd fs' engine in
      snd started = false
      /\ ChatServer.get_health (fst started)
         = {| ChatServer.status := "ok"; ChatServer.modelLoaded := false;
              ChatServer.modelPath := target |}).
Proof.
  intros Hdir target fs'.
  assert (Hsame : fs' !! target = fs !! target).
  { unfold fs'. apply post_other_paths. intros model Hin Heq.
    unfold target in Heq. rewrite (default_modelPath_in_modelsDir cwd mm Hdir) in Heq.
    assert (Hplain : is_plain_name (ModelInfo.filename model)).
    { unfold getRecommendedModels, RECOMMENDED_MODELS in Hin. simpl in Hin.
      destruct Hin as [<-|[<-|[<-|[]]]]; repeat split; discriminate. }
    destruct (getModelPath_plain_paths cwd mm _ Hdir Hplain) as [Hpath _].
    rewrite Hpath in Heq. apply append_inv_head in Heq.
    change ("/" ++ "llama-model.gguf") with (String Path.slash "llama-model.gguf") in Heq.
    change ("/" ++ ModelInfo.filename model)
      with (String Path.slash (ModelInfo.filename model)) in Heq.
    injection Heq as Heq.
    unfold getRecommendedModels, RECOMMENDED_MODELS in Hin. simpl in Hin.
    destruct Hin as [<-|[<-|[<-|[]]]]; discriminate Heq. }
  split; [exact Hsame|].
  intros Hnone started. rewrite <- Hsame in Hnone.
  destruct (no_model_no_load
              {| LlamaService.llama := false; LlamaService.modelLoaded := false;
                 LlamaService.modelPath := LlamaService.default_modelPath cwd;
                 LlamaService.config_modelPath := LlamaService.default_modelPath cwd |}
              fs' engine eq_refl Hnone) as [Hs1 Hs2].
  split; [exact Hs1|].
  unfold ChatServer.get_health, started, LlamaService.new_LlamaService.
  rewrite Hs2. f_equal.
  unfold LlamaService.initializeLlama_start.
  destruct engine as [[]|e]; cbn; [|reflexivity].
  destruct (negb _); reflexivity.
Qed.

Lemma download_route_never_supplies_model_witness :
  let fs' := Server.fs_after
               (Server.post_models_download Scenario.modelManager Scenario.empty_store
                  {| Server.modelUrl := Server.JString "https://example.org/x.gguf";
                     Server.filename := Server.JString "llama-3.2-1b-instruct-q4_0.gguf" |}
                  (complete_transfer (Some "10") [10])) in
  fs' !! "/app/models/llama-model.gguf" = None
  /\ snd (LlamaService.new_LlamaService "/app" fs' (Returns tt)) = false.
Proof.
  intros fs'.
  destruct (download_route_never_supplies_model "/app" Scenario.modelManager
              Scenario.empty_store
              {| Server.modelUrl := Server.JString "https://example.org/x.gguf";
                 Server.filename := Server.JString "llama-3.2-1b-instruct-q4_0.gguf" |}
              (complete_transfer (Some "10") [10]) (Returns tt)) as [H1 H2].
  - reflexivity.
  - split.
    + etransitivity; [exact H1|vm_compute; reflexivity].
    + apply H2. vm_compute; reflexivity.
Defined.

(** ** Cleaning a generated reply *)

Lemma append_nil_r_string (a : string) : a ++ "" = a.
Proof. induction a as [|x a IH]; [reflexivity|]. rewrite append_cons. now rewrite IH. Qed.

Lemma occurs_refl (s : string) : occurs s s.
Proof. exists "", "". rewrite append_nil_l. now rewrite append_nil_r_string. Qed.

Lemma occurs_trans (a b c : string) : occurs a b -> occurs b c -> occurs a c.
Proof.
  intros (p1 & q1 & ->) (p2 & q2 & ->).
  exists (p2 ++ p1), (q1 ++ q2). now rewrite !append_assoc_string.
Qed.

Lemma take_occurs (i : nat) (s : string) : exists rest, s = Str.take i s ++ rest.
Proof.
  unfold Str.take. revert i. induction s as [|x s IH]; intros i.
  - exists "". destruct i; reflexivity.
  - destruct i as [|i]; cbn [substring].
    + exists (String x s). reflexivity.
    + destruct (IH i) as [rest Hrest]. exists rest.
      rewrite append_cons. now rewrite <- Hrest.
Qed.

Lemma trimStart_occurs (s : string) : exists a, s = a ++ Js.trimStart s.
Proof.
  induction s as [|x s [a Ha]]; [now exists ""|].
  cbn [Js.trimStart]. destruct (Js.is_whitespace x).
  - exists (String x a). rewrite append_cons. now rewrite <- Ha.
  - now exists "".
Qed.

Lemma trimEnd_occurs (s : string) : exists b, s = Js.trimEnd s ++ b.
Proof.
  induction s as [|x s [b Hb]]; [now exists ""|].
  cbn [Js.trimEnd]. destruct (Js.trimEnd s) as [|y t] eqn:Ht.
  - rewrite append_nil_l in Hb. subst b. destruct (Js.is_whitespace x).
    + now exists (String x s).
    + now exists s.
  - exists b. rewrite append_cons. now rewrite <- Hb.
Qed.

Lemma trim_occurs (s : string) : occurs (Js.trim s) s.
Proof.
  unfold Js.trim. destruct (trimStart_occurs s) as [a Ha].
  destruct (trimEnd_occurs (Js.trimStart s)) as [b Hb].
  exists a, b. rewrite <- Hb. exact Ha.
Qed.

Lemma trimEnd_cons (x : ascii) (s : string) :
  Js.trimEnd (String x s)
  = match Js.trimEnd s with
    | EmptyString => if Js.is_whitespace x then EmptyString else String x EmptyString
    | t => String x t
    end.
Proof. reflexivity. Qed.

Lemma trimEnd_idem (s : string) : Js.trimEnd (Js.trimEnd s) = Js.trimEnd s.
Proof.
  induction s as [|x s IH]; [reflexivity|].
  cbn [Js.trimEnd]. destruct (Js.trimEnd s) as [|y t] eqn:Ht.
  - destruct (Js.is_whitespace x) eqn:Hx; [reflexivity|].
    cbn [Js.trimEnd]. now rewrite Hx.
  - rewrite (trimEnd_cons x (String y t)). now rewrite IH.
Qed.

Lemma trimStart_fixed (s : string) :
  match s with String x _ => Js.is_whitespace x = false | EmptyString => True end ->
  Js.trimStart s = s.
Proof. destruct s as [|x s]; [reflexivity|]. intros Hx. cbn [Js.trimStart]. now rewrite Hx. Qed.

Lemma trimStart_head (s : string) :
  match Js.trimStart s with
  | String x _ => Js.is_whitespace x = false
  | EmptyString => True
  end.
Proof.
  induction s as [|x s IH]; [exact I|].
  cbn [Js.trimStart]. destruct (Js.is_whitespace x) eqn:Hx; [exact IH|exact Hx].
Qed.

Lemma trimEnd_head (s : string) :
  match s with String x _ => Js.is_whitespace x = false | EmptyString => True end ->
  match Js.trimEnd s with
  | String x _ => Js.is_whitespace x = false
  | EmptyString => True
  end.
Proof.
  destruct s as [|x s]; [intros _; exact I|]. intros Hx.
  cbn [Js.trimEnd]. destruct (Js.trimEnd s); [rewrite Hx|]; exact Hx.
Qed.

Lemma trim_idem (s : string) : Js.trim (Js.trim s) = Js.trim s.
Proof.
  unfold Js.trim.
  rewrite (trimStart_fixed (Js.trimEnd (Js.trimStart s))).
  - apply trimEnd_idem.
  - apply trimEnd_head, trimStart_head.
Qed.

Lemma indexOf_none (s marker : string) : Js.indexOf s marker = None -> ~ occurs marker s.
Proof.
  induction s as [|x s IH]; intros Hidx (before & after & Heq).
  - cbn [Js.indexOf] in Hidx.
    destruct (String.prefix marker "") eqn:Hp; [discriminate|].
    destruct before; [|discriminate Heq]. rewrite append_nil_l in Heq.
    rewrite Heq in Hp. now rewrite prefix_app in Hp.
  - cbn [Js.indexOf] in Hidx.
    destruct (String.prefix marker (String x s)) eqn:Hp; [discriminate|].
    destruct before as [|y before].
    + rewrite append_nil_l in Heq. rewrite Heq in Hp. now rewrite prefix_app in Hp.
    + rewrite append_cons in Heq. injection Heq as _ Heq.
      apply IH; [|now exists before, after].
      destruct (Js.indexOf s marker); [discriminate Hidx|reflexivity].
Qed.

Lemma indexOf_some (s marker : string) (i : nat) :
  marker <> "" -> Js.indexOf s marker = Some i -> ~ occurs marker (Str.take i s).
Proof.
  intros Hm. revert i. induction s as [|x s IH]; intros i Hidx (before & after & Heq).
  - destruct i; cbn in Heq; destruct before; try discriminate Heq;
      rewrite append_nil_l in Heq; destruct marker; [congruence|discriminate|congruence|discriminate].
  - cbn [Js.indexOf] in Hidx.
    destruct (String.prefix marker (String x s)) eqn:Hp.
    + injection Hidx as <-. cbn in Heq. destruct before; [|discriminate Heq].
      rewrite append_nil_l in Heq. destruct marker; [congruence|discriminate].
    + destruct (Js.indexOf s marker) as [j|] eqn:Hj; [|discriminate Hidx].
      injection Hidx as <-. unfold Str.take in Heq. cbn [substring] in Heq.
      destruct before as [|y before].
      * rewrite append_nil_l in Heq.
        destruct (take_occurs j s) as [rest Hrest]. unfold Str.take in Hrest.
        assert (Hs : String x s = marker ++ (after ++ rest)).
        { rewrite <- append_assoc_string, <- Heq, append_cons. now rewrite <- Hrest. }
        rewrite Hs in Hp. now rewrite prefix_app in Hp.
      * rewrite append_cons in Heq. injection Heq as _ Heq.
        apply (IH j eq_refl). now exists before, after.
Qed.

Lemma stop_at_occurs (response marker : string) :
  occurs (LlamaService.stop_at response marker) response.
Proof.
  unfold LlamaService.stop_at. destruct (Js.indexOf response marker) as [i|].
  - eapply occurs_trans; [apply trim_occurs|].
    destruct (take_occurs i response) as [rest Hrest].
    exists "", rest. now rewrite append_nil_l.
  - apply occurs_refl.
Qed.

Lemma stop_at_free (response marker : string) :
  marker <> "" -> ~ occurs marker (LlamaService.stop_at response marker).
Proof.
  intros Hm. unfold LlamaService.stop_at.
  destruct (Js.indexOf response marker) as [i|] eqn:Hidx.
  - intros Hocc. apply (indexOf_some response marker i Hm Hidx).
    eapply occurs_trans; [exact Hocc|apply trim_occurs].
  - now apply indexOf_none.
Qed.

Lemma stop_at_trimmed (response marker : string) :
  Js.trim response = response ->
  Js.trim (LlamaService.stop_at response marker) = LlamaService.stop_at response marker.
Proof.
  intros Ht. unfold LlamaService.stop_at.
  destruct (Js.indexOf response marker); [apply trim_idem|exact Ht].
Qed.

Lemma clean_response_clean (response : string) :
  clean_reply (LlamaService.clean_response response).
Proof.
  unfold LlamaService.clean_response, LlamaService.stopMarkers. cbn [fold_left].
  set (r0 := Js.trim response).
  set (r1 := LlamaService.stop_at r0 "USER:").
  set (r2 := LlamaService.stop_at r1 "ASSISTANT:").
  set (r3 := LlamaService.stop_at r2 (Js.nl ++ Js.nl)).
  unfold Js.or_else. destruct (String.eqb r3 "") eqn:He.
  - split; [discriminate|]. split; [vm_compute; reflexivity|].
    repeat constructor; apply indexOf_none; vm_compute; reflexivity.
  - apply String.eqb_neq in He. split; [exact He|]. split.
    + unfold r3, r2, r1. do 3 apply stop_at_trimmed. apply trim_idem.
    + assert (H3 : ~ occurs (Js.nl ++ Js.nl) r3) by (apply stop_at_free; discriminate).
      assert (H2 : ~ occurs "ASSISTANT:" r2) by (apply stop_at_free; discriminate).
      assert (H1 : ~ occurs "USER:" r1) by (apply stop_at_free; discriminate).
      assert (H32 : occurs r3 r2) by apply stop_at_occurs.
      assert (H21 : occurs r2 r1) by apply stop_at_occurs.
      repeat constructor.
      * intros H. apply H1. eapply occurs_trans; [exact H|].
        eapply occurs_trans; [exact H32|exact H21].
      * intros H. apply H2. eapply occurs_trans; [exact H|exact H32].
      * exact H3.
Qed.

Lemma chat_reply_clean (service : LlamaService.t) (message : string)
    (history : list LlamaService.turn) (language : string)
    (engine : LlamaService.completion_request -> LlamaService.generation) (r : string) :
  LlamaService.chatWithAssistant service message history language engine = Returns r ->
  clean_reply r.
Proof.
  unfold LlamaService.chatWithAssistant.
  destruct (negb (LlamaService.modelLoaded service) || negb (LlamaService.llama service)).
  - intros [= <-]. split; [discriminate|]. split; [vm_compute; reflexivity|].
    repeat constructor; apply indexOf_none; vm_compute; reflexivity.
  - destruct (LlamaService.build_conversation message history language) as [prompt|e].
    + destruct (LlamaService.finished _); [|discriminate].
      intros [= <-]. apply clean_response_clean.
    + intros [= <-]. split; [discriminate|]. split; [vm_compute; reflexivity|].
      repeat constructor; apply indexOf_none; vm_compute; reflexivity.
Qed.

Lemma prefix_true (m s : string) : String.prefix m s = true -> exists t, s = m ++ t.
Proof.
  revert s. induction m as [|x m IH]; intros s Hp.
  - now exists s.
  - destruct s as [|y s]; [discriminate Hp|]. cbn [String.prefix] in Hp.
    destruct (ascii_dec x y) as [<-|]; [|discriminate Hp].
    destruct (IH s Hp) as [t ->]. now exists t.
Qed.

Lemma indexOf_found (s marker : string) (i : nat) :
  Js.indexOf s marker = Some i -> occurs marker s.
Proof.
  revert i. induction s as [|x s IH]; intros i Hidx; cbn [Js.indexOf] in Hidx.
  - destruct (String.prefix marker "") eqn:Hp; [|discriminate Hidx].
    destruct (prefix_true _ _ Hp) as [t Ht]. exists "", t. now rewrite append_nil_l.
  - destruct (String.prefix marker (String x s)) eqn:Hp.
    + destruct (prefix_true _ _ Hp) as [t Ht]. exists "", t. now rewrite append_nil_l.
    + destruct (Js.indexOf s marker) as [j|] eqn:Hj; [|discriminate Hidx].
      destruct (IH j eq_refl) as (before & after & ->).
      exists (String x before), after. now rewrite append_cons.
Qed.

Lemma stop_at_absent (response marker : string) :
  ~ occurs marker response -> LlamaService.stop_at response marker = response.
Proof.
  intros Hfree. unfold LlamaService.stop_at.
  destruct (Js.indexOf response marker) as [i|] eqn:Hidx; [|reflexivity].
  exfalso. apply Hfree. now apply (indexOf_found response marker i).
Qed.

(** X16: what the service makes of the text that the engine generated.
    The cleaned reply is never empty, has no white space at either end and
    contains none of the stop markers ["USER:"], ["ASSISTANT:"] and the
    blank line; it is the apology or a part of the generated text; and a
    text that is already in that form is returned as it is, so cleaning a
    second time changes nothing. *)
Theorem reply_cleaning (response : string) :
  let r := LlamaService.clean_response response in
  clean_reply r
  /\ (r = "I apologize, but I couldn't generate a response. Let me connect you with our support team."
      \/ occurs r response)
  /\ (clean_reply response -> r = response)
  /\ LlamaService.clean_response r = r.
Proof.
  intros r.
  assert (Hclean : clean_reply r) by apply clean_response_clean.
  assert (Hfix : forall s, clean_reply s -> LlamaService.clean_response s = s).
  { intros s (Hne & Htrim & Hfree).
    unfold LlamaService.stopMarkers in Hfree.
    apply Forall_cons in Hfree as [H1 Hfree].
    apply Forall_cons in Hfree as [H2 Hfree].
    apply Forall_cons in Hfree as [H3 _].
    unfold LlamaService.clean_response, LlamaService.stopMarkers. cbn [fold_left].
    rewrite Htrim. rewrite (stop_at_absent s "USER:" H1).
    rewrite (stop_at_absent s "ASSISTANT:" H2).
    rewrite (stop_at_absent s (Js.nl ++ Js.nl) H3).
    unfold Js.or_else. apply String.eqb_neq in Hne. now rewrite Hne. }
  split; [exact Hclean|]. split; [|split; [apply Hfix|now apply Hfix]].
  unfold r, LlamaService.clean_response, LlamaService.stopMarkers. cbn [fold_left].
  unfold Js.or_else. destruct (String.eqb _ "") eqn:He; [now left|right].
  eapply occurs_trans; [apply stop_at_occurs|].
  eapply occurs_trans; [apply stop_at_occurs|].
  eapply occurs_trans; [apply stop_at_occurs|apply trim_occurs].
Qed.

Lemma reply_cleaning_witness :
  LlamaService.clean_response "We are open on weekdays." = "We are open on weekdays.".
Proof.
  destruct (reply_cleaning "We are open on weekdays.") as (_ & _ & Hfix & _).
  apply Hfix. split; [discriminate|]. split; [vm_compute; reflexivity|].
  repeat constructor; apply indexOf_none; vm_compute; reflexivity.
Defined.

(** X17: what [POST /chat] answers, for a body whose message is a string
    when present.  A 400 is sent exactly for a missing or empty message,
    and then the engine is not consulted; a 500 only for a message that is
    not empty, when the model is loaded, the prompt could be built and the
    engine rejected the completion, and then it carries the message of that
    rejection; every 200 answers a message that is not empty and carries a
    reply that is not empty, has no white space at either end and contains
    no stop marker.  A history entry without parts never makes the route
    fail: it cannot lead to a 500. *)
Theorem chat_route_contract (service : LlamaService.t) (body : ChatServer.chat_request)
    (engine : LlamaService.completion_request -> LlamaService.generation) :
  (ChatServer.message body = None \/ ChatServer.message body = Some ""
   <-> forall engine', ChatServer.post_chat service body engine'
                       = ChatServer.BadRequest "Message is required")
  /\
  match ChatServer.post_chat service body engine with
  | ChatServer.BadRequest e =>
      e = "Message is required"
      /\ (ChatServer.message body = None \/ ChatServer.message body = Some "")
  | ChatServer.ServerError e details =>
      e = "Failed to process chat request"
      /\ LlamaService.isModelLoaded service = true
      /\ exists text prompt,
           ChatServer.message body = Some text /\ text <> ""
           /\ LlamaService.build_conversation text
                (default [] (ChatServer.history body))
                (default "English" (ChatServer.language body)) = Returns prompt
           /\ LlamaService.finished
                (engine {| LlamaService.nThreads := 4; LlamaService.nTokPredict := 512;
                           LlamaService.topK := 40; LlamaService.topP := 9 # 10;
                           LlamaService.temp := 7 # 10;
                           LlamaService.repeatPenalty := 11 # 10;
                           LlamaService.prompt := prompt |})
              = Throws (mkError details)
  | ChatServer.Ok r =>
      (exists text, ChatServer.message body = Some text /\ text <> "") /\ clean_reply r
  end.
Proof.
  assert (Hbad : ChatServer.post_chat service body engine
                 = ChatServer.BadRequest "Message is required"
                 -> ChatServer.message body = None \/ ChatServer.message body = Some "").
  { unfold ChatServer.post_chat.
    destruct (ChatServer.message body) as [text|]; [|now left].
    destruct (String.eqb text "") eqn:He; [apply String.eqb_eq in He; subst; now right|].
    destruct (LlamaService.chatWithAssistant service text _ _ engine) as [r|[details]];
      discriminate. }
  split.
  - split; [|intros H; apply Hbad, H].
    intros [Hm|Hm] engine'; unfold ChatServer.post_chat; rewrite Hm; reflexivity.
  - unfold ChatServer.post_chat.
    destruct (ChatServer.message body) as [text|] eqn:Hmsg; [|now split; [|left]].
    destruct (String.eqb text "") eqn:He.
    + apply String.eqb_eq in He. subst text. now split; [|right].
    + apply String.eqb_neq in He.
      destruct (LlamaService.chatWithAssistant service text _ _ engine)
        as [r|[details]] eqn:Hchat.
      * split; [now exists text|]. eapply chat_reply_clean; exact Hchat.
      * split; [reflexivity|].
        unfold LlamaService.chatWithAssistant in Hchat.
        unfold LlamaService.isModelLoaded.
        destruct (LlamaService.modelLoaded service); [|discriminate Hchat].
        split; [reflexivity|].
        destruct (LlamaService.llama service); [|discriminate Hchat].
        cbn [negb orb] in Hchat.
        destruct (LlamaService.build_conversation text _ _) as [prompt|e] eqn:Hb;
          [|discriminate Hchat].
        exists text, prompt. split; [reflexivity|]. split; [exact He|].
        split; [exact Hb|].
        destruct (LlamaService.finished _) as [u|e]; [discriminate Hchat|].
        now injection Hchat as ->.
Qed.

(** An empty message is turned down whatever the engine would do. *)
Lemma chat_route_contract_witness :
  ChatServer.post_chat
    {| LlamaService.llama := true; LlamaService.modelLoaded := true;
       LlamaService.modelPath := "/app/models/llama-model.gguf";
       LlamaService.config_modelPath := "/app/models/llama-model.gguf" |}
    {| ChatServer.message := Some ""; ChatServer.history := None;
       ChatServer.language := None |}
    (fun _ => {| LlamaService.chunks := [];
                 LlamaService.finished := Throws (mkError "out of memory") |})
  = ChatServer.BadRequest "Message is required".
Proof.
  destruct (chat_route_contract
              {| LlamaService.llama := true; LlamaService.modelLoaded := true;
                 LlamaService.modelPath := "/app/models/llama-model.gguf";
                 LlamaService.config_modelPath := "/app/models/llama-model.gguf" |}
              {| ChatServer.message := Some ""; ChatServer.history := None;
                 ChatServer.language := None |}
              (fun _ => {| LlamaService.chunks := [];
                           LlamaService.finished := Throws (mkError "out of memory") |}))
    as [[H _] _].
  apply H. right. reflexivity.
Defined.

(** ** Reading the announced length *)

Lemma digit_value_pretty (d : N) :
  (d < 10)%N -> ParseInt.digit_value (pretty_N_char d) = Some (Z.of_N d).
Proof.
  intros Hd.
  assert (Hcases : (d = 0 \/ d = 1 \/ d = 2 \/ d = 3 \/ d = 4 \/ d = 5 \/ d = 6
                    \/ d = 7 \/ d = 8 \/ d = 9)%N) by lia.
  repeat (destruct Hcases as [->|Hcases]; [reflexivity|]). now subst d.
Qed.

Lemma digits_pretty_N_go (x : N) (s : string) (a : option Z) :
  (0 < x)%N -> default 0 a = 0 ->
  ParseInt.digits (pretty_N_go x s) a = ParseInt.digits s (Some (Z.of_N x)).
Proof.
  revert s a. induction (N.lt_wf_0 x) as [x _ IH]; intros s a Hx Ha.
  rewrite pretty_N_go_step by exact Hx.
  assert (Hd : (x `mod` 10 < 10)%N) by (apply N.mod_lt; lia).
  assert (Hx10 : Z.of_N x = 10 * Z.of_N (x `div` 10) + Z.of_N (x `mod` 10)).
  { rewrite (N.div_mod x 10) at 1 by lia. lia. }
  destruct (decide (x `div` 10 = 0)%N) as [H0|H0].
  - rewrite H0, pretty_N_go_0. cbn [ParseInt.digits].
    rewrite (digit_value_pretty _ Hd), Ha, Hx10, H0. reflexivity.
  - rewrite (IH (x `div` 10)%N); [|apply N.div_lt; lia|lia|exact Ha].
    cbn [ParseInt.digits]. rewrite (digit_value_pretty _ Hd). cbn [default].
    now rewrite Hx10.
Qed.

Lemma pretty_N_go_app (x : N) (s rest : string) :
  pretty_N_go x s ++ rest = pretty_N_go x (s ++ rest).
Proof.
  revert s. induction (N.lt_wf_0 x) as [x _ IH]; intros s.
  destruct (decide (0 < x)%N) as [Hx|Hx].
  - rewrite (pretty_N_go_step x s), (pretty_N_go_step x (s ++ rest)) by exact Hx.
    rewrite IH by (apply N.div_lt; lia). reflexivity.
  - assert (x = 0%N) as -> by lia. now rewrite !pretty_N_go_0.
Qed.

Lemma pretty_N_go_head (x : N) (s : string) :
  (0 < x)%N -> exists d t, (d < 10)%N /\ pretty_N_go x s = String (pretty_N_char d) t.
Proof.
  revert s. induction (N.lt_wf_0 x) as [x _ IH]; intros s Hx.
  rewrite pretty_N_go_step by exact Hx.
  destruct (decide (x `div` 10 = 0)%N) as [H0|H0].
  - rewrite H0, pretty_N_go_0. exists (x `mod` 10)%N, s.
    split; [apply N.mod_lt; lia|reflexivity].
  - apply IH; [apply N.div_lt; lia|now apply N.neq_0_lt_0].
Qed.

Lemma parseInt10_digit_head (d : N) (t : string) :
  (d < 10)%N ->
  ParseInt.parseInt10 (String (pretty_N_char d) t)
  = ParseInt.digits (String (pretty_N_char d) t) None.
Proof.
  intros Hd.
  assert (Hcases : (d = 0 \/ d = 1 \/ d = 2 \/ d = 3 \/ d = 4 \/ d = 5 \/ d = 6
                    \/ d = 7 \/ d = 8 \/ d = 9)%N) by lia.
  repeat (destruct Hcases as [->|Hcases]; [reflexivity|]). now subst d.
Qed.

Lemma parseInt10_pretty (n : Z) (rest : string) :
  0 <= n ->
  match rest with String c _ => ParseInt.digit_value c = None | EmptyString => True end ->
  ParseInt.parseInt10 (pretty n ++ rest) = Some n.
Proof.
  intros Hn Hrest.
  assert (Hstop : forall acc, ParseInt.digits rest acc = acc).
  { intros acc. destruct rest as [|c rest]; [reflexivity|].
    cbn [ParseInt.digits]. now rewrite Hrest. }
  destruct n as [|p|p]; [| |lia].
  - change (pretty 0 ++ rest) with (String "0" rest).
    change (ParseInt.parseInt10 (String "0" rest)) with (ParseInt.digits rest (Some 0)).
    apply Hstop.
  - change (pretty (Z.pos p)) with (pretty_N_go (N.pos p) "").
    rewrite pretty_N_go_app, append_nil_l.
    destruct (pretty_N_go_head (N.pos p) rest) as (d & t & Hd & Heq); [lia|].
    rewrite Heq, (parseInt10_digit_head d t Hd), <- Heq.
    rewrite digits_pretty_N_go by (reflexivity || lia).
    now rewrite Hstop.
Qed.

(** X18: the length that a response announces is read back exactly.  When
    the first response has status 200 and a [Content-Length] header that is
    the decimal writing of [n], possibly followed by text that does not
    start with a digit, the download takes [n] as its total; so the
    percentages that follow are relative to the announced length.  [n] is
    kept below [2^53], the range in which a number holds every integer
    exactly. *)
Theorem content_length_read_back {S : Type} (onProgress : option (Z -> S -> S))
    (st : Download.state S) (n : Z) (rest : string) :
  0 <= n < 2 ^ 53 ->
  match rest with String c _ => ParseInt.digit_value c = None | EmptyString => True end ->
  Download.active st = true -> Download.responded st = false ->
  let st' := Download.handle onProgress st
               (Download.Response 200 (Some (pretty n ++ rest))) in
  Download.totalBytes st' = Some n
  /\ forall len,
       Download.downloadedBytes (Download.handle onProgress st' (Download.Data len))
       = Download.downloadedBytes st + len
       /\ (0 < n -> forall callback, onProgress = Some callback ->
           Download.listener (Download.handle onProgress st' (Download.Data len))
           = callback (percent (Download.downloadedBytes st + len) n)
               (Download.listener st)).
Proof.
  intros [Hn _] Hrest Hactive Hresp st'.
  assert (Hne : String.eqb (pretty n ++ rest) "" = false).
  { apply String.eqb_neq. intros Heq.
    assert (Hp : ParseInt.parseInt10 (pretty n ++ rest) = Some n)
      by now apply parseInt10_pretty.
    rewrite Heq in Hp. discriminate Hp. }
  assert (Hst' : st' = Download.mkState (Download.fs st) (Download.listener st)
                         (Download.modelPath st) (Download.downloadedBytes st) (Some n)
                         (Download.requested st) (Download.active st) true true true
                         (Download.settled st)).
  { unfold st', Download.handle. rewrite Hactive, Hresp. cbn [andb negb].
    unfold Download.on_response. cbn [Z.eqb negb Pos.eqb]. rewrite Hne.
    rewrite parseInt10_pretty by assumption. now rewrite Hactive. }
  rewrite Hst'. split; [reflexivity|].
  intros len. unfold Download.handle, Download.on_data. cbn.
  split; [reflexivity|].
  intros Hpos callback ->.
  apply Z.ltb_lt in Hpos. now rewrite Hpos.
Qed.

Lemma content_length_read_back_witness :
  Download.totalBytes
    (Download.handle Download.record_progress
       (Download.downloadModel Scenario.modelManager
          Scenario.llama_1b Scenario.empty_store [])
       (Download.Response 200 (Some (pretty 1000 ++ ""))))
  = Some 1000.
Proof.
  apply (content_length_read_back Download.record_progress
           (Download.downloadModel Scenario.modelManager
              Scenario.llama_1b Scenario.empty_store []) 1000 "").
  - lia.
  - exact I.
  - vm_compute; reflexivity.
  - vm_compute; reflexivity.
Defined.
